(** * server.js: the REST backend, embedded and verified

    A shallow embedding of [server.js]: the password policy, the two
    authentication routes, the [protect] and [adminProtect] gates, the
    paginated listings, the activity logger and the image routes.

    The managed database, the object storage, the image generator, bcrypt
    and jsonwebtoken are collaborators of the program, not part of it.
    The tables are modelled as lists of rows held in a [World]; the
    libraries' pure functions are fields of a [Services] record that every
    handler receives. *)

From Stdlib Require Import List ZArith Bool String Ascii Lia.
From Stdlib Require Import DecimalString.
Import ListNotations.

Set Warnings "-register-all".
Open Scope string_scope.
Open Scope list_scope.
Open Scope Z_scope.

(** ** JavaScript strings

    A JavaScript string is a sequence of UTF-16 code units; [s.length]
    counts code units and a regular expression without the [u] flag matches
    code unit by code unit. *)

Definition jsstring := list Z.

Definition js_length (s : jsstring) : Z := Z.of_nat (List.length s).

(** The bytes of a source literal (UTF-8 in the file) as code units.  The
    literals of [server.js] that the model uses lie in the Basic Multilingual
    Plane, where a code point is one code unit; a four-byte sequence gives
    the surrogate pair. *)
Fixpoint utf16_of_utf8 (bs : list Z) : jsstring :=
  match bs with
  | [] => []
  | b :: r =>
    if b <? 128 then b :: utf16_of_utf8 r
    else if b <? 224 then
      match r with
      | c1 :: r1 => ((b mod 32) * 64 + c1 mod 64) :: utf16_of_utf8 r1
      | _ => [65533]
      end
    else if b <? 240 then
      match r with
      | c1 :: c2 :: r2 =>
        ((b mod 16) * 4096 + (c1 mod 64) * 64 + c2 mod 64) :: utf16_of_utf8 r2
      | _ => [65533]
      end
    else
      match r with
      | c1 :: c2 :: c3 :: r3 =>
        let cp := (b mod 8) * 262144 + (c1 mod 64) * 4096
                  + (c2 mod 64) * 64 + c3 mod 64 - 65536 in
        (55296 + cp / 1024) :: (56320 + cp mod 1024) :: utf16_of_utf8 r3
      | _ => [65533]
      end
  end.

Definition bytes_of (s : string) : list Z :=
  map (fun a => Z.of_N (N_of_ascii a)) (list_ascii_of_string s).

Definition lit (s : string) : jsstring := utf16_of_utf8 (bytes_of s).

(** The code unit of the double quote, which a literal cannot hold. *)
Definition dquote : Z := 34.

Definition jsstring_eqb (a b : jsstring) : bool :=
  if list_eq_dec Z.eq_dec a b then true else false.

(** [!s] for a value that is a string or [undefined]: [undefined] and the
    empty string are falsy. *)
Definition truthy (v : option jsstring) : bool :=
  match v with
  | Some (_ :: _) => true
  | _ => false
  end.

Fixpoint startsWith (s prefix : jsstring) {struct prefix} : bool :=
  match prefix, s with
  | [], _ => true
  | p :: prefix', c :: s' => (c =? p) && startsWith s' prefix'
  | _ :: _, [] => false
  end.

(** [s.includes(needle)]. *)
Fixpoint includes (s needle : jsstring) : bool :=
  startsWith s needle ||
  match s with
  | [] => false
  | _ :: s' => includes s' needle
  end.

(** [s.substring(0, n)] for [n >= 0]. *)
Definition substring0 (s : jsstring) (n : Z) : jsstring :=
  firstn (Z.to_nat n) s.

(** [s.split(' ')]: the pieces between the spaces, at least one. *)
Fixpoint split_space (s : jsstring) : list jsstring :=
  match s with
  | [] => [[]]
  | c :: s' =>
    if c =? 32 then [] :: split_space s'
    else match split_space s' with
         | piece :: rest => (c :: piece) :: rest
         | [] => [[c]]
         end
  end.

(** The decimal digits of an integer, as a template literal prints it. *)
Definition decimal (n : Z) : jsstring :=
  lit (NilZero.string_of_int (Z.to_int n)).

(** ** The password policy: [validatePassword] *)

(** [/[A-Z]/]: one code unit in the range A to Z. *)
Definition is_uppercase (c : Z) : bool := (65 <=? c) && (c <=? 90).

(** The class of the third regular expression: the twenty characters
    ! @ # $ % ^ & * ( ) , . ? (double quote) : { } | < > between the
    brackets, where each of them stands for itself. *)
Definition special_chars : jsstring :=
  lit "!@#$%^&*(),.?" ++ [dquote] ++ lit ":{}|<>".

Definition is_special (c : Z) : bool := existsb (Z.eqb c) special_chars.

(** [re.test(s)] for a regular expression that is one character class. *)
Definition test_class (cls : Z -> bool) (s : jsstring) : bool := existsb cls s.

Definition msg_minLength : jsstring := lit "Mật khẩu phải có ít nhất 8 ký tự".
Definition msg_hasUppercase : jsstring :=
  lit "Mật khẩu phải có ít nhất 1 chữ cái viết hoa".
Definition msg_hasSpecialChar : jsstring :=
  lit "Mật khẩu phải có ít nhất 1 ký tự đặc biệt (!@#$%^&*)".

Record PasswordErrors := {
  minLength : option jsstring;
  hasUppercase : option jsstring;
  hasSpecialChar : option jsstring
}.

Record PasswordValidation := {
  isValid : bool;
  errors : PasswordErrors
}.

Definition validatePassword (password : jsstring) : PasswordValidation :=
  let minLength := 8 <=? js_length password in
  let hasUppercase := test_class is_uppercase password in
  let hasSpecialChar := test_class is_special password in
  {| isValid := minLength && hasUppercase && hasSpecialChar;
     errors := {|
       minLength := if negb minLength then Some msg_minLength else None;
       hasUppercase := if negb hasUppercase then Some msg_hasUppercase else None;
       hasSpecialChar :=
         if negb hasSpecialChar then Some msg_hasSpecialChar else None |} |}.

(** [Object.values(errors).filter(Boolean)]: the messages of the failed
    rules, in the order of the object's keys. *)
Definition errorMessages (e : PasswordErrors) : list jsstring :=
  let keep (m : option jsstring) := if truthy m then match m with Some s => [s] | None => [] end else [] in
  keep (minLength e) ++ keep (hasUppercase e) ++ keep (hasSpecialChar e).

(** ** Values sent and received *)

(** What [res.json] serialises.  A field whose value is [undefined] is left
    out of an object; [NaN] and the infinities are printed as [null]. *)
Inductive Json :=
| JNull
| JBool (b : bool)
| JNum (n : Z)
| JStr (s : jsstring)
| JArr (items : list Json)
| JObj (fields : list (string * Json)).

Definition field (k : string) (v : Json) : list (string * Json) := [(k, v)].

Definition field_opt (k : string) (v : option Json) : list (string * Json) :=
  match v with
  | Some j => [(k, j)]
  | None => []
  end.

Definition json_of_option {A} (f : A -> Json) (v : option A) : Json :=
  match v with
  | Some a => f a
  | None => JNull
  end.

(** [obj.key] on a serialised object: the first field of that name. *)
Fixpoint lookup_field (k : string) (fields : list (string * Json)) : option Json :=
  match fields with
  | [] => None
  | (k', v) :: rest => if String.eqb k k' then Some v else lookup_field k rest
  end.

Definition get (k : string) (j : Json) : option Json :=
  match j with
  | JObj fields => lookup_field k fields
  | _ => None
  end.

Record Response := {
  status : Z;
  body : Json
}.

(** [res.status(code).json(body)]; [res.json(body)] answers 200. *)
Definition respond (code : Z) (fields : list (string * Json)) : Response :=
  {| status := code; body := JObj fields |}.

(** An error object: what the database client puts in [error], what a
    rejected promise carries, what [throw] raises.  [message] is
    [undefined] for an object that has none. *)
Record JsError := {
  code : option jsstring;
  message : option jsstring;
  http_status : Z
}.

Definition Error (msg : jsstring) : JsError :=
  {| code := None; message := Some msg; http_status := 0 |}.

(** The [TypeError] of reading a property of [undefined] or [null]. *)
Definition TypeError : JsError :=
  Error (lit "Cannot read properties of undefined").

(** ** The rows of the three tables *)

Record User := {
  u_id : jsstring;
  u_full_name : jsstring;
  u_email : jsstring;
  u_hashed_password : jsstring;
  u_bio : option jsstring;
  u_avatar_url : option jsstring;
  u_created_at : Z;
  u_updated_at : option Z
}.

Record Image := {
  img_id : jsstring;
  img_user_id : jsstring;
  img_prompt : jsstring;
  img_image_url : jsstring;
  img_file_path : jsstring;
  img_created_at : Z
}.

Record Activity := {
  act_id : jsstring;
  act_user_id : jsstring;
  act_action : jsstring;
  act_image_id : option jsstring;
  act_timestamp : Z;
  act_additional_data : Json
}.

(** The payload of a verified token: what [login] signs, and the [role]
    that [adminProtect] reads. *)
Record Claims := {
  userId : jsstring;
  email : jsstring;
  role : option jsstring
}.

(** ** The world outside the process *)

(** How the next call to a collaborator ends: it is carried out, it
    resolves with an error ([{ error }], or a response that is not [ok]),
    or its promise rejects. *)
Inductive Outcome :=
| Succeeds
| Fails (e : JsError)
| Rejects (e : JsError).

(** The tables, the [images] bucket, the clock, and the fate of the calls
    to come: [script] holds one outcome per call, in order, and a call past
    its end succeeds.  No constraint of the schema is part of the model: an
    insert that is carried out adds its row. *)
Record World := {
  users : list User;
  images : list Image;
  activities : list Activity;
  activities_table : bool;
  bucket_images : list (jsstring * list Z);
  clock : Z;
  next_serial : Z;
  script : list Outcome
}.

Definition set_script (w : World) (s : list Outcome) : World :=
  {| users := users w; images := images w; activities := activities w;
     activities_table := activities_table w; bucket_images := bucket_images w;
     clock := clock w; next_serial := next_serial w; script := s |}.

Definition set_users (w : World) (us : list User) : World :=
  {| users := us; images := images w; activities := activities w;
     activities_table := activities_table w; bucket_images := bucket_images w;
     clock := clock w; next_serial := next_serial w; script := script w |}.

Definition set_images (w : World) (imgs : list Image) : World :=
  {| users := users w; images := imgs; activities := activities w;
     activities_table := activities_table w; bucket_images := bucket_images w;
     clock := clock w; next_serial := next_serial w; script := script w |}.

Definition set_activities (w : World) (acts : list Activity) : World :=
  {| users := users w; images := images w; activities := acts;
     activities_table := activities_table w; bucket_images := bucket_images w;
     clock := clock w; next_serial := next_serial w; script := script w |}.

Definition set_next_serial (w : World) (n : Z) : World :=
  {| users := users w; images := images w; activities := activities w;
     activities_table := activities_table w; bucket_images := bucket_images w;
     clock := clock w; next_serial := n; script := script w |}.

Definition set_bucket_images (w : World) (b : list (jsstring * list Z)) : World :=
  {| users := users w; images := images w; activities := activities w;
     activities_table := activities_table w; bucket_images := b;
     clock := clock w; next_serial := next_serial w; script := script w |}.

(** The pure functions of the libraries and services the program calls. *)
Record Services := {
  (** [bcrypt.hash(password, rounds)] *)
  bcrypt_hash : jsstring -> Z -> jsstring;
  (** [bcrypt.compare(password, hash)] *)
  bcrypt_compare : jsstring -> jsstring -> bool;
  (** [jwt.sign(payload, JWT_SECRET, { expiresIn })] at a time in seconds *)
  jwt_sign : Claims -> Z -> Z -> jsstring;
  (** [jwt.verify(token, JWT_SECRET)] at a time in seconds; [None] when it
      throws: a token that is malformed, wrongly signed or expired *)
  jwt_verify : jsstring -> Z -> option Claims;
  (** the identifier the database gives a new row *)
  gen_random_uuid : Z -> jsstring;
  (** the filter [full_name.ilike.%s%,email.ilike.%s%] that [or] parses,
      [None] when the database refuses the expression *)
  or_ilike : jsstring -> option (User -> bool);
  (** the image the generator returns for a prompt *)
  generate : jsstring -> list Z;
  (** [storage.from('images').getPublicUrl(path).data.publicUrl] *)
  getPublicUrl : jsstring -> jsstring
}.

(** ** The handlers' monad: state and exceptions *)

Inductive Result (A : Type) :=
| Val (a : A)
| Exn (e : JsError).

Arguments Val {A} a.
Arguments Exn {A} e.

Definition M (A : Type) : Type := World -> Result A * World.

Definition ret {A} (a : A) : M A := fun w => (Val a, w).

Definition bind {A B} (m : M A) (k : A -> M B) : M B :=
  fun w =>
    match m w with
    | (Val a, w') => k a w'
    | (Exn e, w') => (Exn e, w')
    end.

Definition throw {A} (e : JsError) : M A := fun w => (Exn e, w).

(** [try { m } catch (err) { handler err }] *)
Definition try_catch {A} (m : M A) (handler : JsError -> M A) : M A :=
  fun w =>
    match m w with
    | (Val a, w') => (Val a, w')
    | (Exn e, w') => handler e w'
    end.

Definition now : M Z := fun w => (Val (clock w), w).

Notation "x <- m ;; k" := (bind m (fun x => k))
  (at level 61, m at next level, right associativity).
Notation "m ;;; k" := (bind m (fun _ => k))
  (at level 61, right associativity).

(** ** The database client

    A call resolves with [{ data, error, count }].  A query is built step
    by step ([from], [select], [eq], [order], [range], ...) and sent when
    it is awaited; the steps are functions on the reply the query would
    get, so that a handler composes them as the source does. *)

Record Reply (A : Type) := {
  data : option A;
  error : option JsError;
  count : option Z
}.

Arguments data {A} r.
Arguments error {A} r.
Arguments count {A} r.

Definition resolved {A} (a : A) : Reply A :=
  {| data := Some a; error := None; count := None |}.

Definition failed {A} (e : JsError) : Reply A :=
  {| data := None; error := Some e; count := None |}.

(** A query that reads: the reply it gets in a given state of the tables. *)
Definition Select (A : Type) : Type := World -> Reply (list A).

(** A call that may change the world. *)
Definition Call (A : Type) : Type := World -> Reply A * World.

Definition reading {A} (q : World -> Reply A) : Call A := fun w => (q w, w).

(** [await call]: the next outcome of the script decides whether the call
    is carried out. *)
Definition await {A} (call : Call A) : M (Reply A) :=
  fun w =>
    match script w with
    | [] => let (r, w') := call w in (Val r, w')
    | Succeeds :: rest => let (r, w') := call (set_script w rest) in (Val r, w')
    | Fails e :: rest => (Val (failed e), set_script w rest)
    | Rejects e :: rest => (Exn e, set_script w rest)
    end.

(** The error of a query on a relation that was never created. *)
Definition undefined_table : JsError :=
  {| code := Some (lit "42P01");
     message := Some (lit "relation " ++ [dquote] ++ lit "public.activities"
                        ++ [dquote] ++ lit " does not exist");
     http_status := 404 |}.

(** The error of [single()] when the result is not exactly one row. *)
Definition not_a_single_row : JsError :=
  {| code := Some (lit "PGRST116");
     message := Some (lit "JSON object requested, multiple (or no) rows returned");
     http_status := 406 |}.

(** The error of a window that starts before the first row or has a
    negative length. *)
Definition invalid_range : JsError :=
  {| code := Some (lit "PGRST103");
     message := Some (lit "Requested range not satisfiable");
     http_status := 416 |}.

(** The error of a filter expression the database cannot parse. *)
Definition invalid_filter : JsError :=
  {| code := Some (lit "PGRST100");
     message := Some (lit "failed to parse logic tree");
     http_status := 400 |}.

Definition from_users : Select User := fun w => resolved (users w).

Definition from_images : Select Image := fun w => resolved (images w).

Definition from_activities : Select Activity :=
  fun w => if activities_table w then resolved (activities w)
           else failed undefined_table.

(** A step that transforms the rows of a reply and keeps its error. *)
Definition on_rows {A B} (f : list A -> Reply (list B)) (q : Select A) : Select B :=
  fun w =>
    match data (q w), error (q w) with
    | Some rows, None => f rows
    | _, Some e => failed e
    | None, None => {| data := None; error := None; count := None |}
    end.

(** [.eq(column, value)] on a text column. *)
Definition eq_ {A} (column : A -> jsstring) (value : jsstring) : Select A -> Select A :=
  on_rows (fun rows => resolved (filter (fun r => jsstring_eqb (column r) value) rows)).

(** [.order(column, { ascending: false })]: the rows by decreasing value,
    rows of equal value in the order of the table. *)
Fixpoint insert_desc {A} (key : A -> Z) (r : A) (sorted : list A) : list A :=
  match sorted with
  | [] => [r]
  | x :: rest => if key x <? key r then r :: sorted
                 else x :: insert_desc key r rest
  end.

Definition sort_desc {A} (key : A -> Z) (rows : list A) : list A :=
  fold_right (insert_desc key) [] rows.

Definition order_desc {A} (column : A -> Z) : Select A -> Select A :=
  on_rows (fun rows => resolved (sort_desc column rows)).

(** [.range(from, to)]: [to - from + 1] rows after the first [from]. *)
Definition range {A} (from to : Z) : Select A -> Select A :=
  on_rows (fun rows =>
    if (0 <=? from) && (0 <=? to - from + 1)
    then resolved (firstn (Z.to_nat (to - from + 1)) (skipn (Z.to_nat from) rows))
    else failed invalid_range).

(** [.limit(n)] *)
Definition limit_ {A} (n : Z) : Select A -> Select A :=
  on_rows (fun rows => resolved (firstn (Z.to_nat n) rows)).

(** [.single()]: the row of a result of exactly one row, an error for any
    other result.  The client documents it so (the result must be one row,
    otherwise this returns an error): with no row or with several the
    reply is [{ data: null, error }], the error being the one of code
    PGRST116 that [logActivity] names; [maybeSingle()], which the program
    does not use, is the variant that resolves to [null] without an error
    when no row matches. *)
Definition single_row {A} (r : Reply (list A)) : Reply A :=
  match data r, error r with
  | Some [row], None => resolved row
  | Some _, None => failed not_a_single_row
  | _, Some e => failed e
  | None, None => {| data := None; error := None; count := None |}
  end.

Definition single {A} (q : Select A) : Call A :=
  fun w => (single_row (q w), w).

(** [.insert(row).select().single()] and the like: [single()] on a call
    that writes. *)
Definition single_of {A} (c : Call (list A)) : Call A :=
  fun w => let (r, w') := c w in (single_row r, w').

(** [.select('*', { count: 'exact', head: true })]: no rows, their number. *)
Definition count_exact_head {A} (q : Select A) : Call unit :=
  fun w =>
    (match data (q w), error (q w) with
     | Some rows, None =>
       {| data := None; error := None; count := Some (Z.of_nat (List.length rows)) |}
     | _, Some e => failed e
     | None, None => {| data := None; error := None; count := None |}
     end, w).

(** The embedded resource [images (id, prompt, image_url)] of an activity:
    the image its [image_id] names, when there is one. *)
Definition embedded (imgs : list Image) (a : Activity) : Activity * option Image :=
  (a, match act_image_id a with
      | Some i => find (fun img => jsstring_eqb (img_id img) i) imgs
      | None => None
      end).

Definition embed_images (q : Select Activity) : Select (Activity * option Image) :=
  fun w => on_rows (fun rows => resolved (map (embedded (images w)) rows)) q w.

(** The reply of a write that asks for no rows back. *)
Definition done : Reply unit := {| data := None; error := None; count := None |}.

(** [.delete().eq('id', imageId).eq('user_id', userId)] on [images]. *)
Definition delete_images_eq_id_eq_user_id (imageId userId : jsstring) : Call unit :=
  fun w =>
    (done,
     set_images w
       (filter (fun img => negb (jsstring_eqb (img_id img) imageId
                                 && jsstring_eqb (img_user_id img) userId))
               (images w))).

(** [storage.from('images').remove([path])] *)
Definition storage_remove (path : jsstring) : Call unit :=
  fun w =>
    (done,
     set_bucket_images w
       (filter (fun o => negb (jsstring_eqb (fst o) path)) (bucket_images w))).

(** The error of an upload onto a path that is taken, with [upsert: false]. *)
Definition already_exists : JsError :=
  {| code := Some (lit "Duplicate");
     message := Some (lit "The resource already exists");
     http_status := 409 |}.

(** [storage.from('images').upload(path, buffer, { upsert: false })] *)
Definition storage_upload (path : jsstring) (buffer : list Z) : Call unit :=
  fun w =>
    if existsb (fun o => jsstring_eqb (fst o) path) (bucket_images w)
    then (failed already_exists, w)
    else (done, set_bucket_images w (bucket_images w ++ [(path, buffer)])).

Definition falsy (v : option jsstring) : bool := negb (truthy v).

(** The string a value holds once it is known to be one. *)
Definition str (v : option jsstring) : jsstring :=
  match v with
  | Some s => s
  | None => []
  end.

(** A query parameter with its default: [const { page = 1 } = req.query]. *)
Definition or_default {A} (d : A) (v : option A) : A :=
  match v with
  | Some a => a
  | None => d
  end.

(** ** Numbers

    A JavaScript number is a double.  The numbers of the listings come from
    integers: the numeral of a query parameter, a count of rows.  A double
    holds an integer below [2^53] as it is; a greater one is rounded to 53
    significant bits, ties to even, and one that rounds to [2^1024] or more
    is an infinity. *)

(** The double nearest to a non-negative integer; [None] is the overflow. *)
Definition nearest_double (z : Z) : option Z :=
  if z <? 2 ^ 53 then Some z
  else
    let e := Z.log2 z - 52 in
    let m0 := z / 2 ^ e in
    let rem := z mod 2 ^ e in
    let m := if (2 ^ e <? 2 * rem) || ((2 * rem =? 2 ^ e) && Z.odd m0)
             then m0 + 1 else m0 in
    if m * 2 ^ e <? 2 ^ 1024 then Some (m * 2 ^ e) else None.

(** A number that came from an integer: a double of integer value, or an
    infinity. *)
Inductive JsNumber :=
| Finite (z : Z)
| Infinite (negative : bool).

(** The number of the decimal numeral of an integer: what [page - 1] and
    [count / limit] make of the string, and what a count of rows is. *)
Definition ToNumber (z : Z) : JsNumber :=
  match nearest_double (Z.abs z) with
  | Some d => Finite (Z.sgn z * d)
  | None => Infinite (z <? 0)
  end.

(** [parseInt(s)] on the decimal numeral of an integer. *)
Definition parseInt (z : Z) : JsNumber := ToNumber z.

(** A number as [res.json] prints it: an infinity is printed [null]. *)
Definition json_of_number (n : JsNumber) : Json :=
  match n with
  | Finite z => JNum z
  | Infinite _ => JNull
  end.

(** The exponent [p] with [2^p <= x / y < 2^(p+1)], for positive [x], [y]. *)
Definition ratio_log2 (x y : Z) : Z :=
  let p := Z.log2 x - Z.log2 y in
  if (if 0 <=? p then x <? y * 2 ^ p else x * 2 ^ (- p) <? y) then p - 1 else p.

(** [x / y] on doubles of positive integer value: the double nearest to the
    quotient, ties to even, as a pair [(m, e)] that stands for [m * 2^e];
    below [2^-1022] the doubles are [2^-1074] apart. *)
Definition nearest_quotient (x y : Z) : Z * Z :=
  let e := Z.max (ratio_log2 x y - 52) (-1074) in
  let num := if 0 <=? e then x else x * 2 ^ (- e) in
  let den := if 0 <=? e then y * 2 ^ e else y in
  let m0 := num / den in
  let rem := num mod den in
  let m := if (den <? 2 * rem) || ((2 * rem =? den) && Z.odd m0) then m0 + 1 else m0 in
  (m, e).

(** [Math.ceil] and [Math.floor] of [m * 2^e]. *)
Definition ceil_dyadic (me : Z * Z) : Z :=
  let (m, e) := me in
  if 0 <=? e then m * 2 ^ e else - ((- m) / 2 ^ (- e)).

Definition floor_dyadic (me : Z * Z) : Z :=
  let (m, e) := me in
  if 0 <=? e then m * 2 ^ e else m / 2 ^ (- e).

(** [Math.ceil(x / y)] on doubles of integer value, [y] not zero; a zero
    result of either sign is printed [0]. *)
Definition ceil_quotient (x y : Z) : Z :=
  if x =? 0 then 0
  else if 0 <? Z.sgn x * Z.sgn y
  then ceil_dyadic (nearest_quotient (Z.abs x) (Z.abs y))
  else - floor_dyadic (nearest_quotient (Z.abs x) (Z.abs y)).

(** [Math.ceil(a / b)], for a count [a] and the numeral [b] of a query
    parameter; [None] is [NaN] or an infinity: the quotient by zero, and the
    quotient of an infinity.  The quotient by an infinity is zero. *)
Definition Math_ceil_div (a b : Z) : option Z :=
  match ToNumber a, ToNumber b with
  | Finite x, Finite y => if y =? 0 then None else Some (ceil_quotient x y)
  | Finite _, Infinite _ => Some 0
  | Infinite _, _ => None
  end.

(** [count || 0], and the number [count / limit] makes of a [null] count. *)
Definition or_zero (c : option Z) : Z := or_default 0 c.

(** The console is outside the model: a line printed changes nothing. *)
Definition console (line : jsstring) : M unit := ret tt.

Section Server.

Variable svc : Services.

(** [.or(`full_name.ilike.%${search}%,email.ilike.%${search}%`)] *)
Definition or_ (search : jsstring) : Select User -> Select User :=
  on_rows (fun rows =>
    match or_ilike svc search with
    | Some matches => resolved (filter matches rows)
    | None => failed invalid_filter
    end).

(** [.insert({ full_name, email, hashed_password })] on [users], returning
    the new row. *)
Definition insert_users (full_name email hashed_password : jsstring) : Call (list User) :=
  fun w =>
    let row := {| u_id := gen_random_uuid svc (next_serial w);
                  u_full_name := full_name; u_email := email;
                  u_hashed_password := hashed_password;
                  u_bio := None; u_avatar_url := None;
                  u_created_at := clock w; u_updated_at := None |} in
    (resolved [row],
     set_next_serial (set_users w (users w ++ [row])) (next_serial w + 1)).

(** [.insert({ user_id, prompt, image_url, file_path })] on [images]. *)
Definition insert_images (user_id prompt image_url file_path : jsstring) : Call (list Image) :=
  fun w =>
    let row := {| img_id := gen_random_uuid svc (next_serial w);
                  img_user_id := user_id; img_prompt := prompt;
                  img_image_url := image_url; img_file_path := file_path;
                  img_created_at := clock w |} in
    (resolved [row],
     set_next_serial (set_images w (images w ++ [row])) (next_serial w + 1)).

(** [.insert({ user_id, action, image_id, timestamp, additional_data })]
    on [activities]. *)
Definition insert_activities (user_id action : jsstring) (image_id : option jsstring)
  (timestamp : Z) (additional_data : Json) : Call unit :=
  fun w =>
    if activities_table w then
      let row := {| act_id := gen_random_uuid svc (next_serial w);
                    act_user_id := user_id; act_action := action;
                    act_image_id := image_id; act_timestamp := timestamp;
                    act_additional_data := additional_data |} in
      (done,
       set_next_serial (set_activities w (activities w ++ [row])) (next_serial w + 1))
    else (failed undefined_table, w).

(** [fetch(`${COLAB_API_URL}/generate`, ...)] and the body of its
    response; a reply with an error is a response that is not [ok]. *)
Definition fetch_generate (prompt : jsstring) : Call (list Z) :=
  fun w => (resolved (generate svc prompt), w).

(** ** Registration: [POST /api/auth/register] *)

Definition register (fullName email password : option jsstring) : M Response :=
  if falsy email || falsy password || falsy fullName then
    ret (respond 400
      [("error", JStr (lit "Vui lòng cung cấp đầy đủ họ tên, email và mật khẩu."))])
  else
    let fullName := str fullName in
    let email := str email in
    let password := str password in
    let passwordValidation := validatePassword password in
    if negb (isValid passwordValidation) then
      let errorMessages := errorMessages (errors passwordValidation) in
      ret (respond 400
        [("error", JStr (lit "Mật khẩu không đáp ứng yêu cầu bảo mật"));
         ("details", JArr (map JStr errorMessages))])
    else
      try_catch
        (existing <- await (single (eq_ u_email email from_users)) ;;
         match data existing with
         | Some existingUser =>
           ret (respond 400 [("error", JStr (lit "Email đã tồn tại trong hệ thống."))])
         | None =>
           let hashedPassword := bcrypt_hash svc password 12 in
           inserted <- await (single_of (insert_users fullName email hashedPassword)) ;;
           match error inserted with
           | Some error => throw error
           | None =>
             ret (respond 201
               [("message", JStr (lit "Tài khoản đã được tạo thành công!"));
                ("user", json_of_option (fun newUser =>
                   JObj [("id", JStr (u_id newUser));
                         ("email", JStr (u_email newUser));
                         ("full_name", JStr (u_full_name newUser))])
                   (data inserted))])
           end
         end)
        (fun err =>
           ret (respond 500
             [("error", JStr (lit "Lỗi hệ thống trong quá trình đăng ký."))])).

(** ** Login: [POST /api/auth/login] *)

Definition login (email password : option jsstring) : M Response :=
  if falsy email || falsy password then
    ret (respond 400 [("error", JStr (lit "Email and password are required."))])
  else
    let email := str email in
    let password := str password in
    try_catch
      (found <- await (single (eq_ u_email email from_users)) ;;
       match error found, data found with
       | Some _, _ | None, None =>
         ret (respond 401 [("error", JStr (lit "Invalid credentials."))])
       | None, Some user =>
         let isMatch := bcrypt_compare svc password (u_hashed_password user) in
         if negb isMatch then
           ret (respond 401 [("error", JStr (lit "Invalid credentials."))])
         else
           t <- now ;;
           let token :=
             jwt_sign svc {| userId := u_id user; email := u_email user; role := None |}
                      (t / 1000) 86400 in
           ret (respond 200
             [("token", JStr token);
              ("user", JObj [("id", JStr (u_id user));
                             ("fullName", JStr (u_full_name user));
                             ("email", JStr (u_email user));
                             ("avatarUrl", json_of_option JStr (u_avatar_url user))])])
       end)
      (fun err =>
         ret (respond 500 [("error", JStr (lit "Server error during login."))])).

(** ** The gates: [protect] and [adminProtect]

    [next] is the handler the route names after the gate; a gate that lets
    the request through sets [req.user] and calls it.  The handlers are
    async functions: a failure inside one rejects its own promise and never
    reaches the gate's [catch]. *)

Definition protect (authHeader : option jsstring) (next : Claims -> M Response) : M Response :=
  if falsy authHeader || negb (startsWith (str authHeader) (lit "Bearer ")) then
    ret (respond 401 [("error", JStr (lit "Not authenticated, no token provided."))])
  else
    let token := nth_error (split_space (str authHeader)) 1 in
    t <- now ;;
    match match token with
          | Some token => jwt_verify svc token (t / 1000)
          | None => None
          end with
    | Some decoded => next decoded
    | None =>
      ret (respond 401 [("error", JStr (lit "Not authenticated, token is invalid."))])
    end.

Definition adminProtect (authHeader : option jsstring) (next : Claims -> M Response) : M Response :=
  if falsy authHeader || negb (startsWith (str authHeader) (lit "Bearer ")) then
    ret (respond 401 [("error", JStr (lit "Not authenticated, no token provided."))])
  else
    let token := nth_error (split_space (str authHeader)) 1 in
    t <- now ;;
    match match token with
          | Some token => jwt_verify svc token (t / 1000)
          | None => None
          end with
    | Some decoded =>
      if negb (jsstring_eqb (email decoded) (lit "admin@dreamina.com"))
         && negb (match role decoded with
                  | Some r => jsstring_eqb r (lit "admin")
                  | None => false
                  end)
      then ret (respond 403
             [("error", JStr (lit "Access denied. Admin privileges required."))])
      else next decoded
    | None => ret (respond 401 [("error", JStr (lit "Invalid admin token."))])
    end.

(** ** The user listing: [GET /api/admin/users]

    A query parameter is absent or the decimal numeral of an integer.  The
    [pagination] of the answer follows the numbers of the engine: the
    numeral as a double, the quotient rounded, an infinity printed [null].
    The window is computed on the integers that the numerals denote, which
    is what the engine does as long as they are below [2^53]; past that the
    window of the model is still the one of the integers, and what is
    proved of the [pagination] does not depend on the rows of the window. *)

Definition user_listing_json (u : User) : Json :=
  JObj [("id", JStr (u_id u));
        ("full_name", JStr (u_full_name u));
        ("email", JStr (u_email u));
        ("bio", json_of_option JStr (u_bio u));
        ("avatar_url", json_of_option JStr (u_avatar_url u));
        ("created_at", JNum (u_created_at u));
        ("updated_at", json_of_option JNum (u_updated_at u))].

Definition getAdminUsers (page limit : option Z) (search : option jsstring) : M Response :=
  let page := or_default 1 page in
  let limit := or_default 10 limit in
  let search := or_default [] search in
  let offset := (page - 1) * limit in
  try_catch
    (let query := order_desc u_created_at from_users in
     let query := if truthy (Some search) then or_ search query else query in
     let query := range offset (offset + limit - 1) query in
     listed <- await (reading query) ;;
     match error listed with
     | Some error => throw error
     | None =>
       counted <- await (count_exact_head from_users) ;;
       let totalUsers := count counted in
       match data listed with
       | None => throw TypeError
       | Some users =>
         ret (respond 200
           [("success", JBool true);
            ("users", JArr (map user_listing_json users));
            ("pagination", JObj
               [("currentPage", json_of_number (parseInt page));
                ("totalPages",
                 json_of_option JNum (Math_ceil_div (or_zero totalUsers) limit));
                ("totalUsers", json_of_option JNum totalUsers);
                ("limit", json_of_number (parseInt limit))])])
       end
     end)
    (fun error =>
       ret (respond 500
         (field "error" (JStr (lit "Failed to fetch users"))
          ++ field_opt "details" (option_map JStr (message error))))).

(** ** The activity logger: [logActivity] *)

Definition logActivity (userId action : jsstring) (imageId : option jsstring)
  (additionalData : Json) : M unit :=
  try_catch
    (timestamp <- now ;;
     inserted <- await (insert_activities userId action imageId timestamp additionalData) ;;
     match error inserted with
     | Some error =>
       console (lit "Error logging activity:") ;;;
       if match code error with
          | Some c => jsstring_eqb c (lit "PGRST116")
          | None => false
          end
       then
         console (lit "Activities table does not exist.")
       else
         match message error with
         | None => throw TypeError
         | Some m =>
           if includes m (lit "relation " ++ [dquote] ++ lit "activities" ++ [dquote]
                          ++ lit " does not exist")
           then console (lit "Activities table does not exist.")
           else ret tt
         end
     | None => console (lit "Activity logged")
     end)
    (fun err =>
       console (lit "Error in logActivity function:") ;;;
       if truthy (message err) && includes (str (message err)) (lit "activities")
       then console (lit "Activities table may not exist.")
       else ret tt).

(** ** Image generation: [POST /api/generate-image]

    The handler from the test of the prompt on, for a prompt that is a
    string or is absent.  The line that logs the request before that test,
    and what it does to a prompt of another type, is in
    [postGenerateImage]. *)

Definition generateImage (user : Claims) (prompt : option jsstring) : M Response :=
  let userId := userId user in
  if falsy prompt then
    ret (respond 400 [("error", JStr (lit "Prompt is required"))])
  else
    let prompt := str prompt in
    try_catch
      (response <- await (fetch_generate prompt) ;;
       match error response, data response with
       | Some e, _ =>
         throw (Error (lit "Colab API error: " ++ decimal (http_status e)))
       | None, None => throw TypeError
       | None, Some imageBuffer =>
         t <- now ;;
         let fileName := userId ++ lit "_" ++ decimal t ++ lit "_generated.png" in
         let filePath := lit "generated/" ++ fileName in
         uploaded <- await (storage_upload filePath imageBuffer) ;;
         match error uploaded with
         | Some uploadError => throw uploadError
         | None =>
           let imageUrl := getPublicUrl svc filePath in
           saved <- await (single_of (insert_images userId prompt imageUrl filePath)) ;;
           match error saved, data saved with
           | Some dbError, _ => throw dbError
           | None, None => throw TypeError
           | None, Some imageRecord =>
             logActivity userId (lit "generate") (Some (img_id imageRecord))
               (JObj [("prompt", JStr (substring0 prompt 100))]) ;;;
             ret (respond 200
               [("success", JBool true);
                ("imageUrl", JStr imageUrl);
                ("imageId", JStr (img_id imageRecord));
                ("message", JStr (lit "Image generated successfully"))])
           end
         end
       end)
      (fun error =>
         ret (respond 500
           (field "error" (JStr (lit "Failed to generate image"))
            ++ field_opt "details" (option_map JStr (message error))))).

(** ** Image deletion: [DELETE /api/images/:imageId] *)

Definition deleteImage (user : Claims) (imageId : jsstring) : M Response :=
  let userId := userId user in
  try_catch
    (fetched <- await (single (eq_ img_user_id userId (eq_ img_id imageId from_images))) ;;
     match error fetched, data fetched with
     | Some fetchError, _ => throw fetchError
     | None, None =>
       ret (respond 404
         [("success", JBool false);
          ("error", JStr (lit "Hình ảnh không tồn tại hoặc không thuộc về bạn."))])
     | None, Some image =>
       (if truthy (Some (img_file_path image))
        then removed <- await (storage_remove (img_file_path image)) ;; ret tt
        else ret tt) ;;;
       deleted <- await (delete_images_eq_id_eq_user_id imageId userId) ;;
       match error deleted with
       | Some deleteError => throw deleteError
       | None =>
         logActivity userId (lit "delete") (Some imageId)
           (JObj [("imageUrl", JStr (img_image_url image))]) ;;;
         ret (respond 200
           [("success", JBool true);
            ("message", JStr (lit "Hình ảnh đã được xóa thành công!"))])
       end
     end)
    (fun err =>
       ret (respond 500
         (field "success" (JBool false)
          ++ field "error" (JStr (lit "Lỗi hệ thống trong quá trình xóa hình ảnh."))
          ++ field_opt "details" (option_map JStr (message err))))).

(** ** The activity listing: [GET /api/activities] *)

Definition activity_listing_json (row : Activity * option Image) : Json :=
  let (a, img) := row in
  JObj [("id", JStr (act_id a));
        ("action", JStr (act_action a));
        ("image_id", json_of_option JStr (act_image_id a));
        ("timestamp", JNum (act_timestamp a));
        ("additional_data", act_additional_data a);
        ("images", json_of_option (fun i =>
           JObj [("id", JStr (img_id i));
                 ("prompt", JStr (img_prompt i));
                 ("image_url", JStr (img_image_url i))]) img)].

Definition getActivities (user : Claims) (page limit : option Z)
  (action : option jsstring) : M Response :=
  let userId := userId user in
  let page := or_default 1 page in
  let limit := or_default 20 limit in
  let action := or_default [] action in
  let offset := (page - 1) * limit in
  try_catch
    (tested <- await (reading (limit_ 1 from_activities)) ;;
     match error tested with
     | Some testError =>
       ret (respond 500
         [("error", JStr (lit "Activities table not found"));
          ("details", JStr (lit "Please create the activities table first by running the SQL script in create_activity_table.sql"));
          ("suggestion", JStr (lit "Go to Supabase SQL Editor and run the create_activity_table.sql script"))])
     | None =>
       let query :=
         order_desc (fun row => act_timestamp (fst row))
           (eq_ (fun row => act_user_id (fst row)) userId
              (embed_images from_activities)) in
       let query :=
         if truthy (Some action)
         then eq_ (fun row => act_action (fst row)) action query
         else query in
       let query := range offset (offset + limit - 1) query in
       listed <- await (reading query) ;;
       match error listed with
       | Some error => throw error
       | None =>
         let countQuery := eq_ act_user_id userId from_activities in
         let countQuery :=
           if truthy (Some action) then eq_ act_action action countQuery
           else countQuery in
         counted <- await (count_exact_head countQuery) ;;
         let totalActivities := count counted in
         ret (respond 200
           [("success", JBool true);
            ("activities", JArr (map activity_listing_json (or_default [] (data listed))));
            ("pagination", JObj
               [("currentPage", json_of_number (parseInt page));
                ("totalPages",
                 json_of_option JNum (Math_ceil_div (or_zero totalActivities) limit));
                ("totalActivities", JNum (or_zero totalActivities));
                ("limit", json_of_number (parseInt limit))])])
       end
     end)
    (fun error =>
       ret (respond 500
         (field "error" (JStr (lit "Failed to fetch activities"))
          ++ field_opt "details" (option_map JStr (message error))
          ++ field "suggestion" (JStr (lit "Make sure the activities table exists in your Supabase database"))))).

(** ** The logging endpoint: [POST /api/activities/log] *)

Definition postActivitiesLog (user : Claims) (action imageId : option jsstring)
  (additionalData : option Json) : M Response :=
  let userId := userId user in
  let additionalData := or_default (JObj []) additionalData in
  if falsy action then
    ret (respond 400 [("error", JStr (lit "Action is required"))])
  else
    try_catch
      (logActivity userId (str action) imageId additionalData ;;;
       ret (respond 200
         [("success", JBool true);
          ("message", JStr (lit "Activity logged successfully"))]))
      (fun error =>
         ret (respond 500
           (field "error" (JStr (lit "Failed to log activity"))
            ++ field_opt "details" (option_map JStr (message error))))).

End Server.

(** ** The other routes

    The handlers of [server.js] that the sections above leave out, but for
    [PATCH /api/profile], whose uploads go to a second bucket, and the
    diagnostic [GET /api/test-activities]. *)

(** A row of [users] as [select('*')] returns it. *)
Definition user_row_json (u : User) : list (string * Json) :=
  [("id", JStr (u_id u));
   ("full_name", JStr (u_full_name u));
   ("email", JStr (u_email u));
   ("hashed_password", JStr (u_hashed_password u));
   ("bio", json_of_option JStr (u_bio u));
   ("avatar_url", json_of_option JStr (u_avatar_url u));
   ("created_at", JNum (u_created_at u));
   ("updated_at", json_of_option JNum (u_updated_at u))].

(** A row of [images] as [select('*')] returns it. *)
Definition image_row_json (i : Image) : Json :=
  JObj [("id", JStr (img_id i));
        ("user_id", JStr (img_user_id i));
        ("prompt", JStr (img_prompt i));
        ("image_url", JStr (img_image_url i));
        ("file_path", JStr (img_file_path i));
        ("created_at", JNum (img_created_at i))].

(** [{ ...obj, key: undefined }] once serialised: the key is left out. *)
Definition set_undefined (k : string) (fields : list (string * Json)) : list (string * Json) :=
  filter (fun kv => negb (String.eqb k (fst kv))) fields.

(** [.gte(column, value)] on a time column. *)
Definition gte {A} (column : A -> Z) (value : Z) : Select A -> Select A :=
  on_rows (fun rows => resolved (filter (fun r => value <=? column r) rows)).

(** [.delete().eq('user_id', userId)] on [images]. *)
Definition delete_images_eq_user_id (userId : jsstring) : Call unit :=
  fun w =>
    (done,
     set_images w
       (filter (fun img => negb (jsstring_eqb (img_user_id img) userId)) (images w))).

(** [.delete().eq('id', userId)] on [users]. *)
Definition delete_users_eq_id (userId : jsstring) : Call unit :=
  fun w =>
    (done,
     set_users w (filter (fun u => negb (jsstring_eqb (u_id u) userId)) (users w))).

(** [storage.from('images').remove(filePaths)] *)
Definition storage_remove_paths (filePaths : list jsstring) : Call unit :=
  fun w =>
    (done,
     set_bucket_images w
       (filter (fun o => negb (existsb (jsstring_eqb (fst o)) filePaths))
               (bucket_images w))).

(** [.update({ hashed_password, updated_at }).eq('id', userId)] on [users]. *)
Definition update_users_password_eq_id (hashed_password : jsstring) (updated_at : Z)
  (userId : jsstring) : Call unit :=
  fun w =>
    (done,
     set_users w
       (map (fun u =>
               if jsstring_eqb (u_id u) userId
               then {| u_id := u_id u; u_full_name := u_full_name u;
                       u_email := u_email u;
                       u_hashed_password := hashed_password;
                       u_bio := u_bio u; u_avatar_url := u_avatar_url u;
                       u_created_at := u_created_at u;
                       u_updated_at := Some updated_at |}
               else u)
            (users w))).

(** *** [GET /api/admin/stats]

    [thirtyDaysAgo] is the instant that [setDate(getDate() - 30)] reaches
    from a given one, in the time zone of the server. *)
Definition getAdminStats (thirtyDaysAgo : Z -> Z) : M Response :=
  try_catch
    (allUsers <- await (count_exact_head from_users) ;;
     let totalUsers := count allUsers in
     allImages <- await (count_exact_head from_images) ;;
     let totalImages := count allImages in
     t <- now ;;
     let cutoff := thirtyDaysAgo t in
     recentUsers <- await (count_exact_head (gte u_created_at cutoff from_users)) ;;
     let newUsers := count recentUsers in
     lastImages <- await (count_exact_head (gte img_created_at cutoff from_images)) ;;
     let recentImages := count lastImages in
     ret (respond 200
       [("success", JBool true);
        ("stats", JObj
           [("totalUsers", JNum (or_zero totalUsers));
            ("totalImages", JNum (or_zero totalImages));
            ("newUsers", JNum (or_zero newUsers));
            ("recentImages", JNum (or_zero recentImages))])]))
    (fun error =>
       ret (respond 500
         (field "error" (JStr (lit "Failed to fetch stats"))
          ++ field_opt "details" (option_map JStr (message error))))).

(** *** [GET /api/admin/users/:userId] *)
Definition getAdminUser (userId : jsstring) : M Response :=
  try_catch
    (found <- await (single (eq_ u_id userId from_users)) ;;
     match error found, data found with
     | Some userError, _ => throw userError
     | None, None => ret (respond 404 [("error", JStr (lit "User not found"))])
     | None, Some user =>
       listed <- await (reading (order_desc img_created_at
                                   (eq_ img_user_id userId from_images))) ;;
       match error listed with
       | Some imagesError => throw imagesError
       | None =>
         ret (respond 200
           [("success", JBool true);
            ("user", JObj (set_undefined "hashed_password" (user_row_json user)));
            ("images", JArr (map image_row_json (or_default [] (data listed))))])
       end
     end)
    (fun error =>
       ret (respond 500
         (field "error" (JStr (lit "Failed to fetch user details"))
          ++ field_opt "details" (option_map JStr (message error))))).

(** *** [DELETE /api/admin/users/:userId] *)
Definition deleteAdminUser (userId : jsstring) : M Response :=
  try_catch
    (found <- await (reading (eq_ img_user_id userId from_images)) ;;
     (match error found, data found with
      | None, Some (image :: more) =>
        let userImages := image :: more in
        let filePaths := map img_file_path userImages in
        removed <- await (storage_remove_paths filePaths) ;;
        deleted <- await (delete_images_eq_user_id userId) ;;
        ret tt
      | _, _ => ret tt
      end) ;;;
     deletedUser <- await (delete_users_eq_id userId) ;;
     match error deletedUser with
     | Some deleteUserError => throw deleteUserError
     | None =>
       ret (respond 200
         [("success", JBool true);
          ("message", JStr (lit "User and all associated data deleted successfully"))])
     end)
    (fun error =>
       ret (respond 500
         (field "error" (JStr (lit "Failed to delete user"))
          ++ field_opt "details" (option_map JStr (message error))))).

(** *** [GET /api/my-creations]: [res.json(data)] sends the array itself. *)
Definition getMyCreations (user : Claims) : M Response :=
  let userId := userId user in
  try_catch
    (listed <- await (reading (order_desc img_created_at
                                 (eq_ img_user_id userId from_images))) ;;
     match error listed with
     | Some error => throw error
     | None =>
       ret {| status := 200;
              body := json_of_option (fun rows => JArr (map image_row_json rows))
                        (data listed) |}
     end)
    (fun err =>
       ret (respond 500 [("error", JStr (lit "Failed to fetch creations."))])).

(** *** [GET /api/profile] *)
Definition profile_json (u : User) : Json :=
  JObj [("id", JStr (u_id u));
        ("full_name", JStr (u_full_name u));
        ("email", JStr (u_email u));
        ("bio", json_of_option JStr (u_bio u));
        ("avatar_url", json_of_option JStr (u_avatar_url u));
        ("created_at", JNum (u_created_at u))].

Definition getProfile (user : Claims) : M Response :=
  let userId := userId user in
  try_catch
    (found <- await (single (eq_ u_id userId from_users)) ;;
     match error found with
     | Some error => throw error
     | None =>
       ret {| status := 200; body := json_of_option profile_json (data found) |}
     end)
    (fun err =>
       ret (respond 500 [("error", JStr (lit "Failed to fetch profile."))])).

(** *** [PATCH /api/change-password] *)
Definition changePassword (svc : Services) (user : Claims)
  (currentPassword newPassword : option jsstring) : M Response :=
  let userId := userId user in
  if falsy currentPassword || falsy newPassword then
    ret (respond 400
      [("error", JStr (lit "Vui lòng cung cấp mật khẩu hiện tại và mật khẩu mới."))])
  else
    let currentPassword := str currentPassword in
    let newPassword := str newPassword in
    let passwordValidation := validatePassword newPassword in
    if negb (isValid passwordValidation) then
      let errorMessages := errorMessages (errors passwordValidation) in
      ret (respond 400
        [("error", JStr (lit "Mật khẩu mới không đáp ứng yêu cầu bảo mật"));
         ("details", JArr (map JStr errorMessages))])
    else
      try_catch
        (found <- await (single (eq_ u_id userId from_users)) ;;
         match error found, data found with
         | Some userError, _ => throw userError
         | None, None =>
           ret (respond 404 [("error", JStr (lit "Không tìm thấy người dùng."))])
         | None, Some user =>
           let isCurrentPasswordValid :=
             bcrypt_compare svc currentPassword (u_hashed_password user) in
           if negb isCurrentPasswordValid then
             ret (respond 400 [("error", JStr (lit "Mật khẩu hiện tại không đúng."))])
           else
             let hashedNewPassword := bcrypt_hash svc newPassword 12 in
             t <- now ;;
             updated <- await (update_users_password_eq_id hashedNewPassword t userId) ;;
             match error updated with
             | Some updateError => throw updateError
             | None =>
               ret (respond 200
                 [("success", JBool true);
                  ("message", JStr (lit "Mật khẩu đã được thay đổi thành công!"))])
             end
         end)
        (fun err =>
           ret (respond 500
             (field "error" (JStr (lit "Lỗi hệ thống trong quá trình đổi mật khẩu."))
              ++ field_opt "details" (option_map JStr (message err))))).

(** *** [POST /api/generate-image], from the body

    [req.body.prompt] is whatever the JSON of the request holds.  Before it
    tests the prompt, and outside its [try], the handler logs
    [prompt?.substring(0, 100)].  The optional chaining stops at [undefined]
    and [null] only: for a number, a boolean, an array or an object the call
    of a method that is not there throws, the promise of the handler is
    rejected and no answer is sent.  For a string the line is printed, and
    [generateImage] is the rest of the handler. *)
Definition not_a_function : JsError :=
  Error (lit "prompt?.substring is not a function").

Definition postGenerateImage (svc : Services) (user : Claims)
  (prompt : option Json) : M Response :=
  match prompt with
  | None | Some JNull =>
    console (lit "undefined...") ;;; generateImage svc user None
  | Some (JStr s) =>
    console (substring0 s 100 ++ lit "...") ;;; generateImage svc user (Some s)
  | Some _ => throw not_a_function
  end.

(** ** Sample collaborators and worlds

    Small concrete instances, used to run the handlers on examples. *)

Definition sample_services : Services :=
  {| bcrypt_hash := fun password rounds => lit "$2b$" ++ decimal rounds ++ lit "$" ++ password;
     bcrypt_compare := fun password hash => jsstring_eqb hash (lit "$2b$12$" ++ password);
     jwt_sign := fun payload t expiresIn => lit "tok-" ++ userId payload;
     jwt_verify := fun token t =>
       if startsWith token (lit "tok-")
       then Some {| userId := skipn 4 token; email := lit "user@example.com"; role := None |}
       else None;
     gen_random_uuid := fun n => lit "id-" ++ decimal n;
     or_ilike := fun search =>
       Some (fun u => includes (u_full_name u) search || includes (u_email u) search);
     generate := fun prompt => [137; 80; 78; 71];
     getPublicUrl := fun path => lit "https://storage.example/images/" ++ path |}.

Definition sample_user (id name mail password : string) (created : Z) : User :=
  {| u_id := lit id; u_full_name := lit name; u_email := lit mail;
     u_hashed_password := lit "$2b$12$" ++ lit password;
     u_bio := None; u_avatar_url := None;
     u_created_at := created; u_updated_at := None |}.

Definition sample_image (id owner path : string) (created : Z) : Image :=
  {| img_id := lit id; img_user_id := lit owner; img_prompt := lit "a red fox";
     img_image_url := lit "https://storage.example/images/" ++ lit path;
     img_file_path := lit path; img_created_at := created |}.

Definition sample_activity (id owner action : string) (image : option string) (t : Z) : Activity :=
  {| act_id := lit id; act_user_id := lit owner; act_action := lit action;
     act_image_id := option_map lit image; act_timestamp := t;
     act_additional_data := JObj [] |}.

Definition sample_world : World :=
  {| users := [sample_user "u1" "Alice" "alice@example.com" "Secret!Pass" 100;
               sample_user "u2" "Bob" "bob@example.com" "Hunter2!X" 200;
               sample_user "u3" "Carol" "carol@example.com" "Pa$$word1" 300];
     images := [sample_image "i1" "u1" "generated/u1_1_generated.png" 110;
                sample_image "i2" "u2" "generated/u2_2_generated.png" 210];
     activities := [sample_activity "a1" "u1" "generate" (Some "i1") 111;
                    sample_activity "a2" "u2" "generate" (Some "i2") 211;
                    sample_activity "a3" "u1" "download" (Some "i1") 120];
     activities_table := true;
     bucket_images := [(lit "generated/u1_1_generated.png", [137; 80; 78; 71]);
                       (lit "generated/u2_2_generated.png", [137; 80; 78; 71])];
     clock := 1730000000000;
     next_serial := 10;
     script := [] |}.

Definition sample_claims (id : string) : Claims :=
  {| userId := lit id; email := lit "user@example.com"; role := None |}.

(** The response of a run, when it ends with one. *)
Definition answer_of (run : Result Response * World) : Response :=
  match fst run with
  | Val r => r
  | Exn _ => respond 0 []
  end.

Definition world_without_users : World := set_users sample_world [].

(** Every call is carried out, the insert of the logger among them. *)
Definition world_logging_up : World :=
  set_script sample_world [Succeeds; Succeeds; Succeeds; Succeeds].

(** The [activities] table was never created, and the fourth call ends in
    a rejected promise. *)
Definition world_logging_down : World :=
  {| users := users sample_world; images := images sample_world;
     activities := []; activities_table := false;
     bucket_images := bucket_images sample_world;
     clock := clock sample_world; next_serial := next_serial sample_world;
     script := [Succeeds; Succeeds; Succeeds;
                Rejects (Error (lit "connection reset"))] |}.

Definition dan_registers : Result Response * World :=
  register sample_services (Some (lit "Dan")) (Some (lit "dan@example.com"))
    (Some (lit "Abcdefg!")) sample_world.

Definition search_for_alice : Result Response * World :=
  getAdminUsers sample_services (Some 1) (Some 2) (Some (lit "alice")) sample_world.

(** The sample world without the activity rows of users other than u1. *)
Definition world_of_u1_alone : World :=
  set_activities sample_world
    [sample_activity "a1" "u1" "generate" (Some "i1") 111;
     sample_activity "a3" "u1" "download" (Some "i1") 120].

(** ** The vocabulary of the properties *)

Arguments lit : simpl never.
Arguments jsstring_eqb : simpl never.
Arguments decimal : simpl never.

(** Whether the next call to a collaborator ends in a rejected promise. *)
Definition rejects_next (w : World) : bool :=
  match script w with
  | Rejects _ :: _ => true
  | _ => false
  end.

(** Whether the next call is carried out. *)
Definition carried_out_next (w : World) : bool :=
  match script w with
  | [] | Succeeds :: _ => true
  | _ => false
  end.

(** The rows a lookup by email finds. *)
Definition with_email (mail : jsstring) (rows : list User) : list User :=
  filter (fun u => jsstring_eqb (u_email u) mail) rows.

(** The part of the world that the logger may change: the [activities]
    table and the serial of its rows, one outcome of the script. *)
Definition same_outside_activities (w w' : World) : Prop :=
  users w' = users w /\ images w' = images w
  /\ bucket_images w' = bucket_images w /\ clock w' = clock w
  /\ activities_table w' = activities_table w.

(** The rows the first query of [deleteImage] selects. *)
Definition owned_with_id (imageId userId : jsstring) (rows : list Image) : list Image :=
  filter (fun img => jsstring_eqb (img_user_id img) userId)
         (filter (fun img => jsstring_eqb (img_id img) imageId) rows).

(** [k] is the ceiling of [a / b], for [b > 0]: the least integer whose
    product with [b] reaches [a]. *)
Definition is_ceiling (k a b : Z) : Prop := b * (k - 1) < a <= b * k.

(** A field of the [pagination] object of a response. *)
Definition pagination_field (k : string) (r : Response) : option Json :=
  match get "pagination" (body r) with
  | Some p => get k p
  | None => None
  end.

(** The count the second query of a listing resolves with: the number of
    rows when the call is carried out, [null] when it resolves with an
    error. *)
Definition counted_after_listing (n : Z) (w : World) : option Z :=
  match tl (script w) with
  | Fails _ :: _ => None
  | _ => Some n
  end.

(** [related V V' R m1 m2]: from two worlds related by [V], the runs of
    [m1] and [m2] end alike, both with values related by [R] or both with
    the same exception, in worlds related by [V']. *)
Definition related {A} (V V' : World -> World -> Prop) (R : A -> A -> Prop)
  (m1 m2 : M A) : Prop :=
  forall w1 w2, V w1 w2 ->
    match m1 w1, m2 w2 with
    | (Val a1, w1'), (Val a2, w2') => R a1 a2 /\ V' w1' w2'
    | (Exn e1, w1'), (Exn e2, w2') => e1 = e2 /\ V' w1' w2'
    | _, _ => False
    end.

(** Two worlds that [P] relates and whose scripts agree on the outcomes of
    the next [n] calls. *)
Definition agree (n : nat) (P : World -> World -> Prop) (w1 w2 : World) : Prop :=
  P w1 w2 /\ firstn n (script w1) = firstn n (script w2).

(** A relation that does not look at the script. *)
Definition script_blind (P : World -> World -> Prop) : Prop :=
  forall w1 w2 s1 s2, P w1 w2 -> P (set_script w1 s1) (set_script w2 s2).

(** The relation that asks nothing of two worlds. *)
Definition anything (w1 w2 : World) : Prop := True.

(** The rows of [activities] that belong to a user. *)
Definition own_activities (U : jsstring) (acts : list Activity) : list Activity :=
  filter (fun a => jsstring_eqb (act_user_id a) U) acts.

(** Two worlds that differ, at most, in the activity rows of other users
    (and in what [getActivities] never reads). *)
Definition same_view (U : jsstring) (w1 w2 : World) : Prop :=
  activities_table w1 = activities_table w2
  /\ own_activities U (activities w1) = own_activities U (activities w2)
  /\ images w1 = images w2.

(** Two worlds that agree on everything the image handlers read before
    they log: they may differ in [activities], in whether that table
    exists, and in their scripts. *)
Definition core_eq (w1 w2 : World) : Prop :=
  users w1 = users w2 /\ images w1 = images w2
  /\ bucket_images w1 = bucket_images w2
  /\ clock w1 = clock w2 /\ next_serial w1 = next_serial w2.

(** The number of calls [deleteImage] makes before it logs: the query for
    the image, the removal of its file when the row has a path, the
    deletion of the row.  A query that finds no single row is the only
    call. *)
Definition calls_before_logging (user : Claims) (imageId : jsstring) (w : World) : nat :=
  match owned_with_id imageId (userId user) (images w) with
  | [image] => if truthy (Some (img_file_path image)) then 3%nat else 2%nat
  | _ => 1%nat
  end.

(** Closes a goal of [logActivity_returns] once the run is evaluated. *)
Ltac settle_logged :=
  eexists; split;
  [ reflexivity
  | split; [ repeat split; cbn; assumption || reflexivity
           | cbn; assumption || reflexivity ] ].

(** One step of a run: the next outcome of the script, then the reply of
    the call that meets it. *)
Ltac run_step :=
  match goal with
  | |- context [match script ?w with _ => _ end] =>
    destruct (script w) as [| [| ? | ?] ?]
  | |- context [let (_, _) := ?c ?w in _] =>
    destruct (c w) as [[? [? |] ?] ?]
  end;
  cbn -[lit Math_ceil_div or_zero or_default].

(** The same for calls that only read, keeping the equations. *)
Ltac read_step :=
  match goal with
  | H : script ?w = _ |- context [match script ?w with _ => _ end] => rewrite H
  | |- context [match script ?w with _ => _ end] =>
    destruct (script w) as [| [| ? | ?] ?] eqn:?
  | |- context [match ?s with [] => _ | _ :: _ => _ end] =>
    is_var s; destruct s as [| [| ? | ?] ?]
  | |- context [match error (?q ?w) with _ => _ end] =>
    destruct (q w) as [? [? |] ?] eqn:?
  | |- context [let (_, _) := ?c ?w in _] =>
    destruct (c w) as [[? [? |] ?] ?]
  end;
  cbn -[lit Math_ceil_div or_zero or_default].

(** Opens two worlds related by [core_eq]. *)
Ltac core_call :=
  let w1 := fresh "w1" in
  let w2 := fresh "w2" in
  let H := fresh "H" in
  intros w1 w2 H;
  destruct w1, w2; unfold core_eq in *; cbn in H;
  destruct H as (? & ? & ? & ? & ?); subst.

(** Refutes the membership of a literal in a list of other literals. *)
Ltac not_among :=
  let H := fresh "H" in
  intro H; vm_compute in H;
  repeat (destruct H as [H | H]; [discriminate H |]); exact H.

(** ** More vocabulary: the other routes *)

(** Refutes an equation between two different messages of the policy,
    from the proof [D] that they are distinct; the equation is matched as
    written, never by computing the two sides. *)
Ltac other_message D H :=
  exfalso;
  lazymatch type of H with
  | msg_minLength = msg_hasUppercase => exact (proj1 D H)
  | msg_hasUppercase = msg_minLength => exact (proj1 D (eq_sym H))
  | msg_minLength = msg_hasSpecialChar =>
    exact (proj1 (proj2 D) H)
  | msg_hasSpecialChar = msg_minLength =>
    exact (proj1 (proj2 D) (eq_sym H))
  | msg_hasUppercase = msg_hasSpecialChar =>
    exact (proj2 (proj2 D) H)
  | msg_hasSpecialChar = msg_hasUppercase =>
    exact (proj2 (proj2 D) (eq_sym H))
  end.

(** Finds a message in a list of messages. *)
Ltac among_messages :=
  repeat lazymatch goal with
         | |- ?a = ?a \/ _ => left; reflexivity
         | |- _ = _ \/ _ => right
         end.

(** Refutes the membership of a message in a list of other messages. *)
Ltac none_of_messages D H :=
  repeat (destruct H as [H | H]; [other_message D H |]); destruct H.

(** The row that [logActivity] inserts in a given world. *)
Definition logged_row (svc : Services) (userId action : jsstring)
  (imageId : option jsstring) (additionalData : Json) (w : World) : Activity :=
  {| act_id := gen_random_uuid svc (next_serial w);
     act_user_id := userId; act_action := action;
     act_image_id := imageId; act_timestamp := clock w;
     act_additional_data := additionalData |}.

(** Whether a row of [images] is the one a deletion aims at. *)
Definition is_target (imageId userId : jsstring) (img : Image) : bool :=
  jsstring_eqb (img_id img) imageId && jsstring_eqb (img_user_id img) userId.

(** The path [generateImage] stores an image under. *)
Definition generated_path (userId : jsstring) (t : Z) : jsstring :=
  lit "generated/" ++ userId ++ lit "_" ++ decimal t ++ lit "_generated.png".

(** Walks through a run of a handler that logs: the outcome of each call,
    the reply of [single()], the tests on strings, and the logger, of which
    [HL] says what it returns; [Hfetch] and [Hcases] are the lemmas on the
    query for an image and on the reply of [single()]. *)
Ltac walk_logged logger HL Hfetch Hcases :=
  repeat
    (match goal with
     | H : script ?v = _ |- context [match script ?v with _ => _ end] => rewrite H
     | |- context [match script ?v with _ => _ end] =>
       destruct (script v) as [| [| ? | ?] ?] eqn:?
     | |- context [match ?s with [] => _ | _ :: _ => _ end] =>
       is_var s; destruct s as [| [| ? | ?] ?]
     | |- context [single (eq_ img_user_id ?u (eq_ img_id ?i from_images)) ?v] =>
       rewrite (Hfetch i u v)
     | |- context [single_row (resolved [?row])] =>
       change (single_row (resolved [row])) with (resolved row)
     | |- context [single_row (resolved ?rows)] =>
       destruct (Hcases rows) as [[? ->] | ->]
     | |- context [logger ?a ?b ?c ?d ?v] =>
       let E := fresh "E" in
       destruct (HL a b c d v) as [? [E ?]]; rewrite E
     | |- context [if truthy ?x then _ else _] => destruct (truthy x) eqn:?
     | |- context [if existsb ?f ?l then _ else _] => destruct (existsb f l) eqn:?
     end;
     cbn -[lit decimal substring0 single single_row owned_with_id truthy existsb
           jsstring_eqb filter app]).

(** Rows by decreasing [key]: no row has a greater key than a row before it. *)
Fixpoint newest_first {A} (key : A -> Z) (rows : list A) : Prop :=
  match rows with
  | [] => True
  | r :: rest => (forall x, In x rest -> key x <= key r) /\ newest_first key rest
  end.

(** The images of a user, as they stand in the table. *)
Definition images_of (userId : jsstring) (rows : list Image) : list Image :=
  filter (fun img => jsstring_eqb (img_user_id img) userId) rows.

(** The rows of [users] with a given id. *)
Definition with_id (userId : jsstring) (rows : list User) : list User :=
  filter (fun u => jsstring_eqb (u_id u) userId) rows.

(** A row of [users] with another hash, updated at [t]. *)
Definition with_password (hashed_password : jsstring) (t : Z) (u : User) : User :=
  {| u_id := u_id u; u_full_name := u_full_name u; u_email := u_email u;
     u_hashed_password := hashed_password;
     u_bio := u_bio u; u_avatar_url := u_avatar_url u;
     u_created_at := u_created_at u; u_updated_at := Some t |}.

(** The table [users] once the rows of a given id have another hash. *)
Definition password_changed (userId hashed_password : jsstring) (t : Z)
  (rows : list User) : list User :=
  map (fun u => if jsstring_eqb (u_id u) userId
                then with_password hashed_password t u else u) rows.

(** Walks through the outcomes of the calls of a run. *)
Ltac walk_script :=
  repeat
    (match goal with
     | H : script ?v = _ |- context [match script ?v with _ => _ end] => rewrite H
     | |- context [match script ?v with _ => _ end] =>
       destruct (script v) as [| [| ? | ?] ?] eqn:?
     | |- context [match ?s with [] => _ | _ :: _ => _ end] =>
       is_var s; destruct s as [| [| ? | ?] ?]
     end;
     cbn -[lit decimal single_row with_id images_of jsstring_eqb filter map
           existsb app Z.of_nat List.length Z.leb]).

(** A field of the [stats] object of a response. *)
Definition stats_field (k : string) (r : Response) : option Json :=
  match get "stats" (body r) with
  | Some s => get k s
  | None => None
  end.

(** The number of rows created at [cutoff] or later. *)
Definition created_since {A} (created_at : A -> Z) (cutoff : Z) (rows : list A) : Z :=
  Z.of_nat (List.length (filter (fun r => cutoff <=? created_at r) rows)).

(** Two worlds with the same tables and the same bucket. *)
Definition same_tables (w w' : World) : Prop :=
  users w' = users w /\ images w' = images w
  /\ activities w' = activities w /\ bucket_images w' = bucket_images w.

(** A computation that leaves the tables and the bucket as they are, from
    every world and whatever its calls come to. *)
Definition writes_nothing {A} (m : M A) : Prop :=
  forall w, same_tables w (snd (m w)).

Create HintDb reads.

(** ** More sample worlds *)

(** The removal of a file from the bucket resolves with an error. *)
Definition world_storage_down : World :=
  set_script sample_world [Succeeds; Fails (Error (lit "storage unavailable"))].

(** The bucket already holds the file that u1 would generate now. *)
Definition world_path_taken : World :=
  set_bucket_images sample_world
    (bucket_images sample_world
     ++ [(lit "generated/u1_1730000000000_generated.png", [137; 80; 78; 71])]).

(** Each of the next four calls resolves with an error. *)
Definition world_counts_down : World :=
  set_script sample_world
    [Fails (Error (lit "timeout")); Fails (Error (lit "timeout"));
     Fails (Error (lit "timeout")); Fails (Error (lit "timeout"))].

(** Thirty days of 86400000 milliseconds before an instant. *)
Definition thirty_days_before (t : Z) : Z := t - 30 * 86400000.

Definition alice_changes_password : Result Response * World :=
  changePassword sample_services (sample_claims "u1")
    (Some (lit "Secret!Pass")) (Some (lit "NewPass!23")) sample_world.

(** Dan is registered, and the next call resolves with an error. *)
Definition world_lookup_down : World :=
  set_script (snd dan_registers) [Fails (Error (lit "timeout"))].

(** * Properties *)

(** ** The password policy *)

Lemma special_chars_spelled :
  special_chars =
  [33; 64; 35; 36; 37; 94; 38; 42; 40; 41; 44; 46; 63; 34; 58; 123; 125; 124; 60; 62].
Proof. reflexivity. Qed.

Lemma is_special_In (c : Z) : is_special c = true <-> In c special_chars.
Proof.
  unfold is_special. rewrite existsb_exists. split.
  - intros [x [Hin Heq]]. apply Z.eqb_eq in Heq. now subst.
  - intros Hin. exists c. split; [assumption | apply Z.eqb_refl].
Qed.

Lemma test_class_exists (cls : Z -> bool) (s : jsstring) :
  test_class cls s = true <-> exists c, In c s /\ cls c = true.
Proof. unfold test_class. apply existsb_exists. Qed.

Lemma test_class_none (cls : Z -> bool) (s : jsstring) :
  (forall c, In c s -> cls c = false) -> test_class cls s = false.
Proof.
  intros H. destruct (test_class cls s) eqn:E; [| reflexivity].
  apply test_class_exists in E. destruct E as [c [Hin Hc]].
  rewrite (H c Hin) in Hc. discriminate.
Qed.

Lemma is_uppercase_range (c : Z) : is_uppercase c = true <-> 65 <= c <= 90.
Proof. unfold is_uppercase. rewrite andb_true_iff, !Z.leb_le. tauto. Qed.

Lemma messages_distinct :
  msg_minLength <> msg_hasUppercase
  /\ msg_minLength <> msg_hasSpecialChar
  /\ msg_hasUppercase <> msg_hasSpecialChar.
Proof. repeat split; intro H; vm_compute in H; discriminate H. Qed.

Lemma errorMessages_minLength (e : PasswordErrors) :
  minLength e = Some msg_minLength -> In msg_minLength (errorMessages e).
Proof.
  intros H. unfold errorMessages. rewrite H.
  apply in_or_app. left. now left.
Qed.

Lemma errorMessages_hasUppercase (e : PasswordErrors) :
  hasUppercase e = Some msg_hasUppercase -> In msg_hasUppercase (errorMessages e).
Proof.
  intros H. unfold errorMessages. rewrite H.
  apply in_or_app. right. apply in_or_app. left. now left.
Qed.

Lemma errorMessages_hasSpecialChar (e : PasswordErrors) :
  hasSpecialChar e = Some msg_hasSpecialChar -> In msg_hasSpecialChar (errorMessages e).
Proof.
  intros H. unfold errorMessages. rewrite H.
  apply in_or_app. right. apply in_or_app. right. now left.
Qed.

(** C1. For every string, [validatePassword] reports it valid exactly when
    it has at least 8 code units, one of them an uppercase ASCII letter
    (A to Z, codes 65 to 90) and one of them among the twenty special
    characters.  A rule that fails puts its own message in the result, and
    in the itemised list; a rule that holds puts none; the three messages
    are pairwise distinct. *)
Theorem validatePassword_policy (password : jsstring) :
  let r := validatePassword password in
  let long := 8 <= js_length password in
  let upper := exists c, In c password /\ 65 <= c <= 90 in
  let special := exists c, In c password /\
    In c [33; 64; 35; 36; 37; 94; 38; 42; 40; 41; 44; 46; 63; 34;
          58; 123; 125; 124; 60; 62] in
  (isValid r = true <-> long /\ upper /\ special)
  /\ (~ long -> minLength (errors r) = Some msg_minLength
                /\ In msg_minLength (errorMessages (errors r)))
  /\ (~ upper -> hasUppercase (errors r) = Some msg_hasUppercase
                 /\ In msg_hasUppercase (errorMessages (errors r)))
  /\ (~ special -> hasSpecialChar (errors r) = Some msg_hasSpecialChar
                   /\ In msg_hasSpecialChar (errorMessages (errors r)))
  /\ (long -> minLength (errors r) = None)
  /\ (upper -> hasUppercase (errors r) = None)
  /\ (special -> hasSpecialChar (errors r) = None)
  /\ msg_minLength <> msg_hasUppercase
  /\ msg_minLength <> msg_hasSpecialChar
  /\ msg_hasUppercase <> msg_hasSpecialChar.
Proof.
  cbv zeta. rewrite <- special_chars_spelled.
  assert (Hlong : (8 <=? js_length password) = true <-> 8 <= js_length password)
    by apply Z.leb_le.
  assert (Hupper : test_class is_uppercase password = true
                   <-> exists c, In c password /\ 65 <= c <= 90).
  { rewrite test_class_exists. split; intros [c [Hin Hc]]; exists c;
      (split; [assumption | now apply is_uppercase_range]). }
  assert (Hspecial : test_class is_special password = true
                     <-> exists c, In c password /\ In c special_chars).
  { rewrite test_class_exists. split; intros [c [Hin Hc]]; exists c;
      (split; [assumption | now apply is_special_In]). }
  set (b1 := 8 <=? js_length password) in *.
  set (b2 := test_class is_uppercase password) in *.
  set (b3 := test_class is_special password) in *.
  unfold validatePassword. fold b1 b2 b3.
  cbn [isValid errors minLength hasUppercase hasSpecialChar].
  split; [| split; [| split; [| split; [| split; [| split; [| split;
    [| exact messages_distinct]]]]]]].
  - split.
    + intros H. apply andb_true_iff in H as [H H3].
      apply andb_true_iff in H as [H1 H2].
      split; [now apply Hlong | split; [now apply Hupper | now apply Hspecial]].
    + intros [H1 [H2 H3]]. apply Hlong in H1. apply Hupper in H2.
      apply Hspecial in H3. rewrite H1, H2, H3. reflexivity.
  - intros N. destruct b1; [exfalso; apply N, Hlong; reflexivity |].
    split; [reflexivity | apply errorMessages_minLength; reflexivity].
  - intros N. destruct b2; [exfalso; apply N, Hupper; reflexivity |].
    split; [reflexivity | apply errorMessages_hasUppercase; reflexivity].
  - intros N. destruct b3; [exfalso; apply N, Hspecial; reflexivity |].
    split; [reflexivity | apply errorMessages_hasSpecialChar; reflexivity].
  - intros H. destruct b1; [reflexivity |]. apply Hlong in H. discriminate.
  - intros H. destruct b2; [reflexivity |]. apply Hupper in H. discriminate.
  - intros H. destruct b3; [reflexivity |]. apply Hspecial in H. discriminate.
Qed.

(** ** Strings and the monad: basic facts *)

Lemma jsstring_eqb_eq (a b : jsstring) : jsstring_eqb a b = true <-> a = b.
Proof.
  unfold jsstring_eqb. destruct (list_eq_dec Z.eq_dec a b); split; intros H;
    try assumption; try reflexivity; try discriminate. contradiction.
Qed.

Lemma jsstring_eqb_neq (a b : jsstring) : jsstring_eqb a b = false <-> a <> b.
Proof.
  unfold jsstring_eqb. destruct (list_eq_dec Z.eq_dec a b); split; intros H;
    try assumption; try reflexivity; try discriminate. contradiction.
Qed.

Lemma jsstring_eqb_refl (a : jsstring) : jsstring_eqb a a = true.
Proof. now apply jsstring_eqb_eq. Qed.

Lemma lit_Bearer : lit "Bearer " = [66; 101; 97; 114; 101; 114; 32].
Proof. reflexivity. Qed.

Lemma startsWith_app (s prefix : jsstring) :
  startsWith s prefix = true <-> exists rest, s = prefix ++ rest.
Proof.
  revert s. induction prefix as [| p prefix IH]; intros s.
  - split; [intros _; now exists s | reflexivity].
  - destruct s as [| c s]; cbn [startsWith].
    + split; [discriminate | intros [rest H]; discriminate H].
    + rewrite andb_true_iff, Z.eqb_eq, IH. split.
      * intros [-> [rest ->]]. now exists rest.
      * intros [rest H]. injection H as -> ->. split; [reflexivity | now exists rest].
Qed.

Lemma split_space_nonempty (s : jsstring) : split_space s <> [].
Proof.
  destruct s as [| c s]; cbn [split_space]; [discriminate |].
  destruct (c =? 32); [discriminate |].
  destruct (split_space s); discriminate.
Qed.

Lemma split_space_no_space (s : jsstring) : ~ In 32 s -> split_space s = [s].
Proof.
  induction s as [| c s IH]; intros H; [reflexivity |].
  cbn [split_space]. destruct (Z.eqb_spec c 32) as [-> | _].
  - exfalso. apply H. now left.
  - rewrite IH; [reflexivity |]. intros Hin. apply H. now right.
Qed.

(** The piece after the first space of a header that starts with the
    scheme. *)
Lemma split_space_Bearer (rest : jsstring) :
  split_space (lit "Bearer " ++ rest) = lit "Bearer" :: split_space rest.
Proof.
  rewrite lit_Bearer. change (lit "Bearer") with [66; 101; 97; 114; 101; 114].
  cbn [app split_space Z.eqb Pos.eqb].
  destruct (split_space rest) eqn:E; [now apply split_space_nonempty in E |].
  reflexivity.
Qed.

Lemma falsy_Some_false (s : jsstring) : falsy (Some s) = false <-> s <> [].
Proof.
  unfold falsy, truthy. destruct s; cbn; split; intros H;
    try discriminate; try reflexivity; congruence.
Qed.

(** ** The auth gate *)

(** C5. [protect] answers 401 without running the handler, and without
    touching the world, when the Authorization header is absent or does
    not start with the scheme, and when the token it carries fails
    [jwt.verify] (bad signature, expired, malformed); when the token
    verifies for the claims of a user, the handler is run on those claims,
    the user's [userId] among them.  The last part covers every header that
    starts with the scheme: the token is the piece between the first space
    and the next. *)
Theorem protect_gate (svc : Services) (next : Claims -> M Response) (w : World) :
  let no_token :=
    respond 401 [("error", JStr (lit "Not authenticated, no token provided."))] in
  let invalid :=
    respond 401 [("error", JStr (lit "Not authenticated, token is invalid."))] in
  (protect svc None next w = (Val no_token, w))
  /\ (forall h, startsWith h (lit "Bearer ") = false ->
        protect svc (Some h) next w = (Val no_token, w))
  /\ (forall token, ~ In 32 token ->
        jwt_verify svc token (clock w / 1000) = None ->
        protect svc (Some (lit "Bearer " ++ token)) next w = (Val invalid, w))
  /\ (forall token U, ~ In 32 token ->
        jwt_verify svc token (clock w / 1000) = Some U ->
        protect svc (Some (lit "Bearer " ++ token)) next w = next U w)
  /\ (forall h, startsWith h (lit "Bearer ") = true ->
        exists token,
          nth_error (split_space h) 1 = Some token
          /\ protect svc (Some h) next w =
             match jwt_verify svc token (clock w / 1000) with
             | Some U => next U w
             | None => (Val invalid, w)
             end)
  /\ status no_token = 401 /\ status invalid = 401.
Proof.
  cbv zeta.
  assert (General : forall h, startsWith h (lit "Bearer ") = true ->
    exists token,
      nth_error (split_space h) 1 = Some token
      /\ protect svc (Some h) next w =
         match jwt_verify svc token (clock w / 1000) with
         | Some U => next U w
         | None =>
           (Val (respond 401
              [("error", JStr (lit "Not authenticated, token is invalid."))]), w)
         end).
  { intros h Hh. pose proof Hh as Hs. apply startsWith_app in Hs as [rest ->].
    destruct (split_space rest) as [| token more] eqn:E;
      [now apply split_space_nonempty in E |].
    exists token. split.
    - rewrite split_space_Bearer, E. reflexivity.
    - unfold protect. cbn [str]. rewrite Hh.
      match goal with
      | |- context [falsy ?x] => change (falsy x) with false
      end.
      cbn [negb orb].
      rewrite split_space_Bearer, E. cbn [nth_error].
      unfold bind, now. destruct (jwt_verify svc token (clock w / 1000)); reflexivity. }
  assert (Head : forall token, startsWith (lit "Bearer " ++ token) (lit "Bearer ") = true)
    by (intros token; apply startsWith_app; now exists token).
  split; [reflexivity |].
  split.
  { intros h Hh. unfold protect. cbn [str]. rewrite Hh. cbn [negb].
    rewrite orb_true_r. reflexivity. }
  split.
  { intros token Hsp Hv. destruct (General _ (Head token)) as [t [Ht Hp]].
    rewrite split_space_Bearer, (split_space_no_space _ Hsp) in Ht.
    injection Ht as <-. rewrite Hv in Hp. exact Hp. }
  split.
  { intros token U Hsp Hv. destruct (General _ (Head token)) as [t [Ht Hp]].
    rewrite split_space_Bearer, (split_space_no_space _ Hsp) in Ht.
    injection Ht as <-. rewrite Hv in Hp. exact Hp. }
  split; [exact General |].
  split; reflexivity.
Qed.

(** ** Awaited calls *)

Lemma truthy_Some (s : jsstring) : s <> [] -> truthy (Some s) = true.
Proof. destruct s; [contradiction | reflexivity]. Qed.

Lemma falsy_Some (s : jsstring) : s <> [] -> falsy (Some s) = false.
Proof. intros H. unfold falsy. now rewrite truthy_Some. Qed.

Lemma set_script_users (w : World) (s : list Outcome) : users (set_script w s) = users w.
Proof. reflexivity. Qed.

Lemma with_email_In (mail : jsstring) (rows : list User) (u : User) :
  In u (with_email mail rows) <-> In u rows /\ u_email u = mail.
Proof. unfold with_email. rewrite filter_In, jsstring_eqb_eq. tauto. Qed.

Lemma with_email_none (mail : jsstring) (rows : list User) :
  (forall u, In u rows -> u_email u <> mail) -> with_email mail rows = [].
Proof.
  intros H. destruct (with_email mail rows) as [| u l] eqn:E; [reflexivity |].
  assert (Hin : In u (with_email mail rows)) by (rewrite E; now left).
  apply with_email_In in Hin as [Hin Heq]. now apply H in Hin.
Qed.

Lemma lookup_by_email (mail : jsstring) (w : World) :
  single (eq_ u_email mail from_users) w
  = (single_row (resolved (with_email mail (users w))), w).
Proof. reflexivity. Qed.

(** ** Login *)

(** What [login] answers once both fields are given, from the reply of the
    lookup alone. *)
Lemma login_answer (svc : Services) (mail password : jsstring) (w : World) :
  mail <> [] -> password <> [] ->
  (forall u, data (single_row (resolved (with_email mail (users w)))) = Some u ->
             bcrypt_compare svc password (u_hashed_password u) = false) ->
  fst (login svc (Some mail) (Some password) w)
  = Val (if rejects_next w
         then respond 500 [("error", JStr (lit "Server error during login."))]
         else respond 401 [("error", JStr (lit "Invalid credentials."))]).
Proof.
  intros Hm Hp Hcmp. unfold login.
  rewrite (falsy_Some _ Hm), (falsy_Some _ Hp). cbn [orb str].
  unfold try_catch, bind, await, rejects_next.
  destruct (script w) as [| [| e | e] rest]; rewrite ?lookup_by_email;
    cbn [fst snd failed error data]; try reflexivity.
  - destruct (single_row (resolved (with_email mail (users w)))) as [d [e |] c] eqn:E;
      cbn [error data]; [reflexivity |].
    destruct d as [u |]; [| reflexivity].
    rewrite (Hcmp u) by reflexivity. reflexivity.
  - rewrite set_script_users.
    destruct (single_row (resolved (with_email mail (users w)))) as [d [e |] c] eqn:E;
      cbn [error data]; [reflexivity |].
    destruct d as [u |]; [| reflexivity].
    rewrite (Hcmp u) by reflexivity. reflexivity.
Qed.

Lemma single_row_resolved_data {A} (rows : list A) (r : A) :
  data (single_row (resolved rows)) = Some r -> rows = [r].
Proof.
  unfold single_row, resolved. cbn [data error].
  destruct rows as [| a [| b rows]]; cbn [data failed]; try discriminate.
  now intros [= ->].
Qed.

(** C2. The two failed logins are answered alike.  In the first run no
    row of [users] has the email; in the second some row has it and the
    password matches the stored hash of no such row.  Whatever else the two
    worlds hold, each run answers the same 401 with the same body, the
    generic error message; a lookup whose promise rejects turns either run
    into the same 500. *)
Theorem login_failures_indistinguishable (svc : Services)
  (mail password : jsstring) (w1 w2 : World) :
  mail <> [] -> password <> [] ->
  (forall u, In u (users w1) -> u_email u <> mail) ->
  (exists u, In u (users w2) /\ u_email u = mail) ->
  (forall u, In u (users w2) -> u_email u = mail ->
             bcrypt_compare svc password (u_hashed_password u) = false) ->
  let generic := respond 401 [("error", JStr (lit "Invalid credentials."))] in
  let failure := respond 500 [("error", JStr (lit "Server error during login."))] in
  fst (login svc (Some mail) (Some password) w1)
    = Val (if rejects_next w1 then failure else generic)
  /\ fst (login svc (Some mail) (Some password) w2)
    = Val (if rejects_next w2 then failure else generic)
  /\ (rejects_next w1 = rejects_next w2 ->
      fst (login svc (Some mail) (Some password) w1)
      = fst (login svc (Some mail) (Some password) w2))
  /\ status generic = 401.
Proof.
  intros Hm Hp Hnone _ Hwrong. cbv zeta.
  assert (R1 := login_answer svc mail password w1 Hm Hp).
  assert (R2 := login_answer svc mail password w2 Hm Hp).
  rewrite R1, R2.
  - repeat split; try reflexivity. intros ->. reflexivity.
  - intros u Hu. apply single_row_resolved_data in Hu.
    assert (Hin : In u (with_email mail (users w2))) by (rewrite Hu; now left).
    apply with_email_In in Hin as [Hin Heq]. now apply Hwrong.
  - intros u Hu. apply single_row_resolved_data in Hu.
    rewrite (with_email_none _ _ Hnone) in Hu. discriminate.
Qed.

(** ** Registration *)

Lemma with_email_app (mail : jsstring) (rows more : list User) :
  with_email mail (rows ++ more) = with_email mail rows ++ with_email mail more.
Proof. unfold with_email. apply filter_app. Qed.

Lemma with_email_absent (mail : jsstring) (rows : list User) :
  with_email mail rows = [] <-> ~ In mail (map u_email rows).
Proof.
  split.
  - intros E Hin. apply in_map_iff in Hin as [u [Heq Hin]].
    assert (H : In u (with_email mail rows)) by now apply with_email_In.
    rewrite E in H. exact H.
  - intros H. apply with_email_none. intros u Hin Heq. apply H.
    apply in_map_iff. now exists u.
Qed.

(** Under unique emails a lookup finds one row at most. *)
Lemma with_email_unique (mail : jsstring) (rows : list User) :
  NoDup (map u_email rows) ->
  with_email mail rows = [] \/ exists u, with_email mail rows = [u].
Proof.
  induction rows as [| r rows IH]; intros Hnd; [now left |].
  cbn [map] in Hnd. inversion Hnd as [| x l Hnotin Hnd' Heq]; subst.
  unfold with_email. cbn [filter]. fold (with_email mail rows).
  destruct (jsstring_eqb (u_email r) mail) eqn:E.
  - right. exists r. apply jsstring_eqb_eq in E. subst mail.
    f_equal. now apply with_email_absent.
  - now apply IH.
Qed.

(** A second registration with an email that one row holds. *)
Lemma register_existing (svc : Services) (fullName password : option jsstring)
  (mail : jsstring) (w : World) (row : User) :
  with_email mail (users w) = [row] ->
  carried_out_next w = true ->
  exists r w',
    register svc fullName (Some mail) password w = (Val r, w')
    /\ status r = 400 /\ users w' = users w.
Proof.
  intros Hrow Hnext. unfold register.
  destruct (falsy (Some mail) || falsy password || falsy fullName).
  { eexists. eexists. split; [reflexivity | split; reflexivity]. }
  destruct (negb (isValid (validatePassword (str password)))).
  { eexists. eexists. split; [reflexivity | split; reflexivity]. }
  unfold try_catch, bind, await. unfold carried_out_next in Hnext. cbn [str].
  destruct (script w) as [| [| e | e] rest]; try discriminate Hnext;
    rewrite lookup_by_email, ?set_script_users, Hrow; cbn;
    (eexists; eexists; split; [reflexivity | split; reflexivity]).
Qed.

(** What a registration does to [users]: nothing, unless it answers 201,
    and then it has added one row with the email, which a lookup that was
    carried out did not find alone in the table. *)
Lemma register_effect (svc : Services) (fullName mail password : option jsstring)
  (w w' : World) (r : Response) :
  register svc fullName mail password w = (Val r, w') ->
  (status r <> 201 /\ users w' = users w)
  \/ (status r = 201
      /\ (exists row, users w' = users w ++ [row] /\ u_email row = str mail)
      /\ (carried_out_next w = true ->
          forall u, with_email (str mail) (users w) <> [u])).
Proof.
  unfold register.
  destruct (falsy mail || falsy password || falsy fullName).
  { intros [= <- <-]. left. split; [discriminate | reflexivity]. }
  destruct (negb (isValid (validatePassword (str password)))).
  { intros [= <- <-]. left. split; [discriminate | reflexivity]. }
  unfold try_catch, bind, await, carried_out_next.
  destruct (script w) as [| [| e | e] rest] eqn:Es;
    rewrite ?lookup_by_email; cbn [fst snd failed data error ret].
  - (* the lookup is carried out, on an empty script *)
    destruct (with_email (str mail) (users w)) as [| u [| u2 l]] eqn:Ew;
      cbn [single_row resolved data error failed ret].
    + rewrite Es. unfold single_of, insert_users. cbn.
      intros [= <- <-]. right. split; [reflexivity |]. split.
      * eexists. split; reflexivity.
      * intros _ u. discriminate.
    + intros [= <- <-]. left. split; [discriminate | reflexivity].
    + rewrite Es. unfold single_of, insert_users. cbn.
      intros [= <- <-]. right. split; [reflexivity |]. split.
      * eexists. split; reflexivity.
      * intros _ u0. discriminate.
  - rewrite set_script_users.
    destruct (with_email (str mail) (users w)) as [| u [| u2 l]] eqn:Ew;
      cbn [single_row resolved data error failed ret].
    + cbn [script set_script].
      destruct rest as [| [| e | e] rest']; unfold single_of, insert_users; cbn;
        intros [= <- <-];
        try (left; split; [discriminate | reflexivity]);
        (right; split; [reflexivity |]; split;
         [eexists; split; reflexivity | intros _ u; discriminate]).
    + intros [= <- <-]. left. split; [discriminate | reflexivity].
    + cbn [script set_script].
      destruct rest as [| [| e | e] rest']; unfold single_of, insert_users; cbn;
        intros [= <- <-];
        try (left; split; [discriminate | reflexivity]);
        (right; split; [reflexivity |]; split;
         [eexists; split; reflexivity | intros _ u0; discriminate]).
  - cbn [script set_script].
    destruct rest as [| [| e' | e'] rest']; unfold single_of, insert_users; cbn;
      intros [= <- <-];
      try (left; split; [discriminate | reflexivity]);
      (right; split; [reflexivity |]; split;
       [eexists; split; reflexivity | discriminate]).
  - intros [= <- <-]. left. split; [discriminate | reflexivity].
Qed.

(** Registering twice with the same email, when the lookups are carried
    out.  The table holds each email once, the first registration is
    answered 201, and the database carries out the lookup of each attempt.
    Then the second attempt, whatever name and password it gives, is
    answered 400 and leaves [users] as the first registration left it: with
    one row for that email, and each email still held once. *)
Theorem register_twice (svc : Services)
  (fullName1 password1 fullName2 password2 : option jsstring)
  (mail : jsstring) (w0 w1 : World) (r1 : Response) :
  NoDup (map u_email (users w0)) ->
  carried_out_next w0 = true ->
  register svc fullName1 (Some mail) password1 w0 = (Val r1, w1) ->
  status r1 = 201 ->
  carried_out_next w1 = true ->
  exists r2 w2,
    register svc fullName2 (Some mail) password2 w1 = (Val r2, w2)
    /\ status r2 = 400
    /\ users w2 = users w1
    /\ (exists row, with_email mail (users w1) = [row])
    /\ NoDup (map u_email (users w2)).
Proof.
  intros Hnd Hnext0 Hreg Hst Hnext1.
  apply register_effect in Hreg as [[Hne _] | [_ [[row [Hus Hmail]] Hfresh]]];
    [contradiction |].
  cbn [str] in Hmail, Hfresh. specialize (Hfresh Hnext0).
  assert (Habsent : with_email mail (users w0) = []).
  { destruct (with_email_unique mail (users w0) Hnd) as [E | [u E]];
      [exact E | now apply Hfresh in E]. }
  assert (Hone : with_email mail (users w1) = [row]).
  { rewrite Hus, with_email_app, Habsent. unfold with_email. cbn [filter app].
    rewrite <- Hmail, jsstring_eqb_refl. reflexivity. }
  destruct (register_existing svc fullName2 password2 mail w1 row Hone Hnext1)
    as [r2 [w2 [Hreg2 [Hst2 Hus2]]]].
  exists r2, w2. repeat split; try assumption.
  - now exists row.
  - rewrite Hus2, Hus, map_app. cbn [map]. rewrite Hmail.
    apply NoDup_app; [exact Hnd | constructor; [intros [] | constructor] |].
    intros x Hx [<- | []]. now apply with_email_absent in Habsent.
Qed.

(** C6. The second registration when its lookup fails.  [register] reads
    only the [data] of the lookup: when the lookup resolves with an error
    and the insert is carried out, a request with an email that a row
    already holds is answered 201, not 400, and [users] gains a second row
    with that email, so the emails of [users] are no longer distinct. *)
Theorem register_twice_lookup_error (svc : Services)
  (fullName mail password : jsstring) (e : JsError) (rest : list Outcome)
  (w : World) :
  fullName <> [] -> mail <> [] ->
  isValid (validatePassword password) = true ->
  In mail (map u_email (users w)) ->
  script w = Fails e :: rest ->
  carried_out_next (set_script w rest) = true ->
  exists r w' row,
    register svc (Some fullName) (Some mail) (Some password) w = (Val r, w')
    /\ status r = 201
    /\ users w' = users w ++ [row]
    /\ u_email row = mail
    /\ ~ NoDup (map u_email (users w')).
Proof.
  intros Hf Hm Hv Hheld Hs Hnext. unfold register.
  rewrite (falsy_Some _ Hm), (falsy_Some _ Hf).
  assert (Hp : password <> []).
  { intros ->. vm_compute in Hv. discriminate Hv. }
  rewrite (falsy_Some _ Hp). cbn [orb str]. rewrite Hv. cbn [negb].
  unfold try_catch, bind, await, carried_out_next in *. rewrite Hs.
  cbn [failed data error script set_script] in *.
  set (row := {| u_id := gen_random_uuid svc (next_serial w);
                 u_full_name := fullName; u_email := mail;
                 u_hashed_password := bcrypt_hash svc password 12;
                 u_bio := None; u_avatar_url := None;
                 u_created_at := clock w; u_updated_at := None |}).
  assert (Hdup : ~ NoDup (map u_email (users w ++ [row]))).
  { rewrite map_app. cbn [map]. intros Hnd.
    apply NoDup_remove_2 in Hnd. apply Hnd. rewrite app_nil_r. exact Hheld. }
  destruct rest as [| [| e' | e'] rest']; try discriminate Hnext;
    unfold single_of, insert_users; cbn -[lit];
    (eexists; eexists; exists row; split; [reflexivity |]);
    (split; [reflexivity |]); (split; [reflexivity |]);
    (split; [reflexivity | exact Hdup]).
Qed.

(** ** The activity logger never fails its caller *)

Lemma logActivity_returns (svc : Services) (userId action : jsstring)
  (imageId : option jsstring) (additionalData : Json) (w : World) :
  exists w',
    logActivity svc userId action imageId additionalData w = (Val tt, w')
    /\ same_outside_activities w w'
    /\ script w' = tl (script w).
Proof.
  unfold logActivity, try_catch, bind, now, await, console, ret.
  destruct (script w) as [| [| e | e] rest] eqn:Es.
  - unfold insert_activities. destruct (activities_table w) eqn:Et;
      cbn -[includes lit].
    + settle_logged.
    + destruct (includes _ _); settle_logged.
  - unfold insert_activities. cbn [activities_table set_script].
    destruct (activities_table w) eqn:Et; cbn -[includes lit].
    + settle_logged.
    + destruct (includes _ _); settle_logged.
  - cbn -[includes lit].
    destruct (match code e with
              | Some c => jsstring_eqb c (lit "PGRST116")
              | None => false
              end).
    + settle_logged.
    + destruct (message e) as [m |].
      * destruct (includes m _); settle_logged.
      * cbn -[includes lit]. destruct (_ && _); settle_logged.
  - cbn -[includes lit]. destruct (_ && _); settle_logged.
Qed.

(** ** The logging endpoint *)

(** C8. [POST /api/activities/log]: a request whose [action] is truthy is
    answered 200 with [success: true], whatever becomes of the insert (the
    script and the presence of the table are arbitrary); a request whose
    [action] is missing or empty is answered 400; no run answers anything
    else, so the 500 of the handler's [catch] is never sent. *)
Theorem postActivitiesLog_answers (svc : Services) (user : Claims)
  (action imageId : option jsstring) (additionalData : option Json) (w : World) :
  let logged :=
    respond 200 [("success", JBool true);
                 ("message", JStr (lit "Activity logged successfully"))] in
  let required := respond 400 [("error", JStr (lit "Action is required"))] in
  (truthy action = true ->
     exists w',
       postActivitiesLog svc user action imageId additionalData w = (Val logged, w')
       /\ same_outside_activities w w')
  /\ (truthy action = false ->
        postActivitiesLog svc user action imageId additionalData w = (Val required, w))
  /\ (forall res w',
        postActivitiesLog svc user action imageId additionalData w = (res, w') ->
        exists r, res = Val r
                  /\ (status r = 200 /\ get "success" (body r) = Some (JBool true)
                      \/ status r = 400 /\ truthy action = false)
                  /\ status r <> 500).
Proof.
  cbv zeta.
  assert (Truthy : truthy action = true ->
    exists w',
      postActivitiesLog svc user action imageId additionalData w
      = (Val (respond 200 [("success", JBool true);
                           ("message", JStr (lit "Activity logged successfully"))]), w')
      /\ same_outside_activities w w').
  { intros Ht. unfold postActivitiesLog, falsy. rewrite Ht. cbn [negb].
    unfold try_catch, bind.
    destruct (logActivity_returns svc (userId user) (str action) imageId
                (or_default (JObj []) additionalData) w) as [w' [Hlog [Hsame _]]].
    rewrite Hlog. exists w'. split; [reflexivity | exact Hsame]. }
  assert (Falsy : truthy action = false ->
    postActivitiesLog svc user action imageId additionalData w
    = (Val (respond 400 [("error", JStr (lit "Action is required"))]), w)).
  { intros Hf. unfold postActivitiesLog, falsy. rewrite Hf. reflexivity. }
  split; [exact Truthy |]. split; [exact Falsy |].
  intros res w' Hrun. destruct (truthy action) eqn:Ht.
  - destruct (Truthy eq_refl) as [w'' [Hp _]]. rewrite Hp in Hrun.
    injection Hrun as <- <-. eexists. split; [reflexivity |].
    split; [left; split; reflexivity | discriminate].
  - rewrite (Falsy eq_refl) in Hrun. injection Hrun as <- <-.
    eexists. split; [reflexivity |].
    split; [right; split; reflexivity | discriminate].
Qed.

(** ** Image deletion *)

Lemma fetch_owned (imageId userId : jsstring) (w : World) :
  single (eq_ img_user_id userId (eq_ img_id imageId from_images)) w
  = (single_row (resolved (owned_with_id imageId userId (images w))), w).
Proof. reflexivity. Qed.

Lemma owned_with_id_In (imageId userId : jsstring) (rows : list Image) (img : Image) :
  In img (owned_with_id imageId userId rows)
  <-> In img rows /\ img_id img = imageId /\ img_user_id img = userId.
Proof. unfold owned_with_id. rewrite !filter_In, !jsstring_eqb_eq. tauto. Qed.

Lemma owned_with_id_miss (imageId userId : jsstring) (rows : list Image) :
  (forall img, In img rows -> img_id img = imageId -> img_user_id img <> userId) ->
  owned_with_id imageId userId rows = [].
Proof.
  intros H. destruct (owned_with_id imageId userId rows) as [| img l] eqn:E;
    [reflexivity |].
  assert (Hin : In img (owned_with_id imageId userId rows)) by (rewrite E; now left).
  apply owned_with_id_In in Hin as [Hin [Hid Hown]]. now apply H in Hin.
Qed.

(** C3, as the code behaves.  When no row of [images] has both the given
    id and the caller as owner (the id does not exist, or belongs to
    someone else), [single()] resolves with an error, the handler throws it
    and its [catch] answers 500: the 404 is not sent.  The tables and the
    bucket are left as they were. *)
Theorem deleteImage_miss (svc : Services) (user : Claims) (imageId : jsstring)
  (w : World) :
  (forall img, In img (images w) -> img_id img = imageId ->
               img_user_id img <> userId user) ->
  exists r w',
    deleteImage svc user imageId w = (Val r, w')
    /\ status r = 500
    /\ status r <> 404
    /\ images w' = images w
    /\ bucket_images w' = bucket_images w
    /\ activities w' = activities w.
Proof.
  intros Hmiss. apply owned_with_id_miss in Hmiss.
  unfold deleteImage, try_catch, bind, await.
  destruct (script w) as [| [| e | e] rest];
    rewrite ?fetch_owned; cbn [images set_script]; rewrite ?Hmiss;
    cbn -[lit];
    (eexists; eexists; split; [reflexivity |]);
    repeat split; discriminate.
Qed.

(** The reply of [single()] never has both [data] and [error] null. *)
Lemma single_row_resolved_cases {A} (rows : list A) :
  (exists r, single_row (resolved rows) = resolved r)
  \/ single_row (resolved rows) = failed not_a_single_row.
Proof.
  destruct rows as [| r [| r' rows]]; [now right | left; now exists r | now right].
Qed.

(** ** Pagination *)

Lemma nearest_double_safe (z : Z) : z < 2 ^ 53 -> nearest_double z = Some z.
Proof.
  intros H. unfold nearest_double. apply Z.ltb_lt in H. now rewrite H.
Qed.

Lemma ToNumber_safe (z : Z) : Z.abs z < 2 ^ 53 -> ToNumber z = Finite z.
Proof.
  intros H. unfold ToNumber. rewrite (nearest_double_safe _ H).
  f_equal. rewrite Z.mul_comm. apply Z.abs_sgn.
Qed.

Lemma ratio_log2_lower (x y : Z) :
  0 < x -> 0 < y ->
  (0 <= ratio_log2 x y -> y * 2 ^ ratio_log2 x y <= x)
  /\ (ratio_log2 x y < 0 -> y <= x * 2 ^ (- ratio_log2 x y))
  /\ Z.log2 x - Z.log2 y - 1 <= ratio_log2 x y <= Z.log2 x - Z.log2 y.
Proof.
  intros Hx Hy. unfold ratio_log2.
  destruct (Z.log2_spec x Hx) as [Hx1 Hx2].
  destruct (Z.log2_spec y Hy) as [Hy1 Hy2].
  pose proof (Z.log2_nonneg x) as Lx. pose proof (Z.log2_nonneg y) as Ly.
  set (lx := Z.log2 x) in *. set (ly := Z.log2 y) in *.
  destruct (0 <=? lx - ly) eqn:Ep.
  - apply Z.leb_le in Ep.
    destruct (x <? y * 2 ^ (lx - ly)) eqn:Et.
    + apply Z.ltb_lt in Et. split; [| split; [| lia]].
      * intros Hp.
        assert (E : 2 ^ lx = 2 ^ (ly + 1) * 2 ^ (lx - ly - 1)).
        { rewrite <- Z.pow_add_r by lia. f_equal. lia. }
        assert (0 < 2 ^ (lx - ly - 1)) by (apply Z.pow_pos_nonneg; lia).
        nia.
      * intros Hp. assert (E : lx = ly) by lia.
        replace (- (lx - ly - 1)) with 1 by lia. rewrite E in *.
        rewrite Z.pow_succ_r in Hy2 by lia. change (2 ^ 1) with 2. lia.
    + apply Z.ltb_ge in Et. split; [intros _; exact Et | split; lia].
  - apply Z.leb_gt in Ep.
    destruct (x * 2 ^ (- (lx - ly)) <? y) eqn:Et.
    + apply Z.ltb_lt in Et. split; [lia | split; [| lia]].
      intros _.
      assert (E : 2 ^ (ly + 1) = 2 ^ lx * 2 ^ (- (lx - ly - 1))).
      { rewrite <- Z.pow_add_r by lia. f_equal. lia. }
      assert (0 < 2 ^ (- (lx - ly - 1))) by (apply Z.pow_pos_nonneg; lia).
      nia.
    + apply Z.ltb_ge in Et. split; [lia | split; [intros _; exact Et | lia]].
Qed.

Lemma ceil_of_bounds (m s c : Z) :
  0 < s -> s * (c - 1) < m <= s * c -> - ((- m) / s) = c.
Proof.
  intros Hs [H1 H2].
  assert (E : (- m) / s = - c).
  { symmetry. apply (Z.div_unique _ _ _ (s * c - m)); lia. }
  lia.
Qed.

Lemma exact_ceiling (x y : Z) :
  0 < y -> y * (- ((- x) / y) - 1) < x <= y * (- ((- x) / y)).
Proof.
  intros Hy. pose proof (Z.div_mod (- x) y ltac:(lia)) as E.
  pose proof (Z.mod_pos_bound (- x) y Hy) as B. nia.
Qed.

Lemma nearest_quotient_ceil_safe (x y : Z) :
  0 < x < 2 ^ 53 -> 0 < y < 2 ^ 53 ->
  ceil_dyadic (nearest_quotient x y) = - ((- x) / y).
Proof.
  intros [Hx Hx53] [Hy Hy53].
  destruct (ratio_log2_lower x y Hx Hy) as (Hp0 & Hpn & Hlo & Hhi).
  assert (Lx : Z.log2 x < 53) by (apply Z.log2_lt_pow2; lia).
  assert (Ly : Z.log2 y < 53) by (apply Z.log2_lt_pow2; lia).
  pose proof (Z.log2_nonneg x) as Lx0. pose proof (Z.log2_nonneg y) as Ly0.
  pose proof (exact_ceiling x y Hy) as [Hc1 Hc2].
  unfold nearest_quotient, ceil_dyadic.
  set (p := ratio_log2 x y) in *.
  set (c := - ((- x) / y)) in *.
  rewrite Z.max_l by lia.
  destruct (Z.eq_dec p 52) as [E | E].
  - rewrite E in *. change (52 - 52) with 0. change (0 <=? 0) with true. cbv iota.
    change (2 ^ 0) with 1. rewrite !Z.mul_1_r.
    assert (Ey : y = 1).
    { specialize (Hp0 ltac:(lia)). change (2 ^ 52) with 4503599627370496 in Hp0.
      change (2 ^ 53) with 9007199254740992 in *. lia. }
    subst y. rewrite Z.div_1_r, Z.mod_1_r. cbn [Z.mul Z.ltb Z.eqb Z.compare orb andb].
    unfold c. rewrite Z.div_1_r. lia.
  - assert (Hp : p < 52) by lia.
    assert (He : (0 <=? p - 52) = false) by (apply Z.leb_gt; lia).
    rewrite He. replace (- (p - 52)) with (52 - p) by lia.
    set (s := 2 ^ (52 - p)).
    assert (Hs : 0 < s) by (apply Z.pow_pos_nonneg; lia).
    assert (Hys : y < 2 * s).
    { unfold s. destruct (Z.lt_ge_cases p 0) as [Hn | Hn].
      - specialize (Hpn Hn).
        replace (52 - p) with (52 + - p) by lia. rewrite Z.pow_add_r by lia.
        change (2 ^ 52) with 4503599627370496.
        change (2 ^ 53) with 9007199254740992 in *.
        assert (0 < 2 ^ (- p)) by (apply Z.pow_pos_nonneg; lia). nia.
      - specialize (Hp0 Hn).
        assert (E53 : 2 ^ 53 = 2 * 2 ^ (52 - p) * 2 ^ p).
        { rewrite <- Z.pow_succ_r by lia. rewrite <- Z.pow_add_r by lia.
          f_equal. lia. }
        assert (0 < 2 ^ p) by (apply Z.pow_pos_nonneg; lia).
        assert (0 < 2 ^ (52 - p)) by (apply Z.pow_pos_nonneg; lia).
        nia. }
    pose proof (Z.div_mod (x * s) y ltac:(lia)) as Ed.
    pose proof (Z.mod_pos_bound (x * s) y Hy) as Bd.
    set (m0 := x * s / y) in *. set (rem := (x * s) mod y) in *.
    apply ceil_of_bounds; [exact Hs |].
    destruct ((y <? 2 * rem) || ((2 * rem =? y) && Z.odd m0)) eqn:Eb.
    + assert (Hrem : 0 < rem).
      { apply orb_true_iff in Eb. destruct Eb as [Eb | Eb].
        - apply Z.ltb_lt in Eb. lia.
        - apply andb_true_iff in Eb. destruct Eb as [Eb _].
          apply Z.eqb_eq in Eb. lia. }
      split; nia.
    + assert (Hrem : 2 * rem <= y).
      { apply orb_false_iff in Eb. destruct Eb as [Eb _].
        apply Z.ltb_ge in Eb. exact Eb. }
      split; nia.
Qed.

Lemma nearest_double_finite (z : Z) :
  0 <= z < 2 ^ 1024 - 2 ^ 970 -> exists d, nearest_double z = Some d.
Proof.
  intros [Hz0 Hz]. unfold nearest_double.
  destruct (z <? 2 ^ 53) eqn:Hb; [eexists; reflexivity |].
  apply Z.ltb_ge in Hb.
  assert (Hl : 53 <= Z.log2 z) by (apply Z.log2_le_pow2; lia).
  assert (Hu : Z.log2 z < 1024) by (apply Z.log2_lt_pow2; lia).
  destruct (Z.log2_spec z ltac:(lia)) as [Hz1 Hz2].
  set (e := Z.log2 z - 52) in *.
  assert (He : 0 < 2 ^ e) by (apply Z.pow_pos_nonneg; lia).
  assert (E : 2 ^ Z.succ (Z.log2 z) = 2 ^ 53 * 2 ^ e).
  { rewrite <- Z.pow_add_r by lia. f_equal. lia. }
  pose proof (Z.div_mod z (2 ^ e) ltac:(lia)) as Ed.
  pose proof (Z.mod_pos_bound z (2 ^ e) He) as Bd.
  set (m0 := z / 2 ^ e) in *. set (rem := z mod 2 ^ e) in *.
  assert (Hm0 : m0 < 2 ^ 53) by nia.
  assert (Hfin : forall m, m <= m0 + 1 -> (m0 = 2 ^ 53 - 1 -> e = 971 -> m = m0) ->
                           m * 2 ^ e < 2 ^ 1024).
  { intros m Hm Htop.
    destruct (Z.eq_dec e 971) as [E971 | Hne].
    - rewrite E971 in *.
      change (2 ^ 1024) with (2 ^ 53 * 2 ^ 971).
      destruct (Z.eq_dec m0 (2 ^ 53 - 1)) as [Em | Hnm].
      + rewrite (Htop Em eq_refl), Em. lia.
      + assert (m <= 2 ^ 53 - 1) by lia. nia.
    - assert (Hle : 2 ^ e <= 2 ^ 970) by (apply Z.pow_le_mono_r; lia).
      change (2 ^ 1024) with (2 ^ 54 * 2 ^ 970).
      change (2 ^ 54) with (2 * 2 ^ 53).
      assert (0 < 2 ^ 970) by (apply Z.pow_pos_nonneg; lia).
      assert (0 < 2 ^ 53) by (apply Z.pow_pos_nonneg; lia). nia. }
  destruct ((2 ^ e <? 2 * rem) || ((2 * rem =? 2 ^ e) && Z.odd m0)) eqn:Eb.
  - assert (Hr : 2 ^ e <= 2 * rem).
    { apply orb_true_iff in Eb. destruct Eb as [Eb | Eb].
      - apply Z.ltb_lt in Eb. lia.
      - apply andb_true_iff in Eb. destruct Eb as [Eb _].
        apply Z.eqb_eq in Eb. lia. }
    assert (Hf : (m0 + 1) * 2 ^ e < 2 ^ 1024).
    { apply Hfin; [lia |]. intros Em E971. exfalso.
      rewrite E971, Em in *.
      change (2 ^ 1024) with (2 ^ 53 * 2 ^ 971) in Hz.
      change (2 ^ 971) with (2 * 2 ^ 970) in *.
      assert (0 < 2 ^ 970) by (apply Z.pow_pos_nonneg; lia). nia. }
    apply Z.ltb_lt in Hf. rewrite Hf. eexists. reflexivity.
  - assert (Hf : m0 * 2 ^ e < 2 ^ 1024) by (apply Hfin; lia).
    apply Z.ltb_lt in Hf. rewrite Hf. eexists. reflexivity.
Qed.

Lemma ToNumber_finite (z : Z) :
  0 < z < 2 ^ 1024 - 2 ^ 970 -> exists d, ToNumber z = Finite d.
Proof.
  intros [Hz0 Hz]. unfold ToNumber. rewrite Z.abs_eq by lia.
  destruct (nearest_double_finite z ltac:(lia)) as [d ->].
  eexists. reflexivity.
Qed.

Lemma nearest_quotient_ceil_below_one (x y : Z) :
  0 < x < y -> y < 2 ^ 1024 ->
  ceil_dyadic (nearest_quotient x y) = 1.
Proof.
  intros [Hx Hxy] Hy.
  destruct (ratio_log2_lower x y Hx ltac:(lia)) as (Hp0 & Hpn & Hlo & Hhi).
  assert (Hl : Z.log2 x <= Z.log2 y) by (apply Z.log2_le_mono; lia).
  unfold nearest_quotient, ceil_dyadic.
  set (p := ratio_log2 x y) in *.
  assert (Hp : p < 0).
  { destruct (Z.lt_ge_cases p 0) as [H | H]; [exact H |].
    assert (E : p = 0) by lia. specialize (Hp0 H). rewrite E in Hp0.
    change (2 ^ 0) with 1 in Hp0. lia. }
  specialize (Hpn Hp).
  set (e := Z.max (p - 52) (-1074)).
  assert (He : e < 0) by (unfold e; lia).
  assert (Hb : (0 <=? e) = false) by (apply Z.leb_gt; exact He).
  rewrite Hb.
  set (s := 2 ^ (- e)).
  assert (Hs : 0 < s) by (apply Z.pow_pos_nonneg; lia).
  assert (Hys : y < 2 * x * s).
  { unfold s, e. destruct (Z.max_spec (p - 52) (-1074)) as [[_ ->] | [_ ->]].
    - change (- -1074) with 1074.
      assert (2 ^ 1024 < 2 ^ 1074) by (apply Z.pow_lt_mono_r; lia). nia.
    - replace (- (p - 52)) with (52 + - p) by lia. rewrite Z.pow_add_r by lia.
      change (2 ^ 52) with 4503599627370496.
      assert (0 < 2 ^ (- p)) by (apply Z.pow_pos_nonneg; lia). nia. }
  pose proof (Z.div_mod (x * s) y ltac:(lia)) as Ed.
  pose proof (Z.mod_pos_bound (x * s) y ltac:(lia)) as Bd.
  assert (Hm0 : 0 <= x * s / y) by (apply Z.div_pos; nia).
  set (m0 := x * s / y) in *. set (rem := (x * s) mod y) in *.
  replace 1 with (- (-1)) at 2 by reflexivity.
  change (- (-1)) with 1.
  apply ceil_of_bounds; [exact Hs |].
  destruct ((y <? 2 * rem) || ((2 * rem =? y) && Z.odd m0)) eqn:Eb.
  - split; nia.
  - assert (Hrem : 2 * rem <= y).
    { apply orb_false_iff in Eb. destruct Eb as [Eb _].
      apply Z.ltb_ge in Eb. exact Eb. }
    split; nia.
Qed.

Lemma nearest_double_large (z d : Z) :
  2 ^ 53 <= z -> nearest_double z = Some d -> 2 ^ 53 <= d < 2 ^ 1024.
Proof.
  intros Hz. unfold nearest_double.
  assert (Hb : (z <? 2 ^ 53) = false) by (apply Z.ltb_ge; exact Hz).
  rewrite Hb.
  assert (Hl : 53 <= Z.log2 z) by (apply Z.log2_le_pow2; lia).
  destruct (Z.log2_spec z ltac:(lia)) as [Hz1 _].
  set (e := Z.log2 z - 52) in *.
  assert (He : 0 < 2 ^ e) by (apply Z.pow_pos_nonneg; lia).
  assert (E : 2 ^ Z.log2 z = 2 ^ 52 * 2 ^ e).
  { rewrite <- Z.pow_add_r by lia. f_equal. lia. }
  assert (Hm0 : 2 ^ 52 <= z / 2 ^ e).
  { apply Z.div_le_lower_bound; [exact He |]. lia. }
  assert (H2e : 2 <= 2 ^ e).
  { change 2 with (2 ^ 1) at 1. apply Z.pow_le_mono_r; lia. }
  set (m0 := z / 2 ^ e) in *.
  destruct ((2 ^ e <? 2 * (z mod 2 ^ e)) || ((2 * (z mod 2 ^ e) =? 2 ^ e) && Z.odd m0)).
  - destruct ((m0 + 1) * 2 ^ e <? 2 ^ 1024) eqn:Ef; [| discriminate].
    intros [= <-]. apply Z.ltb_lt in Ef. split; [| exact Ef].
    change (2 ^ 53) with (2 ^ 52 * 2). change (2 ^ 52) with 4503599627370496 in *. nia.
  - destruct (m0 * 2 ^ e <? 2 ^ 1024) eqn:Ef; [| discriminate].
    intros [= <-]. apply Z.ltb_lt in Ef. split; [| exact Ef].
    change (2 ^ 53) with (2 ^ 52 * 2). change (2 ^ 52) with 4503599627370496 in *. nia.
Qed.

(** Within the doubles: for a count below [2^53] and a positive limit whose
    numeral is a finite number, [Math.ceil(a / b)] is the ceiling of the
    quotient of the integers. *)
Lemma Math_ceil_div_ceiling (a b d : Z) :
  0 <= a < 2 ^ 53 -> 0 < b -> ToNumber b = Finite d ->
  exists k, Math_ceil_div a b = Some k /\ is_ceiling k a b.
Proof.
  intros [Ha Ha53] Hb Hd. unfold Math_ceil_div.
  rewrite (ToNumber_safe a) by (rewrite Z.abs_eq; lia). rewrite Hd.
  unfold ToNumber in Hd. rewrite (Z.abs_eq b) in Hd by lia.
  rewrite (Z.sgn_pos b Hb) in Hd.
  destruct (nearest_double b) as [d' |] eqn:En; [| discriminate].
  rewrite Z.mul_1_l in Hd. injection Hd as ->.
  destruct (Z.lt_ge_cases b (2 ^ 53)) as [Hsafe | Hbig].
  - rewrite (nearest_double_safe _ Hsafe) in En. injection En as <-.
    assert (Hz : (b =? 0) = false) by (apply Z.eqb_neq; lia). rewrite Hz.
    eexists. split; [reflexivity |]. unfold ceil_quotient, is_ceiling.
    destruct (Z.eq_dec a 0) as [-> | Hne].
    + cbn [Z.eqb]. lia.
    + assert (Hnz : (a =? 0) = false) by (apply Z.eqb_neq; exact Hne). rewrite Hnz.
      rewrite (Z.sgn_pos a) by lia. rewrite (Z.sgn_pos b Hb).
      change (0 <? 1 * 1) with true. cbv iota.
      rewrite (Z.abs_eq a), (Z.abs_eq b) by lia.
      rewrite nearest_quotient_ceil_safe by lia.
      apply exact_ceiling. exact Hb.
  - destruct (nearest_double_large b d Hbig En) as [Hd1 Hd2].
    assert (Hz : (d =? 0) = false) by (apply Z.eqb_neq; lia). rewrite Hz.
    eexists. split; [reflexivity |]. unfold ceil_quotient, is_ceiling.
    destruct (Z.eq_dec a 0) as [-> | Hne].
    + cbn [Z.eqb]. lia.
    + assert (Hnz : (a =? 0) = false) by (apply Z.eqb_neq; exact Hne). rewrite Hnz.
      rewrite (Z.sgn_pos a) by lia. rewrite (Z.sgn_pos d) by lia.
      change (0 <? 1 * 1) with true. cbv iota.
      rewrite (Z.abs_eq a), (Z.abs_eq d) by lia.
      rewrite nearest_quotient_ceil_below_one by lia. lia.
Qed.

Lemma is_ceiling_unique (k k' a b : Z) :
  0 < b -> is_ceiling k a b -> is_ceiling k' a b -> k = k'.
Proof. unfold is_ceiling. intros Hb H H'. nia. Qed.

Lemma count_users (w : World) :
  count_exact_head from_users w
  = ({| data := None; error := None;
        count := Some (Z.of_nat (List.length (users w))) |}, w).
Proof. reflexivity. Qed.

(** The shape of every 200 of the user listing. *)
Lemma getAdminUsers_ok (svc : Services) (page limit : option Z)
  (search : option jsstring) (w w' : World) (r : Response) :
  getAdminUsers svc page limit search w = (Val r, w') ->
  status r = 200 ->
  exists rows,
    let total := counted_after_listing (Z.of_nat (List.length (users w))) w in
    r = respond 200
          [("success", JBool true);
           ("users", JArr (map user_listing_json rows));
           ("pagination", JObj
              [("currentPage", json_of_number (parseInt (or_default 1 page)));
               ("totalPages",
                json_of_option JNum (Math_ceil_div (or_zero total) (or_default 10 limit)));
               ("totalUsers", json_of_option JNum total);
               ("limit", json_of_number (parseInt (or_default 10 limit)))])].
Proof.
  unfold getAdminUsers, counted_after_listing.
  match goal with
  | |- context [await (reading ?q)] => generalize q; intros query
  end.
  unfold try_catch, bind, await, reading.
  destruct (script w) as [| o1 rest] eqn:Es.
  - destruct (query w) as [d [e |] c]; cbn -[lit Math_ceil_div];
      [intros [= <- <-]; discriminate |].
    rewrite Es. cbn -[lit Math_ceil_div].
    destruct d as [rows |]; cbn -[lit Math_ceil_div]; intros [= <- <-];
      [| discriminate].
    intros _. now exists rows.
  - destruct o1 as [| e1 | e1]; cbn -[lit Math_ceil_div];
      try (intros [= <- <-]; discriminate).
    destruct (query (set_script w rest)) as [d [e |] c]; cbn -[lit Math_ceil_div];
      [intros [= <- <-]; discriminate |].
    destruct rest as [| [| e2 | e2] rest']; cbn -[lit Math_ceil_div];
      destruct d as [rows |]; cbn -[lit Math_ceil_div]; intros [= <- <-];
      try discriminate; intros _; now exists rows.
Qed.

(** The shape of every 200 of the activity listing. *)
Lemma getActivities_ok (user : Claims) (page limit : option Z)
  (action : option jsstring) (w w' : World) (r : Response) :
  getActivities user page limit action w = (Val r, w') ->
  status r = 200 ->
  exists rows total,
    r = respond 200
          [("success", JBool true);
           ("activities", JArr (map activity_listing_json rows));
           ("pagination", JObj
              [("currentPage", json_of_number (parseInt (or_default 1 page)));
               ("totalPages",
                json_of_option JNum (Math_ceil_div (or_zero total) (or_default 20 limit)));
               ("totalActivities", JNum (or_zero total));
               ("limit", json_of_number (parseInt (or_default 20 limit)))])].
Proof.
  unfold getActivities.
  match goal with
  | |- context [await (count_exact_head ?q)] =>
    generalize (count_exact_head q); intros counting
  end.
  match goal with
  | |- context [await (reading (range ?a ?b ?q))] =>
    generalize (reading (range a b q)); intros listing
  end.
  generalize (reading (limit_ 1 from_activities)); intros testing.
  unfold try_catch, bind, await.
  repeat run_step;
    lazymatch goal with
    | |- (Val (respond 200
               [_; ("activities", JArr (map _ ?rows));
                ("pagination", JObj [_; _; (_, JNum (or_zero ?t)); _])]), _) = _ -> _ =>
      intros [= <- <-]; intros _; exists rows, t; reflexivity
    | |- _ => intros [= <- <-]; discriminate
    end.
Qed.

Lemma range_resolved {A} (from to : Z) (q : Select A) (w : World) (rows : list A) :
  q w = resolved rows -> 0 <= from -> 0 <= to - from + 1 ->
  range from to q w
  = resolved (firstn (Z.to_nat (to - from + 1)) (skipn (Z.to_nat from) rows)).
Proof.
  intros Hq Hf Hl. unfold range, on_rows. rewrite Hq. cbn [data error resolved].
  destruct (Z.leb_spec 0 from); [| lia].
  destruct (Z.leb_spec 0 (to - from + 1)); [| lia]. reflexivity.
Qed.

(** The user listing answers 200 when the database carries out its calls,
    the page is at least the first and the filter is one it accepts. *)
Lemma getAdminUsers_nominal (svc : Services) (page limit : option Z)
  (search : option jsstring) (w : World) :
  script w = [] ->
  1 <= or_default 1 page -> 0 <= or_default 10 limit ->
  (truthy search = true -> or_ilike svc (str search) <> None) ->
  exists r, getAdminUsers svc page limit search w = (Val r, w) /\ status r = 200.
Proof.
  intros Hs Hp Hl Hfilter. unfold getAdminUsers.
  set (p := or_default 1 page) in *. set (l := or_default 10 limit) in *.
  assert (Hq : exists rows,
    (if truthy (Some (or_default [] search))
     then or_ svc (or_default [] search) (order_desc u_created_at from_users)
     else order_desc u_created_at from_users) w = resolved rows).
  { destruct (truthy (Some (or_default [] search))) eqn:Et.
    - destruct search as [s |]; [| discriminate Et]. cbn [or_default] in *.
      specialize (Hfilter Et). cbn [str] in Hfilter.
      unfold or_, on_rows, order_desc, on_rows, from_users. cbn [data error resolved].
      destruct (or_ilike svc s) as [matches |]; [| contradiction].
      eexists. reflexivity.
    - eexists. reflexivity. }
  destruct Hq as [rows Hq].
  unfold try_catch, bind, await, reading. rewrite Hs.
  rewrite (range_resolved _ _ _ _ rows Hq) by nia.
  cbn [resolved error data]. rewrite Hs. rewrite count_users.
  eexists. split; reflexivity.
Qed.

Lemma getActivities_nominal (user : Claims) (page limit : option Z)
  (action : option jsstring) (w : World) :
  script w = [] -> activities_table w = true ->
  1 <= or_default 1 page -> 0 <= or_default 20 limit ->
  exists r, getActivities user page limit action w = (Val r, w) /\ status r = 200.
Proof.
  intros Hs Ht Hp Hl. unfold getActivities.
  set (p := or_default 1 page) in *. set (l := or_default 20 limit) in *.
  match goal with
  | |- context [await (reading (range ?a ?b ?q))] =>
    assert (Hq : exists rows, q w = resolved rows)
  end.
  { destruct (truthy (Some (or_default [] action)));
      unfold eq_, order_desc, embed_images, on_rows, from_activities; rewrite Ht;
      eexists; reflexivity. }
  destruct Hq as [rows Hq].
  match goal with
  | |- context [await (count_exact_head ?q)] =>
    assert (Hc : exists n, count_exact_head q w
                           = ({| data := None; error := None; count := Some n |}, w))
  end.
  { destruct (truthy (Some (or_default [] action)));
      unfold count_exact_head, eq_, on_rows, from_activities; rewrite Ht;
      eexists; reflexivity. }
  destruct Hc as [n Hc].
  assert (Htest : limit_ 1 from_activities w
                  = resolved (firstn (Z.to_nat 1) (activities w))).
  { unfold limit_, on_rows, from_activities. rewrite Ht. reflexivity. }
  unfold try_catch, bind, await, reading. rewrite Hs, Htest.
  cbn [resolved error data]. rewrite Hs.
  rewrite (range_resolved _ _ _ _ rows Hq) by nia.
  cbn [resolved error data]. rewrite Hs, Hc.
  eexists. split; reflexivity.
Qed.

(** C4. The pages of a listing, on the numbers of the program.  These
    are doubles: a positive [limit] below [2^1024 - 2^970] is a finite
    number (a greater one is an infinity, see
    [pagination_totalPages_counterexample]).  For such a limit, every 200 of
    [GET /api/admin/users] and of [GET /api/activities] whose reported
    total is below [2^53] carries a [totalPages] that is the ceiling of
    that total over [limit] (a [null] total of the user listing counts as
    zero, as the division takes it); a limit below [2^53] is echoed as it
    is; and the listings do answer 200 when the database carries out their
    calls on a page that is at least the first, with a window inside the
    integers below [2^53]. *)
Theorem pagination_totalPages (svc : Services) (user : Claims) (page : option Z)
  (l : Z) (search action : option jsstring) (w : World) :
  0 < l < 2 ^ 1024 - 2 ^ 970 ->
  (forall r w',
     getAdminUsers svc page (Some l) search w = (Val r, w') -> status r = 200 ->
     exists total : option Z,
       pagination_field "totalUsers" r = Some (json_of_option JNum total)
       /\ (l < 2 ^ 53 -> pagination_field "limit" r = Some (JNum l))
       /\ (0 <= or_zero total < 2 ^ 53 ->
           exists k,
             pagination_field "totalPages" r = Some (JNum k)
             /\ is_ceiling k (or_zero total) l))
  /\ (forall r w',
        getActivities user page (Some l) action w = (Val r, w') -> status r = 200 ->
        exists total : Z,
          pagination_field "totalActivities" r = Some (JNum total)
          /\ (l < 2 ^ 53 -> pagination_field "limit" r = Some (JNum l))
          /\ (0 <= total < 2 ^ 53 ->
              exists k,
                pagination_field "totalPages" r = Some (JNum k)
                /\ is_ceiling k total l))
  /\ (script w = [] -> 1 <= or_default 1 page -> or_default 1 page * l < 2 ^ 53 ->
      (truthy search = true -> or_ilike svc (str search) <> None) ->
      exists r, getAdminUsers svc page (Some l) search w = (Val r, w)
                /\ status r = 200)
  /\ (script w = [] -> activities_table w = true -> 1 <= or_default 1 page ->
      or_default 1 page * l < 2 ^ 53 ->
      exists r, getActivities user page (Some l) action w = (Val r, w)
                /\ status r = 200).
Proof.
  intros Hl. destruct (ToNumber_finite l Hl) as [d Hd].
  split; [| split; [| split]].
  - intros r w' Hrun Hst.
    destruct (getAdminUsers_ok _ _ _ _ _ _ _ Hrun Hst) as [rows Hr].
    cbv zeta in Hr. cbn [or_default] in Hr.
    set (total := counted_after_listing _ _) in Hr.
    exists total. rewrite Hr. split; [reflexivity |]. split.
    + intros Hsafe. unfold parseInt.
      rewrite (ToNumber_safe l) by (rewrite Z.abs_eq; lia). reflexivity.
    + intros Ht.
      destruct (Math_ceil_div_ceiling (or_zero total) l d Ht (proj1 Hl) Hd)
        as [k [Hk Hceil]].
      exists k. split; [| exact Hceil].
      unfold pagination_field. cbn -[Math_ceil_div parseInt lit]. now rewrite Hk.
  - intros r w' Hrun Hst.
    destruct (getActivities_ok _ _ _ _ _ _ _ Hrun Hst) as [rows [total Hr]].
    cbn [or_default] in Hr.
    exists (or_zero total). rewrite Hr. split; [reflexivity |]. split.
    + intros Hsafe. unfold parseInt.
      rewrite (ToNumber_safe l) by (rewrite Z.abs_eq; lia). reflexivity.
    + intros Ht.
      destruct (Math_ceil_div_ceiling (or_zero total) l d Ht (proj1 Hl) Hd)
        as [k [Hk Hceil]].
      exists k. split; [| exact Hceil].
      unfold pagination_field. cbn -[Math_ceil_div parseInt lit]. now rewrite Hk.
  - intros Hs Hp _ Hf. apply getAdminUsers_nominal; cbn [or_default]; try assumption. lia.
  - intros Hs Ht Hp _. apply getActivities_nominal; cbn [or_default]; try assumption. lia.
Qed.

(** ** Two runs side by side *)

Lemma related_ret {A} (V : World -> World -> Prop) (R : A -> A -> Prop) (a1 a2 : A) :
  R a1 a2 -> related V V R (ret a1) (ret a2).
Proof. intros H w1 w2 HV. cbn. now split. Qed.

Lemma related_throw {A} (V : World -> World -> Prop) (R : A -> A -> Prop) (e : JsError) :
  related V V R (throw e) (throw e).
Proof. intros w1 w2 HV. cbn. now split. Qed.

Lemma related_weaken {A} (V V' V'' : World -> World -> Prop) (R : A -> A -> Prop)
  (m1 m2 : M A) :
  related V V' R m1 m2 -> (forall w1 w2, V' w1 w2 -> V'' w1 w2) ->
  related V V'' R m1 m2.
Proof.
  intros H Hsub w1 w2 HV. specialize (H w1 w2 HV).
  destruct (m1 w1) as [[a1 | e1] w1'], (m2 w2) as [[a2 | e2] w2']; try contradiction;
    destruct H as [H1 H2]; split; auto.
Qed.

Lemma related_bind {A B} (V V' V'' : World -> World -> Prop)
  (R : A -> A -> Prop) (S : B -> B -> Prop)
  (m1 m2 : M A) (k1 k2 : A -> M B) :
  related V V' R m1 m2 ->
  (forall a1 a2, R a1 a2 -> related V' V'' S (k1 a1) (k2 a2)) ->
  (forall w1 w2, V' w1 w2 -> V'' w1 w2) ->
  related V V'' S (bind m1 k1) (bind m2 k2).
Proof.
  intros Hm Hk Hsub w1 w2 HV. unfold bind. specialize (Hm w1 w2 HV).
  destruct (m1 w1) as [[a1 | e1] w1'], (m2 w2) as [[a2 | e2] w2']; try contradiction;
    destruct Hm as [H1 H2].
  - exact (Hk a1 a2 H1 w1' w2' H2).
  - split; auto.
Qed.

Lemma related_try_catch {A} (V V' V'' : World -> World -> Prop) (R : A -> A -> Prop)
  (m1 m2 : M A) (h1 h2 : JsError -> M A) :
  related V V' R m1 m2 ->
  (forall e, related V' V'' R (h1 e) (h2 e)) ->
  (forall w1 w2, V' w1 w2 -> V'' w1 w2) ->
  related V V'' R (try_catch m1 h1) (try_catch m2 h2).
Proof.
  intros Hm Hh Hsub w1 w2 HV. unfold try_catch. specialize (Hm w1 w2 HV).
  destruct (m1 w1) as [[a1 | e1] w1'], (m2 w2) as [[a2 | e2] w2']; try contradiction;
    destruct Hm as [H1 H2].
  - split; auto.
  - subst e2. exact (Hh e1 w1' w2' H2).
Qed.

Lemma firstn_S_agree {A} (n : nat) (s1 s2 : list A) :
  firstn (S n) s1 = firstn (S n) s2 ->
  (s1 = [] /\ s2 = [])
  \/ exists o r1 r2, s1 = o :: r1 /\ s2 = o :: r2 /\ firstn n r1 = firstn n r2.
Proof.
  destruct s1 as [| o1 r1], s2 as [| o2 r2]; cbn [firstn]; intros H;
    try discriminate; [now left |].
  injection H as -> H. right. now exists o2, r1, r2.
Qed.

(** An awaited call keeps two runs together when their scripts agree on
    its outcome and the call itself treats related worlds alike. *)
Lemma related_await {A} (P P' : World -> World -> Prop) (R : Reply A -> Reply A -> Prop)
  (c : Call A) (n : nat) :
  script_blind P ->
  (forall w1 w2, P w1 w2 -> P' w1 w2) ->
  (forall e, R (failed e) (failed e)) ->
  (forall w1 w2, P w1 w2 ->
     R (fst (c w1)) (fst (c w2)) /\ P' (snd (c w1)) (snd (c w2))
     /\ script (snd (c w1)) = script w1 /\ script (snd (c w2)) = script w2) ->
  related (agree (S n) P) (agree n P') R (await c) (await c).
Proof.
  intros Hblind Hsub Hfail Hc w1 w2 [HP Hs]. unfold await.
  apply firstn_S_agree in Hs as [[E1 E2] | [o [r1 [r2 [E1 [E2 Hr]]]]]];
    rewrite E1, E2.
  - destruct (Hc w1 w2 HP) as [HR [HP' [S1 S2]]].
    destruct (c w1) as [a1 w1'], (c w2) as [a2 w2']. cbn [fst snd] in *.
    split; [exact HR |]. split; [exact HP' |]. now rewrite S1, S2, E1, E2.
  - destruct o as [| e | e].
    + destruct (Hc _ _ (Hblind w1 w2 r1 r2 HP)) as [HR [HP' [S1 S2]]].
      destruct (c (set_script w1 r1)) as [a1 w1'], (c (set_script w2 r2)) as [a2 w2'].
      cbn [fst snd] in *. split; [exact HR |]. split; [exact HP' |].
      now rewrite S1, S2.
    + split; [apply Hfail |]. split; [now apply Hsub, Hblind | exact Hr].
    + split; [reflexivity |]. split; [now apply Hsub, Hblind | exact Hr].
Qed.

Lemma agree_le (n m : nat) (P P' : World -> World -> Prop) (w1 w2 : World) :
  (m <= n)%nat -> (forall w1 w2, P w1 w2 -> P' w1 w2) ->
  agree n P w1 w2 -> agree m P' w1 w2.
Proof.
  intros Hle Hsub [HP Hs]. split; [now apply Hsub |].
  replace m with (Nat.min m n) by lia.
  rewrite <- !firstn_firstn. now rewrite Hs.
Qed.

(** ** The activity listing shows a caller their own rows only *)

Lemma same_view_blind (U : jsstring) : script_blind (same_view U).
Proof. intros w1 w2 s1 s2 H. exact H. Qed.

Lemma on_rows_congr {A B} (f : list A -> Reply (list B)) (q1 q2 : Select A)
  (w1 w2 : World) :
  q1 w1 = q2 w2 -> on_rows f q1 w1 = on_rows f q2 w2.
Proof. unfold on_rows. now intros ->. Qed.

Lemma filter_embedded (U : jsstring) (imgs : list Image) (acts : list Activity) :
  filter (fun row : Activity * option Image => jsstring_eqb (act_user_id (fst row)) U)
         (map (embedded imgs) acts)
  = map (embedded imgs) (own_activities U acts).
Proof.
  unfold own_activities. induction acts as [| a acts IH]; [reflexivity |].
  cbn [map filter embedded fst]. destruct (jsstring_eqb (act_user_id a) U).
  - cbn [map]. f_equal. exact IH.
  - exact IH.
Qed.

(** The first step of the listing query, by the caller's rows alone. *)
Lemma own_embedded (U : jsstring) (w : World) :
  eq_ (fun row : Activity * option Image => act_user_id (fst row)) U
      (embed_images from_activities) w
  = if activities_table w
    then resolved (map (embedded (images w)) (own_activities U (activities w)))
    else failed undefined_table.
Proof.
  unfold eq_, embed_images, on_rows, from_activities.
  destruct (activities_table w); cbn [data error resolved failed]; [| reflexivity].
  now rewrite filter_embedded.
Qed.

Lemma own_counted (U : jsstring) (w : World) :
  eq_ act_user_id U from_activities w
  = if activities_table w
    then resolved (own_activities U (activities w))
    else failed undefined_table.
Proof.
  unfold eq_, on_rows, from_activities.
  destruct (activities_table w); reflexivity.
Qed.

Lemma own_embedded_same (U : jsstring) (w1 w2 : World) :
  same_view U w1 w2 ->
  eq_ (fun row : Activity * option Image => act_user_id (fst row)) U
      (embed_images from_activities) w1
  = eq_ (fun row : Activity * option Image => act_user_id (fst row)) U
        (embed_images from_activities) w2.
Proof. intros [Ht [Ho Hi]]. rewrite !own_embedded, Ht, Ho, Hi. reflexivity. Qed.

Lemma own_counted_same (U : jsstring) (w1 w2 : World) :
  same_view U w1 w2 ->
  eq_ act_user_id U from_activities w1 = eq_ act_user_id U from_activities w2.
Proof. intros [Ht [Ho Hi]]. rewrite !own_counted, Ht, Ho. reflexivity. Qed.

(** A call that only reads keeps related worlds related. *)
Lemma reading_related {A} (P : World -> World -> Prop) (R : Reply A -> Reply A -> Prop)
  (q : World -> Reply A) :
  (forall w1 w2, P w1 w2 -> R (q w1) (q w2)) ->
  forall w1 w2, P w1 w2 ->
    R (fst (reading q w1)) (fst (reading q w2))
    /\ P (snd (reading q w1)) (snd (reading q w2))
    /\ script (snd (reading q w1)) = script w1
    /\ script (snd (reading q w2)) = script w2.
Proof. intros H w1 w2 HP. cbn. repeat split; auto. Qed.

Lemma count_exact_head_related {A} (P : World -> World -> Prop) (q : Select A) :
  (forall w1 w2, P w1 w2 -> q w1 = q w2) ->
  forall w1 w2, P w1 w2 ->
    fst (count_exact_head q w1) = fst (count_exact_head q w2)
    /\ P (snd (count_exact_head q w1)) (snd (count_exact_head q w2))
    /\ script (snd (count_exact_head q w1)) = script w1
    /\ script (snd (count_exact_head q w2)) = script w2.
Proof.
  intros H w1 w2 HP. unfold count_exact_head. cbn [fst snd].
  rewrite (H w1 w2 HP). repeat split; auto.
Qed.

Lemma related_ret_anything {A} (V : World -> World -> Prop) (a : A) :
  related V anything Logic.eq (ret a) (ret a).
Proof. intros w1 w2 _. cbn. now split. Qed.

Lemma related_throw_anything {A} (V : World -> World -> Prop) (e : JsError) :
  related V anything (@Logic.eq A) (throw e) (throw e).
Proof. intros w1 w2 _. cbn. now split. Qed.

Lemma to_anything (V : World -> World -> Prop) (w1 w2 : World) :
  V w1 w2 -> anything w1 w2.
Proof. intros _. exact I. Qed.

(** The listing answers two worlds of the same view alike. *)
Lemma getActivities_related (user : Claims) (page limit : option Z)
  (action : option jsstring) :
  related (agree 3 (same_view (userId user))) anything Logic.eq
    (getActivities user page limit action)
    (getActivities user page limit action).
Proof.
  unfold getActivities.
  eapply related_try_catch with (V' := anything);
    [| intros e; apply related_ret_anything | auto].
  eapply related_bind with
    (V' := agree 2 (same_view (userId user)))
    (R := fun r1 r2 : Reply (list Activity) => error r1 = error r2);
    [| | apply to_anything].
  { apply related_await; [apply same_view_blind | auto | reflexivity |].
    apply (reading_related (same_view (userId user))
             (fun r1 r2 : Reply (list Activity) => error r1 = error r2)).
    intros w1 w2 [Ht _].
    unfold limit_, on_rows, from_activities. rewrite Ht.
    destruct (activities_table w2); reflexivity. }
  intros t1 t2 Ht. rewrite <- Ht. destruct (error t1).
  { apply related_ret_anything. }
  eapply related_bind with
    (V' := agree 1 (same_view (userId user))) (R := Logic.eq);
    [| | apply to_anything].
  { apply related_await; [apply same_view_blind | auto | reflexivity |].
    apply (reading_related (same_view (userId user)) Logic.eq).
    intros w1 w2 HP. unfold range. apply on_rows_congr.
    destruct (truthy (Some (or_default [] action))).
    - unfold eq_ at 1 3. apply on_rows_congr.
      unfold order_desc. apply on_rows_congr. now apply own_embedded_same.
    - unfold order_desc. apply on_rows_congr. now apply own_embedded_same. }
  intros l1 l2 <-. destruct (error l1).
  { apply related_throw_anything. }
  eapply related_bind with
    (V' := agree 0 (same_view (userId user))) (R := Logic.eq);
    [| | apply to_anything].
  { apply related_await; [apply same_view_blind | auto | reflexivity |].
    apply count_exact_head_related. intros w1 w2 HP.
    destruct (truthy (Some (or_default [] action))).
    - unfold eq_ at 1 3. apply on_rows_congr. now apply own_counted_same.
    - now apply own_counted_same. }
  intros c1 c2 <-. apply related_ret_anything.
Qed.

Lemma in_insert_desc {A} (key : A -> Z) (r x : A) (l : list A) :
  In x (insert_desc key r l) <-> x = r \/ In x l.
Proof.
  induction l as [| y l IH]; cbn [insert_desc In].
  - intuition.
  - destruct (key y <? key r); cbn [In]; rewrite ?IH; intuition.
Qed.

Lemma in_sort_desc {A} (key : A -> Z) (x : A) (l : list A) :
  In x (sort_desc key l) <-> In x l.
Proof.
  unfold sort_desc. induction l as [| y l IH]; cbn [fold_right In]; [tauto |].
  rewrite in_insert_desc, IH. intuition.
Qed.

Lemma in_window {A} (n m : nat) (x : A) (l : list A) :
  In x (firstn n (skipn m l)) -> In x l.
Proof.
  intros H.
  assert (H' : In x (skipn m l)).
  { rewrite <- (firstn_skipn n (skipn m l)). apply in_or_app. now left. }
  rewrite <- (firstn_skipn m l). apply in_or_app. now right.
Qed.

(** Every row the listing query selects is a row of the caller, with the
    image it names. *)
Lemma listing_rows_own (U action : jsstring) (from to : Z) (w : World)
  (rows : list (Activity * option Image)) :
  let base :=
    order_desc (fun row : Activity * option Image => act_timestamp (fst row))
      (eq_ (fun row : Activity * option Image => act_user_id (fst row)) U
         (embed_images from_activities)) in
  data (range from to
          (if truthy (Some action)
           then eq_ (fun row : Activity * option Image => act_action (fst row)) action base
           else base) w) = Some rows ->
  forall row, In row rows ->
    In (fst row) (activities w) /\ act_user_id (fst row) = U
    /\ row = embedded (images w) (fst row).
Proof.
  cbv zeta. intros Hdata row Hin.
  assert (Hbase : forall r, In r (map (embedded (images w))
                                     (own_activities U (activities w))) ->
            In (fst r) (activities w) /\ act_user_id (fst r) = U
            /\ r = embedded (images w) (fst r)).
  { intros r Hr. apply in_map_iff in Hr as [a [<- Ha]].
    unfold own_activities in Ha. apply filter_In in Ha as [Ha Hu].
    apply jsstring_eqb_eq in Hu. cbn [embedded fst]. auto. }
  apply Hbase. clear Hbase.
  unfold range, order_desc in Hdata.
  destruct (truthy (Some action)).
  - unfold eq_ at 1 in Hdata. unfold on_rows in Hdata.
    rewrite own_embedded in Hdata.
    destruct (activities_table w); cbn [data error resolved failed] in Hdata;
      [| discriminate].
    destruct ((0 <=? from) && (0 <=? to - from + 1)); cbn [data resolved failed] in Hdata;
      [| discriminate].
    injection Hdata as <-. apply in_window in Hin.
    apply filter_In in Hin as [Hin _]. now apply in_sort_desc in Hin.
  - unfold on_rows in Hdata. rewrite own_embedded in Hdata.
    destruct (activities_table w); cbn [data error resolved failed] in Hdata;
      [| discriminate].
    destruct ((0 <=? from) && (0 <=? to - from + 1)); cbn [data resolved failed] in Hdata;
      [| discriminate].
    injection Hdata as <-. apply in_window in Hin.
    now apply in_sort_desc in Hin.
Qed.

(** The rows of every 200 of the activity listing are rows of the caller. *)
Lemma getActivities_rows (user : Claims) (page limit : option Z)
  (action : option jsstring) (w w' : World) (r : Response) :
  getActivities user page limit action w = (Val r, w') ->
  status r = 200 ->
  exists rows,
    get "activities" (body r) = Some (JArr (map activity_listing_json rows))
    /\ forall row, In row rows ->
         In (fst row) (activities w) /\ act_user_id (fst row) = userId user
         /\ row = embedded (images w) (fst row).
Proof.
  unfold getActivities.
  match goal with
  | |- context [await (count_exact_head ?q)] =>
    generalize (count_exact_head q); intros counting
  end.
  match goal with
  | |- context [await (reading (range ?a ?b ?q))] =>
    assert (HQ : forall s rows, data (range a b q (set_script w s)) = Some rows ->
              forall row, In row rows ->
                In (fst row) (activities w) /\ act_user_id (fst row) = userId user
                /\ row = embedded (images w) (fst row))
      by (intros s rows; exact (listing_rows_own _ _ _ _ (set_script w s) rows));
    assert (HQ0 : forall rows, data (range a b q w) = Some rows ->
              forall row, In row rows ->
                In (fst row) (activities w) /\ act_user_id (fst row) = userId user
                /\ row = embedded (images w) (fst row))
      by (intros rows; exact (listing_rows_own _ _ _ _ w rows));
    revert HQ HQ0; generalize (range a b q); intros listing HQ HQ0
  end.
  generalize (limit_ 1 from_activities); intros testing.
  unfold try_catch, bind, await, reading, ret, throw.
  repeat read_step;
    intros [= <- <-]; try discriminate; intros _;
    match goal with
    | E : listing ?w0 = {| data := ?d; error := None; count := _ |} |- _ =>
      exists (or_default [] d); split; [reflexivity |];
      destruct d as [rows |]; cbn [or_default];
      [ first [ exact (HQ0 rows (f_equal data E))
              | exact (HQ0 rows eq_refl)
              | lazymatch w0 with
                | set_script _ ?s => exact (HQ s rows (f_equal data E))
                end ]
      | intros row Hnone; destruct Hnone ]
    end.
Qed.

(** C10. [GET /api/activities] answers a caller from their own rows.  Two
    worlds that agree on the caller's rows of [activities] answer the same
    request alike, rows and total count, however the rows of other users
    differ (the presence of the table, the images and the outcomes of the
    three calls being the same); and every row of a 200 is a row of
    [activities] whose [user_id] is the caller's [userId]. *)
Theorem getActivities_own_rows_only (user : Claims) (page limit : option Z)
  (action : option jsstring) (w1 w2 : World) :
  (activities_table w1 = activities_table w2 ->
   images w1 = images w2 ->
   firstn 3 (script w1) = firstn 3 (script w2) ->
   own_activities (userId user) (activities w1)
   = own_activities (userId user) (activities w2) ->
   fst (getActivities user page limit action w1)
   = fst (getActivities user page limit action w2))
  /\ (forall r w',
        getActivities user page limit action w1 = (Val r, w') -> status r = 200 ->
        exists rows,
          get "activities" (body r) = Some (JArr (map activity_listing_json rows))
          /\ forall row, In row rows ->
               In (fst row) (activities w1)
               /\ act_user_id (fst row) = userId user).
Proof.
  split.
  - intros Ht Hi Hs Ho.
    assert (HV : agree 3 (same_view (userId user)) w1 w2)
      by (split; [repeat split; assumption | exact Hs]).
    pose proof (getActivities_related user page limit action w1 w2 HV) as H.
    destruct (getActivities user page limit action w1) as [[a1 | e1] w1'],
             (getActivities user page limit action w2) as [[a2 | e2] w2'];
      try contradiction; destruct H as [-> _]; reflexivity.
  - intros r w' Hrun Hst.
    destruct (getActivities_rows _ _ _ _ _ _ _ Hrun Hst) as [rows [Hget Hrows]].
    exists rows. split; [exact Hget |]. intros row Hin.
    destruct (Hrows row Hin) as [H1 [H2 _]]. now split.
Qed.

(** ** The total of the user listing is not the total of the search *)

(** C9. With a search string, every 200 of [GET /api/admin/users] reports
    as [totalUsers] what the second, unfiltered count query resolved with:
    the number of all rows of [users] when that call is carried out, and
    [null] when it resolves with an error; [totalPages] is computed from
    that number.  Neither depends on the search string: two searches on the
    same world, when both are answered 200, carry the same [pagination]. *)
Theorem admin_users_total_unfiltered (svc : Services) (page limit : option Z)
  (search : option jsstring) (w w' : World) (r : Response) :
  truthy search = true ->
  getAdminUsers svc page limit search w = (Val r, w') ->
  status r = 200 ->
  let all_rows := Z.of_nat (List.length (users w)) in
  let total := counted_after_listing all_rows w in
  pagination_field "totalUsers" r = Some (json_of_option JNum total)
  /\ pagination_field "totalPages" r
     = Some (json_of_option JNum (Math_ceil_div (or_zero total) (or_default 10 limit)))
  /\ (total = Some all_rows \/ total = None)
  /\ (script w = [] -> pagination_field "totalUsers" r = Some (JNum all_rows))
  /\ (forall search' r2 w2,
        truthy search' = true ->
        getAdminUsers svc page limit search' w = (Val r2, w2) ->
        status r2 = 200 ->
        get "pagination" (body r2) = get "pagination" (body r)).
Proof.
  intros Ht Hrun Hst. cbv zeta.
  destruct (getAdminUsers_ok _ _ _ _ _ _ _ Hrun Hst) as [rows Hr].
  cbv zeta in Hr.
  split; [rewrite Hr; reflexivity |].
  split; [rewrite Hr; reflexivity |].
  split.
  { unfold counted_after_listing. destruct (tl (script w)) as [| [| e | e] rest];
      auto. }
  split.
  { intros Hs. rewrite Hr. unfold counted_after_listing. rewrite Hs. reflexivity. }
  intros search' r2 w2 Ht' Hrun' Hst'.
  destruct (getAdminUsers_ok _ _ _ _ _ _ _ Hrun' Hst') as [rows' Hr'].
  cbv zeta in Hr'. rewrite Hr, Hr'. reflexivity.
Qed.

(** ** A failed insert of the logger does not change the answer *)

Lemma core_eq_blind : script_blind core_eq.
Proof. intros w1 w2 s1 s2 H. exact H. Qed.

Lemma fetch_generate_core (svc : Services) (prompt : jsstring) (w1 w2 : World) :
  core_eq w1 w2 ->
  fst (fetch_generate svc prompt w1) = fst (fetch_generate svc prompt w2)
  /\ core_eq (snd (fetch_generate svc prompt w1)) (snd (fetch_generate svc prompt w2))
  /\ script (snd (fetch_generate svc prompt w1)) = script w1
  /\ script (snd (fetch_generate svc prompt w2)) = script w2.
Proof. intros H. cbn. repeat split; apply H. Qed.

Lemma storage_upload_core (path : jsstring) (buffer : list Z) (w1 w2 : World) :
  core_eq w1 w2 ->
  fst (storage_upload path buffer w1) = fst (storage_upload path buffer w2)
  /\ core_eq (snd (storage_upload path buffer w1)) (snd (storage_upload path buffer w2))
  /\ script (snd (storage_upload path buffer w1)) = script w1
  /\ script (snd (storage_upload path buffer w2)) = script w2.
Proof.
  revert w1 w2. core_call. unfold storage_upload. cbn [bucket_images].
  destruct (existsb _ _); cbn; repeat split.
Qed.

Lemma storage_remove_core (path : jsstring) (w1 w2 : World) :
  core_eq w1 w2 ->
  fst (storage_remove path w1) = fst (storage_remove path w2)
  /\ core_eq (snd (storage_remove path w1)) (snd (storage_remove path w2))
  /\ script (snd (storage_remove path w1)) = script w1
  /\ script (snd (storage_remove path w2)) = script w2.
Proof. revert w1 w2. core_call. cbn. repeat split. Qed.

Lemma insert_images_core (svc : Services) (user_id prompt image_url file_path : jsstring)
  (w1 w2 : World) :
  core_eq w1 w2 ->
  let c := single_of (insert_images svc user_id prompt image_url file_path) in
  fst (c w1) = fst (c w2)
  /\ core_eq (snd (c w1)) (snd (c w2))
  /\ script (snd (c w1)) = script w1
  /\ script (snd (c w2)) = script w2.
Proof. revert w1 w2. core_call. cbn. repeat split. Qed.

Lemma delete_images_core (imageId userId : jsstring) (w1 w2 : World) :
  core_eq w1 w2 ->
  let c := delete_images_eq_id_eq_user_id imageId userId in
  fst (c w1) = fst (c w2)
  /\ core_eq (snd (c w1)) (snd (c w2))
  /\ script (snd (c w1)) = script w1
  /\ script (snd (c w2)) = script w2.
Proof. revert w1 w2. core_call. cbn. repeat split. Qed.

Lemma fetch_owned_core (imageId userId : jsstring) (w1 w2 : World) :
  core_eq w1 w2 ->
  let c := single (eq_ img_user_id userId (eq_ img_id imageId from_images)) in
  fst (c w1) = fst (c w2)
  /\ core_eq (snd (c w1)) (snd (c w2))
  /\ script (snd (c w1)) = script w1
  /\ script (snd (c w2)) = script w2.
Proof.
  intros H. cbv zeta. rewrite !fetch_owned. cbn [fst snd].
  destruct H as (Hu & Hi & Hrest). rewrite Hi. repeat split; tauto.
Qed.

Lemma related_now (V : World -> World -> Prop) :
  (forall w1 w2, V w1 w2 -> clock w1 = clock w2) ->
  related V V Logic.eq now now.
Proof. intros H w1 w2 HV. cbn. split; [now apply H | exact HV]. Qed.

(** The logger, from any two worlds: both runs return. *)
Lemma logActivity_related (svc : Services) (V : World -> World -> Prop)
  (userId action : jsstring) (imageId : option jsstring) (additionalData : Json) :
  related V anything Logic.eq
    (logActivity svc userId action imageId additionalData)
    (logActivity svc userId action imageId additionalData).
Proof.
  intros w1 w2 _.
  destruct (logActivity_returns svc userId action imageId additionalData w1)
    as [w1' [-> _]].
  destruct (logActivity_returns svc userId action imageId additionalData w2)
    as [w2' [-> _]].
  now split.
Qed.

Lemma agree_clock (n : nat) (w1 w2 : World) :
  agree n core_eq w1 w2 -> clock w1 = clock w2.
Proof. intros [H _]. apply H. Qed.

(** [POST /api/generate-image], from two worlds that agree up to the
    logging. *)
Lemma generateImage_related (svc : Services) (user : Claims) (prompt : option jsstring) :
  related (agree 3 core_eq) anything Logic.eq
    (generateImage svc user prompt) (generateImage svc user prompt).
Proof.
  unfold generateImage. destruct (falsy prompt); [apply related_ret_anything |].
  eapply related_try_catch with (V' := anything);
    [| intros e; apply related_ret_anything | auto].
  eapply related_bind with (V' := agree 2 core_eq) (R := Logic.eq);
    [| | apply to_anything].
  { apply related_await; [apply core_eq_blind | auto | reflexivity |].
    apply fetch_generate_core. }
  intros r1 r2 <-. destruct (error r1); [apply related_throw_anything |].
  destruct (data r1) as [imageBuffer |]; [| apply related_throw_anything].
  eapply related_bind with (V' := agree 2 core_eq) (R := Logic.eq);
    [apply related_now, agree_clock | | apply to_anything].
  intros t t' <-.
  eapply related_bind with (V' := agree 1 core_eq) (R := Logic.eq);
    [| | apply to_anything].
  { apply related_await; [apply core_eq_blind | auto | reflexivity |].
    apply storage_upload_core. }
  intros u1 u2 <-. destruct (error u1); [apply related_throw_anything |].
  eapply related_bind with (V' := agree 0 core_eq) (R := Logic.eq);
    [| | apply to_anything].
  { apply related_await; [apply core_eq_blind | auto | reflexivity |].
    apply insert_images_core. }
  intros s1 s2 <-. destruct (error s1); [apply related_throw_anything |].
  destruct (data s1) as [imageRecord |]; [| apply related_throw_anything].
  eapply related_bind with (V' := anything) (R := Logic.eq); [| | auto].
  { apply logActivity_related. }
  intros _ _ _. apply related_ret_anything.
Qed.

Lemma related_pre {A} (V0 V V' : World -> World -> Prop) (R : A -> A -> Prop)
  (m1 m2 : M A) :
  (forall w1 w2, V0 w1 w2 -> V w1 w2) ->
  related V V' R m1 m2 -> related V0 V' R m1 m2.
Proof. intros Hsub H w1 w2 HV. apply H, Hsub, HV. Qed.

(** [DELETE /api/images/:imageId], from two worlds that agree on the
    calls before the logging.  [W] is what is known of the first world,
    [Known] what follows for the reply of the first query, and [m] the
    number of calls between that query and the logging. *)
Lemma deleteImage_related_with (svc : Services) (user : Claims) (imageId : jsstring)
  (m : nat) (Known : Reply Image -> Prop) (W : World -> Prop) :
  (forall e, Known (failed e)) ->
  (forall w, W w ->
     Known (fst (single (eq_ img_user_id (userId user)
                           (eq_ img_id imageId from_images)) w))) ->
  (forall w s, W w -> W (set_script w s)) ->
  (forall r image, Known r -> error r = None -> data r = Some image ->
     if truthy (Some (img_file_path image)) then (2 <= m)%nat else (1 <= m)%nat) ->
  related (agree (S m) (fun w1 w2 => core_eq w1 w2 /\ W w1)) anything Logic.eq
    (deleteImage svc user imageId) (deleteImage svc user imageId).
Proof.
  intros Kfail Kfetch Wblind Hm. unfold deleteImage.
  eapply related_try_catch with (V' := anything);
    [| intros e; apply related_ret_anything | auto].
  eapply related_bind with
    (V' := agree m core_eq) (R := fun r1 r2 => r1 = r2 /\ Known r1);
    [| | apply to_anything].
  { apply related_await.
    - intros w1 w2 s1 s2 [Hc HW]. split; [exact Hc | now apply Wblind].
    - now intros w1 w2 [Hc _].
    - intros e. now split.
    - intros w1 w2 [Hc HW].
      destruct (fetch_owned_core imageId (userId user) w1 w2 Hc) as (H1 & H2 & H3 & H4).
      split; [split; [exact H1 | now apply Kfetch] |].
      split; [exact H2 | split; assumption]. }
  intros r1 r2 [<- HK].
  destruct (error r1) eqn:Eerr; [apply related_throw_anything |].
  destruct (data r1) as [image |] eqn:Edata; [| apply related_ret_anything].
  specialize (Hm r1 image HK Eerr Edata).
  destruct (truthy (Some (img_file_path image))).
  - apply related_pre with (V := agree 2 core_eq);
      [intros w1 w2; now apply agree_le |].
    eapply related_bind with (V' := agree 1 core_eq) (R := Logic.eq);
      [| | apply to_anything].
    { eapply related_bind with (V' := agree 1 core_eq) (R := Logic.eq); [| | auto].
      - apply related_await; [apply core_eq_blind | auto | reflexivity |].
        apply storage_remove_core.
      - intros _ _ _. now apply related_ret. }
    intros _ _ _.
    eapply related_bind with (V' := agree 0 core_eq) (R := Logic.eq);
      [| | apply to_anything].
    { apply related_await; [apply core_eq_blind | auto | reflexivity |].
      apply delete_images_core. }
    intros d1 d2 <-. destruct (error d1); [apply related_throw_anything |].
    eapply related_bind with (V' := anything) (R := Logic.eq); [| | auto].
    { apply logActivity_related. }
    intros _ _ _. apply related_ret_anything.
  - apply related_pre with (V := agree 1 core_eq);
      [intros w1 w2; now apply agree_le |].
    eapply related_bind with (V' := agree 1 core_eq) (R := Logic.eq);
      [now apply related_ret | | apply to_anything].
    intros _ _ _.
    eapply related_bind with (V' := agree 0 core_eq) (R := Logic.eq);
      [| | apply to_anything].
    { apply related_await; [apply core_eq_blind | auto | reflexivity |].
      apply delete_images_core. }
    intros d1 d2 <-. destruct (error d1); [apply related_throw_anything |].
    eapply related_bind with (V' := anything) (R := Logic.eq); [| | auto].
    { apply logActivity_related. }
    intros _ _ _. apply related_ret_anything.
Qed.

Lemma related_fst_eq {A} (V : World -> World -> Prop) (m1 m2 : M A) (w1 w2 : World) :
  related V anything Logic.eq m1 m2 -> V w1 w2 -> fst (m1 w1) = fst (m2 w2).
Proof.
  intros H HV. specialize (H w1 w2 HV).
  destruct (m1 w1) as [[a1 | e1] w1'], (m2 w2) as [[a2 | e2] w2'];
    try contradiction; destruct H as [-> _]; reflexivity.
Qed.

(** C7. A failed insert of the logger is not seen by the caller.
    [logActivity] returns from every world, whatever the outcome of its
    insert and with or without the table, having changed nothing but
    [activities].  And the answers of [POST /api/generate-image] and
    [DELETE /api/images/:imageId], status and body, are the same in two
    worlds that agree on the tables, the bucket and the outcomes of the
    calls made before the logging, whatever the fate of the insert in each:
    carried out, resolved with an error, rejected, or met by a missing
    table. *)
Theorem logging_failure_is_invisible (svc : Services) (user : Claims)
  (prompt : option jsstring) (imageId : jsstring) (w1 w2 : World) :
  core_eq w1 w2 ->
  (forall uid action iid extra,
     exists w',
       logActivity svc uid action iid extra w1 = (Val tt, w')
       /\ same_outside_activities w1 w')
  /\ (firstn 3 (script w1) = firstn 3 (script w2) ->
      fst (generateImage svc user prompt w1) = fst (generateImage svc user prompt w2))
  /\ (firstn (calls_before_logging user imageId w1) (script w1)
      = firstn (calls_before_logging user imageId w1) (script w2) ->
      fst (deleteImage svc user imageId w1) = fst (deleteImage svc user imageId w2)).
Proof.
  intros Hcore. split; [| split].
  - intros uid action iid extra.
    destruct (logActivity_returns svc uid action iid extra w1) as [w' [H1 [H2 _]]].
    now exists w'.
  - intros Hs. apply (related_fst_eq (agree 3 core_eq));
      [apply generateImage_related | now split].
  - unfold calls_before_logging.
    destruct (owned_with_id imageId (userId user) (images w1)) as [| image [| i2 l]] eqn:E.
    + intros Hs.
      apply (related_fst_eq (agree 1 (fun w1' w2' => core_eq w1' w2' /\ images w1' = images w1))).
      * apply deleteImage_related_with with (Known := fun r => data r = None).
        -- reflexivity.
        -- intros w Hw. rewrite fetch_owned, Hw, E. reflexivity.
        -- intros w s Hw. exact Hw.
        -- intros r image HK _ Hd. rewrite HK in Hd. discriminate.
      * split; [split; [exact Hcore | reflexivity] | exact Hs].
    + destruct (truthy (Some (img_file_path image))) eqn:Et; intros Hs.
      * apply (related_fst_eq (agree 3 (fun w1' w2' => core_eq w1' w2' /\ True))).
        -- apply deleteImage_related_with with (Known := fun _ => True); auto.
           intros r im _ _ _.
           destruct (truthy (Some (img_file_path im))); lia.
        -- split; [split; [exact Hcore | exact I] | exact Hs].
      * apply (related_fst_eq
                 (agree 2 (fun w1' w2' => core_eq w1' w2' /\ images w1' = images w1))).
        -- apply deleteImage_related_with
             with (Known := fun r => forall im, data r = Some im -> im = image).
           ++ intros e im Hd. discriminate.
           ++ intros w Hw im. rewrite fetch_owned, Hw, E. cbn. now intros [= ->].
           ++ intros w s Hw. exact Hw.
           ++ intros r im HK _ Hd. rewrite (HK im Hd), Et. lia.
        -- split; [split; [exact Hcore | reflexivity] | exact Hs].
    + intros Hs.
      apply (related_fst_eq (agree 1 (fun w1' w2' => core_eq w1' w2' /\ images w1' = images w1))).
      * apply deleteImage_related_with with (Known := fun r => data r = None).
        -- reflexivity.
        -- intros w Hw. rewrite fetch_owned, Hw, E. reflexivity.
        -- intros w s Hw. exact Hw.
        -- intros r im HK _ Hd. rewrite HK in Hd. discriminate.
      * split; [split; [exact Hcore | reflexivity] | exact Hs].
Qed.

(** ** The 404 of image deletion is out of reach *)

(** Every run of [deleteImage] answers 200 or 500: the branch that sends
    404 needs a reply of [single()] with neither a row nor an error. *)
Lemma deleteImage_answers_200_or_500 (svc : Services) (user : Claims)
  (imageId : jsstring) (w : World) :
  exists r w',
    deleteImage svc user imageId w = (Val r, w')
    /\ (status r = 200 \/ status r = 500).
Proof.
  unfold deleteImage.
  pose proof (logActivity_returns svc) as HL.
  generalize dependent (logActivity svc). intros logger HL.
  unfold try_catch, bind, await, ret, throw.
  repeat
    (match goal with
     | H : script ?v = _ |- context [match script ?v with _ => _ end] => rewrite H
     | |- context [match script ?v with _ => _ end] =>
       destruct (script v) as [| [| ? | ?] ?] eqn:?
     | |- context [match ?s with [] => _ | _ :: _ => _ end] =>
       is_var s; destruct s as [| [| ? | ?] ?]
     | |- context [single (eq_ img_user_id ?u (eq_ img_id ?i from_images)) ?v] =>
       rewrite (fetch_owned i u v)
     | |- context [single_row (resolved ?rows)] =>
       destruct (single_row_resolved_cases rows) as [[? ->] | ->]
     | |- context [logger ?a ?b ?c ?d ?v] =>
       let E := fresh "E" in
       destruct (HL a b c d v) as [? [E _]]; rewrite E
     | |- context [if truthy ?x then _ else _] => destruct (truthy x)
     end;
     cbn -[lit single single_row owned_with_id truthy]);
    (eexists; eexists; split; [reflexivity |]);
    first [left; reflexivity | right; reflexivity].
Qed.

(** ** Worked instances

    The theorems above that carry hypotheses, applied to the sample world. *)

Lemma sample_emails_unique : NoDup (map u_email (users sample_world)).
Proof.
  cbn [map users sample_world].
  constructor; [not_among |]. constructor; [not_among |].
  constructor; [not_among |]. constructor.
Qed.

(** A wrong password for Alice and an email nobody holds are answered by
    the same 401. *)
Lemma login_failures_indistinguishable_witness :
  fst (login sample_services (Some (lit "alice@example.com")) (Some (lit "wrong"))
         world_without_users)
  = Val (respond 401 [("error", JStr (lit "Invalid credentials."))])
  /\ fst (login sample_services (Some (lit "alice@example.com")) (Some (lit "wrong"))
            sample_world)
     = Val (respond 401 [("error", JStr (lit "Invalid credentials."))]).
Proof.
  destruct (login_failures_indistinguishable sample_services
              (lit "alice@example.com") (lit "wrong")
              world_without_users sample_world) as [H1 [H2 _]].
  - intro H. vm_compute in H. discriminate H.
  - intro H. vm_compute in H. discriminate H.
  - intros u Hin. simpl in Hin. destruct Hin.
  - exists (sample_user "u1" "Alice" "alice@example.com" "Secret!Pass" 100).
    split; [now left | reflexivity].
  - intros u Hin Heq. simpl in Hin.
    destruct Hin as [<- | [<- | [<- | []]]].
    + vm_compute. reflexivity.
    + vm_compute in Heq. discriminate Heq.
    + vm_compute in Heq. discriminate Heq.
  - split; [exact H1 | exact H2].
Defined.

(** User u1 deletes image i2, which belongs to u2: the answer is 500. *)
Lemma deleteImage_miss_witness :
  exists r w',
    deleteImage sample_services (sample_claims "u1") (lit "i2") sample_world
    = (Val r, w')
    /\ status r = 500
    /\ status r <> 404
    /\ images w' = images sample_world
    /\ bucket_images w' = bucket_images sample_world
    /\ activities w' = activities sample_world.
Proof.
  apply (deleteImage_miss sample_services (sample_claims "u1") (lit "i2") sample_world).
  intros img Hin Hid. simpl in Hin. destruct Hin as [<- | [<- | []]].
  - vm_compute in Hid. discriminate Hid.
  - intro H. vm_compute in H. discriminate H.
Defined.

(** Three users, two per page, a search for alice: the listing answers 200
    and its [totalPages] is the ceiling of the reported total over 2. *)
Lemma pagination_totalPages_witness :
  exists r total k,
    getAdminUsers sample_services (Some 1) (Some 2) (Some (lit "alice")) sample_world
    = (Val r, sample_world)
    /\ status r = 200
    /\ pagination_field "totalUsers" r = Some (json_of_option JNum total)
    /\ pagination_field "totalPages" r = Some (JNum k)
    /\ is_ceiling k (or_zero total) 2.
Proof.
  destruct (pagination_totalPages sample_services (sample_claims "u1") (Some 1) 2
              (Some (lit "alice")) None sample_world) as [H1 [_ [H3 _]]].
  - split; [lia |]. vm_compute. reflexivity.
  - destruct H3 as [r [Hrun Hst]].
    + reflexivity.
    + simpl. lia.
    + vm_compute. reflexivity.
    + intros _. simpl. discriminate.
    + destruct (H1 r sample_world Hrun Hst) as [total [Ht [_ Hpages]]].
      assert (Hsafe : 0 <= or_zero total < 2 ^ 53).
      { assert (E : total = Some 3).
        { assert (Er : answer_of search_for_alice = r)
            by (unfold answer_of, search_for_alice; rewrite Hrun; reflexivity).
          rewrite <- Er in Ht. vm_compute in Ht.
          destruct total as [n |]; [injection Ht as <-; reflexivity | discriminate Ht]. }
        rewrite E. cbn [or_zero or_default]. split; [lia |]. vm_compute. reflexivity. }
      destruct (Hpages Hsafe) as [k [Hk Hc]].
      exists r, total, k. repeat split; try assumption; apply Hc.
Defined.

(** Without the bound on the limit, [totalPages] is not the ceiling: a
    limit that the engine reads as an infinity divides every total to zero.
    With the three users of the sample world and the limit [10^400], the
    listing is answered 200 with [totalUsers] 3, a [limit] printed [null]
    and [totalPages] 0, which is not the ceiling of [3 / 10^400]. *)
Lemma pagination_totalPages_counterexample :
  exists r,
    getAdminUsers sample_services None (Some (10 ^ 400)) None sample_world
    = (Val r, sample_world)
    /\ status r = 200
    /\ pagination_field "totalUsers" r = Some (JNum 3)
    /\ pagination_field "limit" r = Some JNull
    /\ pagination_field "totalPages" r = Some (JNum 0)
    /\ ~ is_ceiling 0 3 (10 ^ 400).
Proof.
  destruct (getAdminUsers_nominal sample_services None (Some (10 ^ 400)) None
              sample_world) as [r [Hrun Hst]].
  - reflexivity.
  - cbn [or_default]. lia.
  - cbn [or_default]. apply Z.pow_nonneg. lia.
  - intros H. discriminate H.
  - exists r. split; [exact Hrun |]. split; [exact Hst |].
    destruct (getAdminUsers_ok _ _ _ _ _ _ _ Hrun Hst) as [rows Hr].
    cbv zeta in Hr. cbn [or_default] in Hr.
    assert (Et : counted_after_listing
                   (Z.of_nat (List.length (users sample_world))) sample_world
                 = Some 3) by reflexivity.
    rewrite Et in Hr. cbn [or_zero or_default] in Hr.
    assert (En : parseInt (10 ^ 400) = Infinite false) by (vm_compute; reflexivity).
    assert (Ed : Math_ceil_div 3 (10 ^ 400) = Some 0) by (vm_compute; reflexivity).
    rewrite En, Ed in Hr. rewrite Hr.
    split; [reflexivity |]. split; [reflexivity |]. split; [reflexivity |].
    unfold is_ceiling. intros [_ H].
    assert (0 < 10 ^ 400) by (apply Z.pow_pos_nonneg; lia). lia.
Qed.

(** Dan registers, then registers again: 400, and one row for Dan. *)
Lemma register_twice_witness :
  exists r2 w2,
    register sample_services (Some (lit "Daniel")) (Some (lit "dan@example.com"))
      (Some (lit "Zyxwvut?1")) (snd dan_registers) = (Val r2, w2)
    /\ status r2 = 400
    /\ users w2 = users (snd dan_registers)
    /\ (exists row, with_email (lit "dan@example.com") (users (snd dan_registers)) = [row])
    /\ NoDup (map u_email (users w2)).
Proof.
  apply (register_twice sample_services (Some (lit "Dan")) (Some (lit "Abcdefg!"))
           (Some (lit "Daniel")) (Some (lit "Zyxwvut?1")) (lit "dan@example.com")
           sample_world (snd dan_registers) (answer_of dan_registers)).
  - exact sample_emails_unique.
  - reflexivity.
  - vm_compute. reflexivity.
  - vm_compute. reflexivity.
  - vm_compute. reflexivity.
Defined.

(** Dan is registered; a second request with his email comes while the
    lookup resolves with an error: it is answered 201 and two rows hold the
    email. *)
Lemma register_twice_lookup_error_witness :
  exists r w',
    register sample_services (Some (lit "Daniel")) (Some (lit "dan@example.com"))
      (Some (lit "Zyxwvut?1")) world_lookup_down = (Val r, w')
    /\ status r = 201
    /\ List.length (with_email (lit "dan@example.com") (users w')) = 2%nat
    /\ ~ NoDup (map u_email (users w')).
Proof.
  destruct (register_twice_lookup_error sample_services (lit "Daniel")
              (lit "dan@example.com") (lit "Zyxwvut?1")
              (Error (lit "timeout")) [] world_lookup_down)
    as (r & w' & row & Hrun & Hst & Hu & Hmail & Hdup).
  - vm_compute. discriminate.
  - vm_compute. discriminate.
  - vm_compute. reflexivity.
  - vm_compute. do 3 right. left. reflexivity.
  - reflexivity.
  - reflexivity.
  - exists r, w'. split; [exact Hrun |]. split; [exact Hst |].
    split; [| exact Hdup].
    rewrite Hu, with_email_app. unfold with_email at 2. cbn [filter].
    rewrite Hmail, jsstring_eqb_refl. rewrite length_app. cbn [List.length].
    vm_compute. reflexivity.
Defined.

(** With the table missing and the insert rejected, generation and
    deletion answer as they do when the insert is carried out. *)
Lemma logging_failure_is_invisible_witness :
  fst (generateImage sample_services (sample_claims "u1") (Some (lit "a red fox"))
         world_logging_up)
  = fst (generateImage sample_services (sample_claims "u1") (Some (lit "a red fox"))
           world_logging_down)
  /\ fst (deleteImage sample_services (sample_claims "u1") (lit "i1") world_logging_up)
     = fst (deleteImage sample_services (sample_claims "u1") (lit "i1") world_logging_down).
Proof.
  destruct (logging_failure_is_invisible sample_services (sample_claims "u1")
              (Some (lit "a red fox")) (lit "i1")
              world_logging_up world_logging_down) as [_ [Hg Hd]].
  - repeat split.
  - split; [apply Hg | apply Hd]; vm_compute; reflexivity.
Defined.

(** The search for alice lists one user and reports the three of the
    table, on two pages. *)
Lemma admin_users_total_unfiltered_witness :
  pagination_field "totalUsers" (answer_of search_for_alice) = Some (JNum 3)
  /\ pagination_field "totalPages" (answer_of search_for_alice) = Some (JNum 2)
  /\ exists row, get "users" (body (answer_of search_for_alice)) = Some (JArr [row]).
Proof.
  destruct (admin_users_total_unfiltered sample_services (Some 1) (Some 2)
              (Some (lit "alice")) sample_world (snd search_for_alice)
              (answer_of search_for_alice)) as [H1 [H2 _]].
  - reflexivity.
  - vm_compute. reflexivity.
  - vm_compute. reflexivity.
  - split; [exact H1 |]. split; [exact H2 |].
    vm_compute. eexists. reflexivity.
Defined.

(** ** Runs on the sample world *)

Example validatePassword_runs :
  isValid (validatePassword (lit "Abcdefg!")) = true
  /\ isValid (validatePassword (lit "abcdefg!")) = false
  /\ isValid (validatePassword (lit "Abcdefgh")) = false
  /\ isValid (validatePassword (lit "Abcdef!")) = false
  /\ errorMessages (errors (validatePassword (lit "abc")))
     = [msg_minLength; msg_hasUppercase; msg_hasSpecialChar].
Proof. vm_compute. repeat split. Qed.

(** User u1 deletes image i1, their own: 200, the row and the file are
    gone, one activity tagged delete is added. *)
Example deleteImage_own_run :
  let run := deleteImage sample_services (sample_claims "u1") (lit "i1") sample_world in
  status (answer_of run) = 200
  /\ map img_id (images (snd run)) = [lit "i2"]
  /\ map fst (bucket_images (snd run)) = [lit "generated/u2_2_generated.png"]
  /\ map act_action (activities (snd run))
     = [lit "generate"; lit "generate"; lit "download"; lit "delete"].
Proof. vm_compute. repeat split. Qed.

(** An image of someone else and an image that does not exist: 500, with
    the message of [single()] as details. *)
Example deleteImage_miss_runs :
  let foreign := deleteImage sample_services (sample_claims "u1") (lit "i2") sample_world in
  let missing := deleteImage sample_services (sample_claims "u1") (lit "i9") sample_world in
  status (answer_of foreign) = 500
  /\ status (answer_of missing) = 500
  /\ get "details" (body (answer_of foreign))
     = Some (JStr (lit "JSON object requested, multiple (or no) rows returned"))
  /\ images (snd foreign) = images sample_world
  /\ images (snd missing) = images sample_world.
Proof. vm_compute. repeat split. Qed.

(** The gate on three headers. *)
Example protect_runs :
  let handler := fun user : Claims => ret (respond 200 [("id", JStr (userId user))]) in
  fst (protect sample_services None handler sample_world)
  = Val (respond 401 [("error", JStr (lit "Not authenticated, no token provided."))])
  /\ fst (protect sample_services (Some (lit "Basic dTE6cHc=")) handler sample_world)
     = Val (respond 401 [("error", JStr (lit "Not authenticated, no token provided."))])
  /\ fst (protect sample_services (Some (lit "Bearer forged")) handler sample_world)
     = Val (respond 401 [("error", JStr (lit "Not authenticated, token is invalid."))])
  /\ fst (protect sample_services (Some (lit "Bearer tok-u1")) handler sample_world)
     = Val (respond 200 [("id", JStr (lit "u1"))]).
Proof. vm_compute. repeat split. Qed.

(** The logging endpoint with the table missing and the insert rejected. *)
Example postActivitiesLog_runs :
  status (answer_of (postActivitiesLog sample_services (sample_claims "u1")
                       (Some (lit "download")) (Some (lit "i1")) None
                       (set_script world_logging_down
                          [Rejects (Error (lit "connection reset"))]))) = 200
  /\ status (answer_of (postActivitiesLog sample_services (sample_claims "u1")
                          (Some (lit "download")) None None world_logging_down)) = 200
  /\ status (answer_of (postActivitiesLog sample_services (sample_claims "u1")
                          (Some []) None None sample_world)) = 400
  /\ status (answer_of (postActivitiesLog sample_services (sample_claims "u1")
                          None None None sample_world)) = 400.
Proof. vm_compute. repeat split. Qed.

(** The listing of u1 is the same with and without the rows of u2, newest
    first: the download, then the generation. *)
Example getActivities_runs :
  let here := getActivities (sample_claims "u1") None None None sample_world in
  let alone := getActivities (sample_claims "u1") None None None world_of_u1_alone in
  fst here = fst alone
  /\ status (answer_of here) = 200
  /\ pagination_field "totalActivities" (answer_of here) = Some (JNum 2)
  /\ pagination_field "totalPages" (answer_of here) = Some (JNum 1)
  /\ (exists first second,
        get "activities" (body (answer_of here)) = Some (JArr [first; second])
        /\ get "action" first = Some (JStr (lit "download"))
        /\ get "action" second = Some (JStr (lit "generate"))).
Proof.
  vm_compute. repeat split. eexists. eexists. repeat split.
Qed.

(** Generation: the answer names the new row, and the logger adds its
    activity with the first hundred code units of the prompt. *)
Example generateImage_run :
  let run := generateImage sample_services (sample_claims "u1")
               (Some (lit "a red fox")) sample_world in
  status (answer_of run) = 200
  /\ get "imageId" (body (answer_of run)) = Some (JStr (lit "id-10"))
  /\ map img_id (images (snd run)) = [lit "i1"; lit "i2"; lit "id-10"]
  /\ map act_action (activities (snd run))
     = [lit "generate"; lit "generate"; lit "download"; lit "generate"].
Proof. vm_compute. repeat split. Qed.

(** * Further properties *)

(** ** The admin gate *)

Lemma bearer_head (token : jsstring) :
  startsWith (lit "Bearer " ++ token) (lit "Bearer ") = true.
Proof. apply startsWith_app. now exists token. Qed.

Lemma bearer_token (token : jsstring) :
  ~ In 32 token ->
  nth_error (split_space (lit "Bearer " ++ token)) 1 = Some token.
Proof.
  intros H. rewrite split_space_Bearer, (split_space_no_space _ H). reflexivity.
Qed.

(** [adminProtect] on a header that carries a token without spaces. *)
Lemma adminProtect_bearer (svc : Services) (next : Claims -> M Response)
  (w : World) (token : jsstring) :
  ~ In 32 token ->
  adminProtect svc (Some (lit "Bearer " ++ token)) next w =
  match jwt_verify svc token (clock w / 1000) with
  | Some decoded =>
    if negb (jsstring_eqb (email decoded) (lit "admin@dreamina.com"))
       && negb (match role decoded with
                | Some r => jsstring_eqb r (lit "admin")
                | None => false
                end)
    then (Val (respond 403
                 [("error", JStr (lit "Access denied. Admin privileges required."))]), w)
    else next decoded w
  | None => (Val (respond 401 [("error", JStr (lit "Invalid admin token."))]), w)
  end.
Proof.
  intros Hsp. unfold adminProtect. cbn [str].
  match goal with
  | |- context [falsy ?x] => change (falsy x) with false
  end.
  rewrite bearer_head. cbn [negb orb]. rewrite (bearer_token _ Hsp).
  unfold bind, now. destruct (jwt_verify svc token (clock w / 1000)) as [d |];
    [| reflexivity].
  destruct (negb _ && negb _); reflexivity.
Qed.

(** X1. [adminProtect] answers 401 without running the handler when the
    header is absent or does not start with the scheme, and when the token
    fails [jwt.verify]; it answers 403, still without running the handler,
    when the token verifies but its email is not the administrator's
    address and its role is not [admin]; it runs the handler on the claims
    when either the email or the role is the administrator's. *)
Theorem adminProtect_gate (svc : Services) (next : Claims -> M Response) (w : World) :
  let no_token :=
    respond 401 [("error", JStr (lit "Not authenticated, no token provided."))] in
  let invalid := respond 401 [("error", JStr (lit "Invalid admin token."))] in
  let denied :=
    respond 403 [("error", JStr (lit "Access denied. Admin privileges required."))] in
  adminProtect svc None next w = (Val no_token, w)
  /\ (forall h, startsWith h (lit "Bearer ") = false ->
        adminProtect svc (Some h) next w = (Val no_token, w))
  /\ (forall token, ~ In 32 token ->
        jwt_verify svc token (clock w / 1000) = None ->
        adminProtect svc (Some (lit "Bearer " ++ token)) next w = (Val invalid, w))
  /\ (forall token U, ~ In 32 token ->
        jwt_verify svc token (clock w / 1000) = Some U ->
        email U <> lit "admin@dreamina.com" ->
        role U <> Some (lit "admin") ->
        adminProtect svc (Some (lit "Bearer " ++ token)) next w = (Val denied, w))
  /\ (forall token U, ~ In 32 token ->
        jwt_verify svc token (clock w / 1000) = Some U ->
        email U = lit "admin@dreamina.com" \/ role U = Some (lit "admin") ->
        adminProtect svc (Some (lit "Bearer " ++ token)) next w = next U w).
Proof.
  cbv zeta. split; [reflexivity |]. split.
  { intros h Hh. unfold adminProtect. cbn [str]. rewrite Hh. cbn [negb].
    rewrite orb_true_r. reflexivity. }
  split.
  { intros token Hsp Hv. etransitivity; [exact (adminProtect_bearer svc next w token Hsp) |].
    rewrite Hv. reflexivity. }
  split.
  { intros token U Hsp Hv He Hr.
    etransitivity; [exact (adminProtect_bearer svc next w token Hsp) |].
    rewrite Hv. apply jsstring_eqb_neq in He. rewrite He.
    destruct (role U) as [r |].
    - assert (Hr' : r <> lit "admin") by (intros ->; now apply Hr).
      apply jsstring_eqb_neq in Hr'. rewrite Hr'. reflexivity.
    - reflexivity. }
  intros token U Hsp Hv Hadmin.
  etransitivity; [exact (adminProtect_bearer svc next w token Hsp) |].
  rewrite Hv. destruct Hadmin as [He | Hr].
  - rewrite He, jsstring_eqb_refl. reflexivity.
  - rewrite Hr, jsstring_eqb_refl. cbn [negb]. rewrite andb_false_r. reflexivity.
Qed.

(** ** Registration and login, beyond the failures *)

Lemma test_class_false_iff (cls : Z -> bool) (s : jsstring) :
  test_class cls s = false <-> forall c, In c s -> cls c = false.
Proof.
  split.
  - intros H c Hin. destruct (cls c) eqn:E; [| reflexivity].
    assert (Ht : test_class cls s = true) by (apply test_class_exists; now exists c).
    rewrite H in Ht. discriminate Ht.
  - apply test_class_none.
Qed.

(** The itemised list, rule by rule. *)
Lemma errorMessages_of_validation (password : jsstring) :
  errorMessages (errors (validatePassword password))
  = (if 8 <=? js_length password then [] else [msg_minLength])
    ++ (if test_class is_uppercase password then [] else [msg_hasUppercase])
    ++ (if test_class is_special password then [] else [msg_hasSpecialChar]).
Proof.
  unfold validatePassword, errorMessages.
  cbn [errors minLength hasUppercase hasSpecialChar].
  destruct (8 <=? js_length password), (test_class is_uppercase password),
    (test_class is_special password); reflexivity.
Qed.

Lemma errorMessages_In_minLength (password : jsstring) :
  In msg_minLength (errorMessages (errors (validatePassword password)))
  <-> js_length password < 8.
Proof.
  rewrite errorMessages_of_validation.
  destruct (Z.leb_spec 8 (js_length password)) as [Hl | Hl];
    destruct (test_class is_uppercase password), (test_class is_special password);
    cbn [app In]; split; intros H;
    first [ lia | solve [among_messages] | none_of_messages messages_distinct H ].
Qed.

Lemma errorMessages_In_hasUppercase (password : jsstring) :
  In msg_hasUppercase (errorMessages (errors (validatePassword password)))
  <-> forall c, In c password -> ~ 65 <= c <= 90.
Proof.
  rewrite errorMessages_of_validation.
  assert (Hu : test_class is_uppercase password = false
               <-> forall c, In c password -> ~ 65 <= c <= 90).
  { rewrite test_class_false_iff. split; intros H c Hin.
    - intros Hr. apply is_uppercase_range in Hr. rewrite (H c Hin) in Hr. discriminate.
    - destruct (is_uppercase c) eqn:E; [| reflexivity].
      apply is_uppercase_range in E. now apply H in E. }
  rewrite <- Hu.
  destruct (8 <=? js_length password), (test_class is_uppercase password),
    (test_class is_special password);
    cbn [app In]; split; intros H;
    first [ reflexivity | discriminate H | solve [among_messages] | none_of_messages messages_distinct H ].
Qed.

Lemma errorMessages_In_hasSpecialChar (password : jsstring) :
  In msg_hasSpecialChar (errorMessages (errors (validatePassword password)))
  <-> forall c, In c password -> ~ In c special_chars.
Proof.
  rewrite errorMessages_of_validation.
  assert (Hs : test_class is_special password = false
               <-> forall c, In c password -> ~ In c special_chars).
  { rewrite test_class_false_iff. split; intros H c Hin.
    - intros Hr. apply is_special_In in Hr. rewrite (H c Hin) in Hr. discriminate.
    - destruct (is_special c) eqn:E; [| reflexivity].
      apply is_special_In in E. now apply H in E. }
  rewrite <- Hs.
  destruct (8 <=? js_length password), (test_class is_uppercase password),
    (test_class is_special password);
    cbn [app In]; split; intros H;
    first [ reflexivity | discriminate H | solve [among_messages] | none_of_messages messages_distinct H ].
Qed.

Lemma errorMessages_nonempty (password : jsstring) :
  isValid (validatePassword password) = false ->
  errorMessages (errors (validatePassword password)) <> [].
Proof.
  rewrite errorMessages_of_validation. unfold validatePassword. cbn [isValid].
  destruct (8 <=? js_length password), (test_class is_uppercase password),
    (test_class is_special password); cbn [andb app]; intros H;
    try discriminate H; discriminate.
Qed.

(** X2. [register] turns a request down before it asks the database
    anything: with a field missing or empty, and with a password that fails
    the policy, it answers 400 and the world is what it was, script
    included.  For a weak password the [details] are the messages of the
    rules that fail, each present exactly when its rule fails, and there is
    at least one. *)
Theorem register_rejects_without_lookup (svc : Services)
  (fullName mail password : option jsstring) (w : World) :
  (falsy mail || falsy password || falsy fullName = true ->
   register svc fullName mail password w
   = (Val (respond 400
        [("error", JStr (lit "Vui lòng cung cấp đầy đủ họ tên, email và mật khẩu."))]), w))
  /\ (falsy mail || falsy password || falsy fullName = false ->
      isValid (validatePassword (str password)) = false ->
      exists msgs,
        register svc fullName mail password w
        = (Val (respond 400
             [("error", JStr (lit "Mật khẩu không đáp ứng yêu cầu bảo mật"));
              ("details", JArr (map JStr msgs))]), w)
        /\ msgs <> []
        /\ (In msg_minLength msgs <-> js_length (str password) < 8)
        /\ (In msg_hasUppercase msgs
            <-> forall c, In c (str password) -> ~ 65 <= c <= 90)
        /\ (In msg_hasSpecialChar msgs
            <-> forall c, In c (str password) -> ~ In c special_chars)).
Proof.
  split.
  - intros H. unfold register. rewrite H. reflexivity.
  - intros H Hv. exists (errorMessages (errors (validatePassword (str password)))).
    split; [unfold register; rewrite H, Hv; reflexivity |].
    split; [now apply errorMessages_nonempty |].
    split; [apply errorMessages_In_minLength |].
    split; [apply errorMessages_In_hasUppercase | apply errorMessages_In_hasSpecialChar].
Qed.

(** The run of a registration that passes the checks, on a table without
    the email and with the two calls carried out. *)
Lemma register_run (svc : Services) (fullName mail password : jsstring) (w : World) :
  fullName <> [] -> mail <> [] ->
  isValid (validatePassword password) = true ->
  with_email mail (users w) = [] ->
  script w = [] ->
  register svc (Some fullName) (Some mail) (Some password) w
  = (Val (respond 201
       [("message", JStr (lit "Tài khoản đã được tạo thành công!"));
        ("user", JObj [("id", JStr (gen_random_uuid svc (next_serial w)));
                       ("email", JStr mail);
                       ("full_name", JStr fullName)])]),
     set_next_serial
       (set_users w
          (users w ++
           [{| u_id := gen_random_uuid svc (next_serial w);
               u_full_name := fullName; u_email := mail;
               u_hashed_password := bcrypt_hash svc password 12;
               u_bio := None; u_avatar_url := None;
               u_created_at := clock w; u_updated_at := None |}]))
       (next_serial w + 1)).
Proof.
  intros Hf Hm Hv Habs Hs.
  assert (Hp : password <> []).
  { intros ->. vm_compute in Hv. discriminate Hv. }
  unfold register.
  rewrite (falsy_Some _ Hf), (falsy_Some _ Hm), (falsy_Some _ Hp). cbn [orb str].
  rewrite Hv. cbn [negb].
  unfold try_catch, bind, await. rewrite Hs, lookup_by_email, Habs.
  cbn [single_row resolved data error failed fst snd]. rewrite Hs.
  reflexivity.
Qed.

(** X3. A registration that passes the checks, for an email that no row
    holds and with the database carrying out its calls, is answered 201.
    The answer names the id, the email and the name of the new user and
    nothing else; [users] gains exactly one row, which holds the password
    as [bcrypt.hash(password, 12)], never the password itself; the other
    tables and the bucket are untouched. *)
Theorem register_creates_user (svc : Services) (fullName mail password : jsstring)
  (w : World) :
  fullName <> [] -> mail <> [] ->
  isValid (validatePassword password) = true ->
  with_email mail (users w) = [] ->
  script w = [] ->
  exists r w' row,
    register svc (Some fullName) (Some mail) (Some password) w = (Val r, w')
    /\ status r = 201
    /\ get "user" (body r) = Some (JObj [("id", JStr (u_id row));
                                         ("email", JStr mail);
                                         ("full_name", JStr fullName)])
    /\ users w' = users w ++ [row]
    /\ u_email row = mail /\ u_full_name row = fullName
    /\ u_hashed_password row = bcrypt_hash svc password 12
    /\ images w' = images w /\ activities w' = activities w
    /\ bucket_images w' = bucket_images w.
Proof.
  intros Hf Hm Hv Habs Hs.
  eexists. eexists.
  exists {| u_id := gen_random_uuid svc (next_serial w);
            u_full_name := fullName; u_email := mail;
            u_hashed_password := bcrypt_hash svc password 12;
            u_bio := None; u_avatar_url := None;
            u_created_at := clock w; u_updated_at := None |}.
  split; [now apply register_run |].
  cbn. repeat split.
Qed.

(** The run of a login that finds one row whose hash matches. *)
Lemma login_run (svc : Services) (mail password : jsstring) (w : World) (u : User) :
  mail <> [] -> password <> [] ->
  with_email mail (users w) = [u] ->
  bcrypt_compare svc password (u_hashed_password u) = true ->
  carried_out_next w = true ->
  fst (login svc (Some mail) (Some password) w)
  = Val (respond 200
      [("token", JStr (jwt_sign svc
                         {| userId := u_id u; email := u_email u; role := None |}
                         (clock w / 1000) 86400));
       ("user", JObj [("id", JStr (u_id u));
                      ("fullName", JStr (u_full_name u));
                      ("email", JStr (u_email u));
                      ("avatarUrl", json_of_option JStr (u_avatar_url u))])]).
Proof.
  intros Hm Hp Hrow Hcmp Hnext. unfold login.
  rewrite (falsy_Some _ Hm), (falsy_Some _ Hp). cbn [orb str].
  unfold try_catch, bind, await, now, carried_out_next in *.
  destruct (script w) as [| [| e | e] rest]; try discriminate Hnext;
    rewrite lookup_by_email, ?set_script_users, Hrow;
    cbn [single_row resolved data error failed fst snd];
    rewrite Hcmp; reflexivity.
Qed.

(** X4. Registration and login compose: after a registration that is
    answered 201, a login with the same email and password is answered 200
    with a token signed for the new user's id and email, valid one day,
    provided [bcrypt.compare] accepts the password against the hash that
    [bcrypt.hash] made of it. *)
Theorem register_then_login (svc : Services) (fullName mail password : jsstring)
  (w : World) :
  fullName <> [] -> mail <> [] ->
  isValid (validatePassword password) = true ->
  with_email mail (users w) = [] ->
  script w = [] ->
  bcrypt_compare svc password (bcrypt_hash svc password 12) = true ->
  let registered := register svc (Some fullName) (Some mail) (Some password) w in
  let id := gen_random_uuid svc (next_serial w) in
  status (answer_of registered) = 201
  /\ fst (login svc (Some mail) (Some password) (snd registered))
     = Val (respond 200
         [("token", JStr (jwt_sign svc
                            {| userId := id; email := mail; role := None |}
                            (clock w / 1000) 86400));
          ("user", JObj [("id", JStr id);
                         ("fullName", JStr fullName);
                         ("email", JStr mail);
                         ("avatarUrl", JNull)])]).
Proof.
  intros Hf Hm Hv Habs Hs Hcmp. cbv zeta.
  assert (Hp : password <> []).
  { intros ->. vm_compute in Hv. discriminate Hv. }
  rewrite (register_run svc fullName mail password w Hf Hm Hv Habs Hs).
  split; [reflexivity |]. cbn [snd].
  rewrite (login_run svc mail password _
             {| u_id := gen_random_uuid svc (next_serial w);
                u_full_name := fullName; u_email := mail;
                u_hashed_password := bcrypt_hash svc password 12;
                u_bio := None; u_avatar_url := None;
                u_created_at := clock w; u_updated_at := None |} Hm Hp).
  - reflexivity.
  - cbn [users set_next_serial set_users]. rewrite with_email_app, Habs.
    unfold with_email. cbn [filter app u_email]. rewrite jsstring_eqb_refl. reflexivity.
  - exact Hcmp.
  - unfold carried_out_next. cbn [script set_next_serial set_users]. now rewrite Hs.
Qed.

(** [protect] on a header that carries a token without spaces. *)
Lemma protect_bearer (svc : Services) (next : Claims -> M Response)
  (w : World) (token : jsstring) :
  ~ In 32 token ->
  protect svc (Some (lit "Bearer " ++ token)) next w =
  match jwt_verify svc token (clock w / 1000) with
  | Some decoded => next decoded w
  | None =>
    (Val (respond 401 [("error", JStr (lit "Not authenticated, token is invalid."))]), w)
  end.
Proof.
  intros Hsp. unfold protect. cbn [str].
  match goal with
  | |- context [falsy ?x] => change (falsy x) with false
  end.
  rewrite bearer_head. cbn [negb orb]. rewrite (bearer_token _ Hsp).
  unfold bind, now. destruct (jwt_verify svc token (clock w / 1000)); reflexivity.
Qed.

(** X5. A login with the right password is answered 200 with a token that
    [jwt.sign] made of the row's id and email, valid for 86400 seconds, and
    with the id, name, email and avatar of the row, not its hash; the world
    is untouched apart from the script.  When [jwt.verify] gives back
    claims for that token, a request that carries it as a bearer passes
    [protect] and reaches its handler with those claims. *)
Theorem login_issues_token (svc : Services) (mail password : jsstring)
  (w : World) (u : User) :
  mail <> [] -> password <> [] ->
  with_email mail (users w) = [u] ->
  bcrypt_compare svc password (u_hashed_password u) = true ->
  carried_out_next w = true ->
  let token := jwt_sign svc {| userId := u_id u; email := u_email u; role := None |}
                 (clock w / 1000) 86400 in
  fst (login svc (Some mail) (Some password) w)
  = Val (respond 200
      [("token", JStr token);
       ("user", JObj [("id", JStr (u_id u));
                      ("fullName", JStr (u_full_name u));
                      ("email", JStr (u_email u));
                      ("avatarUrl", json_of_option JStr (u_avatar_url u))])])
  /\ users (snd (login svc (Some mail) (Some password) w)) = users w
  /\ (forall decoded next,
        ~ In 32 token ->
        jwt_verify svc token (clock w / 1000) = Some decoded ->
        protect svc (Some (lit "Bearer " ++ token)) next w = next decoded w).
Proof.
  intros Hm Hp Hrow Hcmp Hnext. cbv zeta.
  split; [now apply login_run |]. split.
  - unfold login. rewrite (falsy_Some _ Hm), (falsy_Some _ Hp). cbn [orb str].
    unfold try_catch, bind, await, now, carried_out_next in *.
    destruct (script w) as [| [| e | e] rest]; try discriminate Hnext;
      rewrite lookup_by_email, ?set_script_users, Hrow;
      cbn [single_row resolved data error failed fst snd];
      rewrite Hcmp; reflexivity.
  - intros decoded next Hsp Hv.
    etransitivity; [exact (protect_bearer svc next w _ Hsp) |]. now rewrite Hv.
Qed.

(** ** What the logger and the image routes write *)

Lemma logActivity_changes (svc : Services) (userId action : jsstring)
  (imageId : option jsstring) (additionalData : Json) (w : World) :
  exists w',
    logActivity svc userId action imageId additionalData w = (Val tt, w')
    /\ activities w'
       = (if activities_table w && carried_out_next w
          then activities w ++ [logged_row svc userId action imageId additionalData w]
          else activities w)
    /\ users w' = users w /\ images w' = images w
    /\ bucket_images w' = bucket_images w.
Proof.
  unfold logActivity, try_catch, bind, now, await, console, ret, carried_out_next.
  destruct (script w) as [| [| e | e] rest] eqn:Es.
  - unfold insert_activities. destruct (activities_table w) eqn:Et;
      cbn -[includes lit].
    + eexists. split; [reflexivity |]. cbn. repeat split.
    + destruct (includes _ _); eexists; (split; [reflexivity |]); cbn; repeat split.
  - unfold insert_activities. cbn [activities_table set_script].
    destruct (activities_table w) eqn:Et; cbn -[includes lit].
    + eexists. split; [reflexivity |]. cbn. repeat split.
    + destruct (includes _ _); eexists; (split; [reflexivity |]); cbn; repeat split.
  - rewrite andb_false_r. cbn -[includes lit].
    destruct (match code e with
              | Some c => jsstring_eqb c (lit "PGRST116")
              | None => false
              end).
    + eexists. split; [reflexivity |]. cbn. repeat split.
    + destruct (message e) as [m |].
      * destruct (includes m _); eexists; (split; [reflexivity |]); cbn; repeat split.
      * cbn -[includes lit].
        destruct (_ && _); eexists; (split; [reflexivity |]); cbn; repeat split.
  - rewrite andb_false_r. cbn -[includes lit].
    destruct (_ && _); eexists; (split; [reflexivity |]); cbn; repeat split.
Qed.

(** X10. What [logActivity] writes.  It returns from every world; when the
    [activities] table exists and the insert is carried out it has appended
    exactly one row, with the user, the action, the image and the data it
    was given, stamped with the clock; in every other case (no table, an
    insert that resolves with an error or is rejected) [activities] is what
    it was.  It never touches [users], [images] or the bucket. *)
Theorem logActivity_appends_one_row_or_none (svc : Services)
  (userId action : jsstring) (imageId : option jsstring) (additionalData : Json)
  (w : World) :
  exists w',
    logActivity svc userId action imageId additionalData w = (Val tt, w')
    /\ (activities_table w = true -> carried_out_next w = true ->
        exists row,
          activities w' = activities w ++ [row]
          /\ act_user_id row = userId /\ act_action row = action
          /\ act_image_id row = imageId /\ act_timestamp row = clock w
          /\ act_additional_data row = additionalData)
    /\ (activities_table w = false \/ carried_out_next w = false ->
        activities w' = activities w)
    /\ users w' = users w /\ images w' = images w
    /\ bucket_images w' = bucket_images w.
Proof.
  destruct (logActivity_changes svc userId action imageId additionalData w)
    as (w' & Hrun & Hact & Hu & Hi & Hb).
  exists w'. split; [exact Hrun |]. split; [| split; [| now repeat split]].
  - intros Ht Hc. rewrite Ht, Hc in Hact.
    exists (logged_row svc userId action imageId additionalData w).
    split; [exact Hact |]. repeat split.
  - intros [Ht | Hc]; [rewrite Ht in Hact | rewrite Hc, andb_false_r in Hact];
      exact Hact.
Qed.

(** ** The image routes *)

Lemma logActivity_run (svc : Services) (userId action : jsstring)
  (imageId : option jsstring) (additionalData : Json) (w : World) :
  exists w',
    logActivity svc userId action imageId additionalData w = (Val tt, w')
    /\ activities w'
       = (if activities_table w && carried_out_next w
          then activities w ++ [logged_row svc userId action imageId additionalData w]
          else activities w)
    /\ users w' = users w /\ images w' = images w
    /\ bucket_images w' = bucket_images w
    /\ script w' = tl (script w) /\ clock w' = clock w.
Proof.
  destruct (logActivity_changes svc userId action imageId additionalData w)
    as (w' & Hrun & Hact & Hu & Hi & Hb).
  destruct (logActivity_returns svc userId action imageId additionalData w)
    as (w'' & Hrun' & (_ & _ & _ & Hc & _) & Hs).
  rewrite Hrun in Hrun'. injection Hrun' as <-.
  exists w'. repeat (split; [assumption |]). assumption.
Qed.

(** The run of [deleteImage] when every call is carried out and the query
    finds one row: the world is handed to the logger with the row and its
    file removed. *)
Lemma deleteImage_nominal_run (svc : Services) (user : Claims)
  (imageId : jsstring) (img : Image) (w : World) :
  script w = [] ->
  owned_with_id imageId (userId user) (images w) = [img] ->
  deleteImage svc user imageId w
  = (Val (respond 200
            [("success", JBool true);
             ("message", JStr (lit "Hình ảnh đã được xóa thành công!"))]),
     snd (logActivity svc (userId user) (lit "delete") (Some imageId)
            (JObj [("imageUrl", JStr (img_image_url img))])
            (set_images
               (if truthy (Some (img_file_path img))
                then set_bucket_images w
                       (filter (fun o => negb (jsstring_eqb (fst o) (img_file_path img)))
                               (bucket_images w))
                else w)
               (filter (fun i => negb (is_target imageId (userId user) i))
                       (images w))))).
Proof.
  intros Hs Hown. unfold deleteImage, is_target.
  pose proof (logActivity_run svc) as HL.
  generalize dependent (logActivity svc). intros logger HL.
  unfold try_catch, bind, await, ret, throw.
  rewrite Hs, fetch_owned, Hown.
  cbn -[lit decimal substring0 single owned_with_id truthy existsb
        jsstring_eqb filter app].
  destruct (truthy (Some (img_file_path img))) eqn:Ep;
    repeat (rewrite Hs;
            cbn -[lit decimal substring0 single owned_with_id truthy existsb
                  jsstring_eqb filter app]);
    match goal with
    | |- context [logger ?a ?b ?c ?d ?v] =>
      destruct (HL a b c d v) as (w1 & E & _); rewrite E
    end;
    reflexivity.
Qed.

(** X6. The effect of a deletion that goes through.  When every call is
    carried out and the caller owns exactly one image with the given id,
    [deleteImage] answers 200; the rows of [images] with that id and owner
    are gone and the others are kept in their order; the object at the file
    path of the row is gone from the bucket (nothing is removed for an
    empty path); [users] is untouched. *)
Theorem deleteImage_effect (svc : Services) (user : Claims)
  (imageId : jsstring) (img : Image) (w : World) :
  script w = [] ->
  owned_with_id imageId (userId user) (images w) = [img] ->
  exists r w',
    deleteImage svc user imageId w = (Val r, w')
    /\ status r = 200
    /\ images w'
       = filter (fun i => negb (is_target imageId (userId user) i)) (images w)
    /\ bucket_images w'
       = (if truthy (Some (img_file_path img))
          then filter (fun o => negb (jsstring_eqb (fst o) (img_file_path img)))
                      (bucket_images w)
          else bucket_images w)
    /\ users w' = users w.
Proof.
  intros Hs Hown. rewrite (deleteImage_nominal_run svc user imageId img w Hs Hown).
  match goal with
  | |- context [logActivity svc ?a ?b ?c ?d ?v] =>
    destruct (logActivity_run svc a b c d v) as (w1 & E & _ & Hu & Hi & Hb & _);
      rewrite E
  end.
  eexists; eexists. split; [reflexivity |]. split; [reflexivity |].
  cbn [snd]. rewrite Hu, Hi, Hb.
  destruct (truthy (Some (img_file_path img)));
    cbn [images users bucket_images set_images set_bucket_images];
    repeat split.
Qed.

(** X7. A storage error does not stop a deletion.  When the query finds
    the one row of the caller, the removal of its file from the bucket
    resolves with an error and the remaining calls are carried out,
    [deleteImage] still answers 200 and deletes the row from [images],
    while the bucket is what it was: the file stays there with no row
    pointing at it. *)
Theorem deleteImage_storage_error_orphans_file (svc : Services) (user : Claims)
  (imageId : jsstring) (img : Image) (e : JsError) (w : World) :
  script w = [Succeeds; Fails e] ->
  owned_with_id imageId (userId user) (images w) = [img] ->
  truthy (Some (img_file_path img)) = true ->
  exists r w',
    deleteImage svc user imageId w = (Val r, w')
    /\ status r = 200
    /\ images w'
       = filter (fun i => negb (is_target imageId (userId user) i)) (images w)
    /\ bucket_images w' = bucket_images w.
Proof.
  intros Hs Hown Hp. unfold deleteImage, is_target.
  pose proof (logActivity_run svc) as HL.
  generalize dependent (logActivity svc). intros logger HL.
  unfold try_catch, bind, await, ret, throw.
  rewrite Hs.
  cbn -[lit decimal substring0 single single_row owned_with_id truthy existsb
        jsstring_eqb filter app].
  rewrite fetch_owned.
  cbn -[lit decimal substring0 single single_row owned_with_id truthy existsb
        jsstring_eqb filter app].
  rewrite Hown.
  cbn -[lit decimal substring0 single owned_with_id truthy existsb
        jsstring_eqb filter app].
  rewrite Hp.
  cbn -[lit decimal substring0 single owned_with_id truthy existsb
        jsstring_eqb filter app].
  match goal with
  | |- context [logger ?a ?b ?c ?d ?v] =>
    destruct (HL a b c d v) as (w1 & E & Ha & Hu & Hi & Hb & _); rewrite E
  end.
  eexists; eexists. split; [reflexivity |]. split; [reflexivity |].
  rewrite Hi, Hb. split; reflexivity.
Qed.

(** X8. Whatever the outcomes of its calls, [deleteImage] either answers
    200 and has removed from [images] exactly the rows that have the given
    id and the caller as owner, or answers 500 and has left [images] as it
    was (no run ends with the 404).  In both cases [users] is untouched,
    no row is added, and a row with another id or another owner is still
    there: a caller cannot delete the image of someone else. *)
Theorem deleteImage_touches_own_only (svc : Services) (user : Claims)
  (imageId : jsstring) (w : World) :
  exists r w',
    deleteImage svc user imageId w = (Val r, w')
    /\ (status r = 200
        /\ images w'
           = filter (fun img => negb (is_target imageId (userId user) img)) (images w)
        \/ status r = 500 /\ images w' = images w)
    /\ users w' = users w
    /\ (forall img, In img (images w) ->
          img_id img <> imageId \/ img_user_id img <> userId user ->
          In img (images w'))
    /\ (forall img, In img (images w') -> In img (images w)).
Proof.
  assert (Core : exists r w',
    deleteImage svc user imageId w = (Val r, w')
    /\ (status r = 200
        /\ images w'
           = filter (fun img => negb (is_target imageId (userId user) img)) (images w)
        \/ status r = 500 /\ images w' = images w)
    /\ users w' = users w).
  { unfold deleteImage, is_target.
    pose proof (logActivity_run svc) as HL.
    generalize dependent (logActivity svc). intros logger HL.
    unfold try_catch, bind, await, ret, throw.
    walk_logged logger HL fetch_owned (@single_row_resolved_cases Image);
      (eexists; eexists; split; [reflexivity |]);
      repeat match goal with
             | H : _ /\ _ |- _ => destruct H
             end;
      repeat match goal with
             | H : images _ = _ |- _ => rewrite H; clear H
             | H : users _ = _ |- _ => rewrite H; clear H
             end;
      (split; [first [ right; split; reflexivity | left; split; reflexivity ]
              | reflexivity ]). }
  destruct Core as (r & w' & Hrun & Himg & Hu).
  exists r, w'. split; [exact Hrun |]. split; [exact Himg |]. split; [exact Hu |].
  split.
  - intros img Hin Hother. destruct Himg as [[_ ->] | [_ ->]]; [| exact Hin].
    apply filter_In. split; [exact Hin |]. unfold is_target.
    destruct Hother as [H | H]; apply jsstring_eqb_neq in H; rewrite H;
      [reflexivity | now rewrite andb_false_r].
  - intros img Hin. destruct Himg as [[_ Hi] | [_ Hi]]; rewrite Hi in Hin;
      [now apply filter_In in Hin | exact Hin].
Qed.

(** The run of [generateImage] when every call is carried out and the path
    of the new file is free. *)
Lemma generateImage_nominal_run (svc : Services) (user : Claims)
  (prompt : option jsstring) (w : World) :
  let path := generated_path (userId user) (clock w) in
  let row := {| img_id := gen_random_uuid svc (next_serial w);
                img_user_id := userId user;
                img_prompt := str prompt;
                img_image_url := getPublicUrl svc path;
                img_file_path := path;
                img_created_at := clock w |} in
  script w = [] ->
  truthy prompt = true ->
  existsb (fun o => jsstring_eqb (fst o) path) (bucket_images w) = false ->
  generateImage svc user prompt w
  = (Val (respond 200
            [("success", JBool true);
             ("imageUrl", JStr (getPublicUrl svc path));
             ("imageId", JStr (img_id row));
             ("message", JStr (lit "Image generated successfully"))]),
     snd (logActivity svc (userId user) (lit "generate") (Some (img_id row))
            (JObj [("prompt", JStr (substring0 (str prompt) 100))])
            (set_next_serial
               (set_images
                  (set_bucket_images w
                     (bucket_images w ++ [(path, generate svc (str prompt))]))
                  (images w ++ [row]))
               (next_serial w + 1)))).
Proof.
  cbv zeta. intros Hs Hp Hfree. unfold generateImage, falsy, generated_path in *.
  pose proof (logActivity_run svc) as HL.
  generalize dependent (logActivity svc). intros logger HL.
  rewrite Hp. cbn [negb].
  unfold try_catch, bind, await, ret, throw, now, fetch_generate, storage_upload,
    single_of, insert_images.
  rewrite Hs.
  cbn -[lit decimal substring0 single single_row owned_with_id truthy existsb
        jsstring_eqb filter app].
  rewrite Hs, Hfree.
  cbn -[lit decimal substring0 single single_row owned_with_id truthy existsb
        jsstring_eqb filter app].
  rewrite Hs.
  cbn -[lit decimal substring0 single owned_with_id truthy existsb
        jsstring_eqb filter app].
  match goal with
  | |- context [logger ?a ?b ?c ?d ?v] =>
    destruct (HL a b c d v) as (w1 & E & _); rewrite E
  end.
  reflexivity.
Qed.

(** The outcomes of the handler once the prompt is a string or absent,
    whatever the outcomes of its calls. *)
Lemma generateImage_text_outcomes (svc : Services) (user : Claims)
  (prompt : option jsstring) (w : World) :
  let path := generated_path (userId user) (clock w) in
  let row := {| img_id := gen_random_uuid svc (next_serial w);
                img_user_id := userId user;
                img_prompt := str prompt;
                img_image_url := getPublicUrl svc path;
                img_file_path := path;
                img_created_at := clock w |} in
  exists r w',
    generateImage svc user prompt w = (Val r, w')
    /\ users w' = users w
    /\ (status r = 400 /\ truthy prompt = false /\ w' = w
        \/ status r = 500 /\ truthy prompt = true /\ images w' = images w
        \/ status r = 200 /\ truthy prompt = true
           /\ existsb (fun o => jsstring_eqb (fst o) path) (bucket_images w) = false
           /\ bucket_images w' = bucket_images w ++ [(path, generate svc (str prompt))]
           /\ images w' = images w ++ [row]
           /\ get "imageId" (body r) = Some (JStr (img_id row))
           /\ get "imageUrl" (body r) = Some (JStr (img_image_url row))).
Proof.
  cbv zeta. unfold generateImage, falsy, generated_path.
  pose proof (logActivity_run svc) as HL.
  generalize dependent (logActivity svc). intros logger HL.
  destruct (truthy prompt) eqn:Ep; cbn [negb].
  2:{ eexists; eexists. split; [reflexivity |]. split; [reflexivity |].
      left. repeat split. }
  unfold try_catch, bind, await, ret, throw, now, fetch_generate, storage_upload,
    single_of, insert_images.
  walk_logged logger HL fetch_owned (@single_row_resolved_cases Image);
      (eexists; eexists; split; [reflexivity |]);
      repeat match goal with
             | H : _ /\ _ |- _ => destruct H
             end;
      repeat match goal with
             | H : images _ = _ |- _ => rewrite H; clear H
             | H : users _ = _ |- _ => rewrite H; clear H
             | H : bucket_images _ = _ |- _ => rewrite H; clear H
             end;
      (split; [reflexivity |]);
      first [ right; left; split; [reflexivity |]; split; reflexivity
            | right; right; split; [reflexivity |]; split; [reflexivity |];
              split; [first [reflexivity | assumption] |];
              split; [reflexivity |]; split; [reflexivity |];
              split; reflexivity ].
Qed.

(** X9. The outcomes of [POST /api/generate-image] for every prompt that
    the JSON of a request can hold, whatever the outcomes of its calls.
    With no prompt, [null] or the empty string it answers 400 and the world
    is what it was.  With a prompt that is not a string (a number, a
    boolean, an array, an object) the handler throws before its [try]: no
    answer is sent and the world is what it was.  With a string that is not
    empty it answers 500 with [images] unchanged, or 200; on 200 the path
    [generated/<user>_<clock>_generated.png] was free, the bucket has
    gained the generated bytes at that path, and [images] has gained
    exactly one row, owned by the caller, with the prompt, that path and
    its public url, whose id and url are the [imageId] and [imageUrl] of
    the answer.  [users] is never touched. *)
Theorem generateImage_outcomes (svc : Services) (user : Claims)
  (prompt : option Json) (w : World) :
  match prompt with
  | None | Some JNull =>
    postGenerateImage svc user prompt w
    = (Val (respond 400 [("error", JStr (lit "Prompt is required"))]), w)
  | Some (JStr s) =>
    let path := generated_path (userId user) (clock w) in
    let row := {| img_id := gen_random_uuid svc (next_serial w);
                  img_user_id := userId user;
                  img_prompt := s;
                  img_image_url := getPublicUrl svc path;
                  img_file_path := path;
                  img_created_at := clock w |} in
    exists r w',
      postGenerateImage svc user prompt w = (Val r, w')
      /\ users w' = users w
      /\ (status r = 400 /\ s = [] /\ w' = w
          \/ status r = 500 /\ s <> [] /\ images w' = images w
          \/ status r = 200 /\ s <> []
             /\ existsb (fun o => jsstring_eqb (fst o) path) (bucket_images w) = false
             /\ bucket_images w' = bucket_images w ++ [(path, generate svc s)]
             /\ images w' = images w ++ [row]
             /\ get "imageId" (body r) = Some (JStr (img_id row))
             /\ get "imageUrl" (body r) = Some (JStr (img_image_url row)))
  | Some _ => postGenerateImage svc user prompt w = (Exn not_a_function, w)
  end.
Proof.
  destruct prompt as [[| b | n | s | items | fields] |]; try reflexivity.
  cbv zeta. unfold postGenerateImage, bind, console, ret.
  destruct (generateImage_text_outcomes svc user (Some s) w)
    as (r & w' & Hrun & Hu & Hcases).
  cbn [str] in Hcases.
  exists r, w'. split; [exact Hrun |]. split; [exact Hu |].
  destruct Hcases as [(Hst & Ht & Hw) | [(Hst & Ht & Hi) | (Hst & Ht & Hrest)]].
  - left. split; [exact Hst |]. split; [| exact Hw].
    destruct s; [reflexivity | discriminate Ht].
  - right. left. split; [exact Hst |]. split; [| exact Hi].
    intros ->. discriminate Ht.
  - right. right. split; [exact Hst |]. split; [| exact Hrest].
    intros ->. discriminate Ht.
Qed.

(** X11. The file name is made of the user and the clock only, and the
    upload does not overwrite: when the bucket already holds an object at
    [generated/<user>_<clock>_generated.png], as after another image of the
    same user in the same millisecond, a request with a prompt answers 500
    and neither [images] nor the bucket changes. *)
Theorem generateImage_path_taken (svc : Services) (user : Claims)
  (prompt : option jsstring) (w : World) :
  truthy prompt = true ->
  existsb (fun o => jsstring_eqb (fst o) (generated_path (userId user) (clock w)))
          (bucket_images w) = true ->
  exists r w',
    generateImage svc user prompt w = (Val r, w')
    /\ status r = 500
    /\ images w' = images w /\ bucket_images w' = bucket_images w.
Proof.
  intros Hp Htaken. unfold generateImage, falsy, generated_path in *.
  rewrite Hp. cbn [negb].
  unfold try_catch, bind, await, ret, throw, now, fetch_generate, storage_upload.
  destruct (script w) as [| [| e | e] [| [| e' | e'] rest]] eqn:Es;
    cbn -[lit decimal substring0 single single_row owned_with_id truthy existsb
          jsstring_eqb filter app];
    rewrite ?Es;
    cbn -[lit decimal substring0 single single_row owned_with_id truthy existsb
          jsstring_eqb filter app];
    rewrite ?Htaken;
    cbn -[lit decimal substring0 single single_row owned_with_id truthy existsb
          jsstring_eqb filter app];
    eexists; eexists; (split; [reflexivity |]); repeat split.
Qed.

(** X12. The effect of a generation that goes through.  When every call is
    carried out, the prompt is not empty, the path is free and the
    [activities] table exists, [generateImage] appends exactly one row to
    [activities]: the action [generate] by the caller on the new image,
    whose data is the prompt cut to its first 100 code units. *)
Theorem generateImage_logs_prompt_head (svc : Services) (user : Claims)
  (prompt : option jsstring) (w : World) :
  script w = [] ->
  truthy prompt = true ->
  existsb (fun o => jsstring_eqb (fst o) (generated_path (userId user) (clock w)))
          (bucket_images w) = false ->
  activities_table w = true ->
  exists r w' shown rest,
    generateImage svc user prompt w = (Val r, w')
    /\ status r = 200
    /\ activities w'
       = activities w
         ++ [{| act_id := gen_random_uuid svc (next_serial w + 1);
                act_user_id := userId user;
                act_action := lit "generate";
                act_image_id := Some (gen_random_uuid svc (next_serial w));
                act_timestamp := clock w;
                act_additional_data := JObj [("prompt", JStr shown)] |}]
    /\ str prompt = shown ++ rest
    /\ (List.length shown <= 100)%nat
    /\ (rest <> [] -> List.length shown = 100%nat).
Proof.
  intros Hs Hp Hfree Ht.
  rewrite (generateImage_nominal_run svc user prompt w Hs Hp Hfree).
  match goal with
  | |- context [logActivity svc ?a ?b ?c ?d ?v] =>
    destruct (logActivity_run svc a b c d v) as (w1 & E & Ha & _); rewrite E
  end.
  exists (respond 200
            [("success", JBool true);
             ("imageUrl",
              JStr (getPublicUrl svc (generated_path (userId user) (clock w))));
             ("imageId", JStr (gen_random_uuid svc (next_serial w)));
             ("message", JStr (lit "Image generated successfully"))]),
         w1, (substring0 (str prompt) 100), (skipn 100 (str prompt)).
  split; [reflexivity |]. split; [reflexivity |].
  split.
  - rewrite Ha. unfold carried_out_next, logged_row.
    cbn [images users bucket_images activities activities_table script clock
         next_serial set_images set_bucket_images set_script set_next_serial].
    rewrite Hs, Ht. reflexivity.
  - unfold substring0. change (Z.to_nat 100) with 100%nat.
    split; [symmetry; apply firstn_skipn |].
    split; [apply firstn_le_length |].
    intros Hrest. apply firstn_length_le.
    destruct (Nat.le_gt_cases 100 (List.length (str prompt))) as [H | H];
      [exact H |].
    exfalso. apply Hrest. apply skipn_all2. lia.
Qed.

Lemma filter_keeps_all {A} (f : A -> bool) (l : list A) :
  (forall x, In x l -> f x = true) -> filter f l = l.
Proof.
  induction l as [| a l IH]; intros H; [reflexivity |].
  cbn [filter]. rewrite (H a (or_introl eq_refl)). f_equal.
  apply IH. intros x Hx. apply H. now right.
Qed.

Lemma filter_keeps_none {A} (f : A -> bool) (l : list A) :
  (forall x, In x l -> f x = false) -> filter f l = [].
Proof.
  induction l as [| a l IH]; intros H; [reflexivity |].
  cbn [filter]. rewrite (H a (or_introl eq_refl)).
  apply IH. intros x Hx. apply H. now right.
Qed.

Lemma existsb_false_In {A} (f : A -> bool) (l : list A) :
  existsb f l = false -> forall x, In x l -> f x = false.
Proof.
  intros H x Hx. destruct (f x) eqn:E; [| reflexivity].
  rewrite <- H. symmetry. apply existsb_exists. now exists x.
Qed.

Lemma generated_path_truthy (userId : jsstring) (t : Z) :
  truthy (Some (generated_path userId t)) = true.
Proof. reflexivity. Qed.

(** X13. Generating an image and then deleting it is a round trip on the
    stored data.  When every call is carried out, the prompt is not empty,
    the path is free and the id the database gives to the new row is not
    the id of a row already there, [generateImage] answers 200 with an
    [imageId], and [deleteImage] by the same caller on that id answers 200
    and leaves [images] and the bucket exactly as they were before the
    generation. *)
Theorem generate_then_delete (svc : Services) (user : Claims)
  (prompt : option jsstring) (w : World) :
  script w = [] ->
  truthy prompt = true ->
  existsb (fun o => jsstring_eqb (fst o) (generated_path (userId user) (clock w)))
          (bucket_images w) = false ->
  (forall img, In img (images w) ->
     img_id img <> gen_random_uuid svc (next_serial w)) ->
  exists r1 w1 imageId r2 w2,
    generateImage svc user prompt w = (Val r1, w1)
    /\ status r1 = 200
    /\ get "imageId" (body r1) = Some (JStr imageId)
    /\ deleteImage svc user imageId w1 = (Val r2, w2)
    /\ status r2 = 200
    /\ images w2 = images w
    /\ bucket_images w2 = bucket_images w
    /\ users w2 = users w.
Proof.
  intros Hs Hp Hfree Hfresh.
  rewrite (generateImage_nominal_run svc user prompt w Hs Hp Hfree).
  match goal with
  | |- context [logActivity svc ?a ?b ?c ?d ?v] =>
    destruct (logActivity_run svc a b c d v)
      as (w1 & E & _ & Hu1 & Hi1 & Hb1 & Hs1 & _); rewrite E
  end.
  cbn [images users bucket_images script set_images set_bucket_images
       set_script set_next_serial] in Hu1, Hi1, Hb1, Hs1.
  rewrite Hs in Hs1. cbn [tl] in Hs1.
  set (t := gen_random_uuid svc (next_serial w)) in *.
  set (path := generated_path (userId user) (clock w)) in *.
  set (row := {| img_id := t; img_user_id := userId user;
                 img_prompt := str prompt;
                 img_image_url := getPublicUrl svc path;
                 img_file_path := path;
                 img_created_at := clock w |}) in *.
  assert (Hown : owned_with_id t (userId user) (images w1) = [row]).
  { rewrite Hi1. unfold owned_with_id. rewrite !filter_app.
    rewrite (filter_keeps_none (fun img => jsstring_eqb (img_id img) t) (images w)).
    - unfold row. cbn [filter app img_id img_user_id]. rewrite jsstring_eqb_refl.
      cbn [filter app img_id img_user_id]. now rewrite jsstring_eqb_refl.
    - intros img Hin. apply jsstring_eqb_neq. now apply Hfresh. }
  eexists; exists w1, t. cbn [snd].
  rewrite (deleteImage_nominal_run svc user t row w1 Hs1 Hown).
  match goal with
  | |- context [logActivity svc ?a ?b ?c ?d ?v] =>
    destruct (logActivity_run svc a b c d v)
      as (w2 & E2 & _ & Hu2 & Hi2 & Hb2 & _); rewrite E2
  end.
  eexists; exists w2.
  split; [reflexivity |]. split; [reflexivity |]. split; [reflexivity |].
  split; [reflexivity |]. split; [reflexivity |].
  rewrite Hu2, Hi2, Hb2.
  change (truthy (Some (img_file_path row))) with true. cbv iota.
  cbn [images users bucket_images set_images set_bucket_images].
  rewrite Hi1, Hb1, Hu1, !filter_app.
  split; [| split; [| reflexivity]].
  - rewrite filter_keeps_all.
    + unfold row, is_target. cbn [filter img_id img_user_id].
      rewrite !jsstring_eqb_refl. cbn [andb negb]. apply app_nil_r.
    + intros img Hin. unfold is_target.
      rewrite (proj2 (jsstring_eqb_neq _ _) (Hfresh img Hin)). reflexivity.
  - rewrite filter_keeps_all.
    + unfold row. cbn [filter fst img_file_path]. rewrite jsstring_eqb_refl.
      cbn [negb]. apply app_nil_r.
    + intros o Ho. unfold row. cbn [img_file_path].
      now rewrite (existsb_false_In _ _ Hfree o Ho).
Qed.

(** ** The listing of the images of the caller *)

Lemma length_insert_desc {A} (key : A -> Z) (r : A) (l : list A) :
  List.length (insert_desc key r l) = S (List.length l).
Proof.
  induction l as [| x l IH]; cbn [insert_desc List.length]; [reflexivity |].
  destruct (key x <? key r); cbn [List.length]; [reflexivity | now rewrite IH].
Qed.

Lemma length_sort_desc {A} (key : A -> Z) (l : list A) :
  List.length (sort_desc key l) = List.length l.
Proof.
  unfold sort_desc. induction l as [| x l IH]; cbn [fold_right List.length];
    [reflexivity |].
  now rewrite length_insert_desc, IH.
Qed.

Lemma insert_desc_newest_first {A} (key : A -> Z) (r : A) (l : list A) :
  newest_first key l -> newest_first key (insert_desc key r l).
Proof.
  induction l as [| x l IH]; cbn [insert_desc newest_first].
  - intros _. split; [intros y [] | exact I].
  - intros [Hx Hl]. destruct (key x <? key r) eqn:E.
    + apply Z.ltb_lt in E. cbn [newest_first]. split; [| split; assumption].
      intros y [<- | Hy]; [lia |]. specialize (Hx y Hy). lia.
    + apply Z.ltb_ge in E. cbn [newest_first]. split; [| now apply IH].
      intros y Hy. apply in_insert_desc in Hy. destruct Hy as [-> | Hy];
        [exact E | now apply Hx].
Qed.

Lemma sort_desc_newest_first {A} (key : A -> Z) (l : list A) :
  newest_first key (sort_desc key l).
Proof.
  unfold sort_desc. induction l as [| x l IH]; cbn [fold_right]; [exact I |].
  now apply insert_desc_newest_first.
Qed.

Lemma list_own_images (userId : jsstring) (w : World) :
  reading (order_desc img_created_at (eq_ img_user_id userId from_images)) w
  = (resolved (sort_desc img_created_at (images_of userId (images w))), w).
Proof. reflexivity. Qed.

Lemma images_of_In (userId : jsstring) (rows : list Image) (img : Image) :
  In img (sort_desc img_created_at (images_of userId rows))
  <-> In img rows /\ img_user_id img = userId.
Proof.
  rewrite in_sort_desc. unfold images_of. rewrite filter_In, jsstring_eqb_eq.
  tauto.
Qed.

(** X14. What [getMyCreations] sends.  In every run it answers 200 or 500
    and writes nothing.  On 200 the body is the array of the rows of
    [images] owned by the caller: every such row is listed, no other row
    is, there are as many entries as the caller has images, and they come
    by decreasing date of creation. *)
Theorem getMyCreations_lists_own_images (user : Claims) (w : World) :
  exists r w',
    getMyCreations user w = (Val r, w')
    /\ users w' = users w /\ images w' = images w
    /\ bucket_images w' = bucket_images w /\ activities w' = activities w
    /\ (status r = 500
        \/ status r = 200
           /\ exists rows,
                body r = JArr (map image_row_json rows)
                /\ (forall img, In img rows
                      <-> In img (images w) /\ img_user_id img = userId user)
                /\ List.length rows
                   = List.length (images_of (userId user) (images w))
                /\ newest_first img_created_at rows).
Proof.
  unfold getMyCreations, try_catch, bind, await, ret, throw.
  destruct (script w) as [| [| e | e] rest] eqn:Es; rewrite ?list_own_images;
    cbn -[sort_desc images_of lit];
    (eexists; eexists; split; [reflexivity |]);
    (split; [reflexivity |]); (split; [reflexivity |]);
    (split; [reflexivity |]); (split; [reflexivity |]);
    first [ left; reflexivity
          | right; split; [reflexivity |];
            exists (sort_desc img_created_at (images_of (userId user) (images w)));
            split; [reflexivity |];
            split; [intros img; apply images_of_In |];
            split; [apply length_sort_desc | apply sort_desc_newest_first] ].
Qed.

(** ** The routes that show a user *)

Lemma lookup_by_id (userId : jsstring) (w : World) :
  single (eq_ u_id userId from_users) w
  = (single_row (resolved (with_id userId (users w))), w).
Proof. reflexivity. Qed.

Lemma single_row_resolved_one {A} (rows : list A) (r : A) :
  single_row (resolved rows) = resolved r -> rows = [r].
Proof.
  destruct rows as [| x [| y rows]]; cbn; intros H; try discriminate.
  injection H as ->. reflexivity.
Qed.

(** X15. What [getAdminUser] sends.  In every run it answers 200 or 500
    (the 404 is never sent: an id that no user has ends in 500) and writes
    nothing.  On 200 exactly one user has the id; the [user] of the answer
    carries the id and the email of that row and has no [hashed_password];
    and [images] lists the images of that user and no other. *)
Theorem getAdminUser_outcomes (userId : jsstring) (w : World) :
  exists r w',
    getAdminUser userId w = (Val r, w')
    /\ users w' = users w /\ images w' = images w
    /\ (status r = 500
        \/ status r = 200
           /\ exists u shown rows,
                with_id userId (users w) = [u]
                /\ get "user" (body r) = Some shown
                /\ get "id" shown = Some (JStr userId)
                /\ get "email" shown = Some (JStr (u_email u))
                /\ get "hashed_password" shown = None
                /\ get "images" (body r) = Some (JArr (map image_row_json rows))
                /\ (forall img, In img rows
                      <-> In img (images w) /\ img_user_id img = userId)).
Proof.
  unfold getAdminUser, try_catch, bind, await, ret, throw.
  destruct (script w) as [| [| e | e] [| [| e' | e'] rest]] eqn:Es;
    rewrite ?lookup_by_id;
    cbn -[single_row with_id lit];
    try (eexists; eexists; split; [reflexivity |];
         split; [reflexivity |]; split; [reflexivity |]; left; reflexivity);
    destruct (single_row_resolved_cases (with_id userId (users w)))
      as [[u Hu] | Hu];
    rewrite Hu;
    cbn -[single_row with_id lit sort_desc images_of];
    rewrite ?Es, ?list_own_images;
    cbn -[single_row with_id lit sort_desc images_of];
    (eexists; eexists; split; [reflexivity |]);
    (split; [reflexivity |]); (split; [reflexivity |]);
    first [ left; reflexivity
          | right; split; [reflexivity |];
            apply single_row_resolved_one in Hu;
            exists u, (JObj (set_undefined "hashed_password" (user_row_json u))),
                   (sort_desc img_created_at (images_of userId (images w)));
            split; [exact Hu |];
            split; [reflexivity |];
            split; [| split; [reflexivity |]; split; [reflexivity |];
                      split; [reflexivity |];
                      intros img; apply images_of_In ] ].
  all: assert (Hin : In u (with_id userId (users w))) by (rewrite Hu; now left);
    apply filter_In in Hin; destruct Hin as [_ Hid];
    apply jsstring_eqb_eq in Hid;
    change (Some (JStr (u_id u)) = Some (JStr userId)); now rewrite Hid.
Qed.

(** X16. What [getProfile] sends.  In every run it answers 200 or 500 and
    writes nothing.  On 200 exactly one user has the id of the caller, and
    the body is made of the six selected columns of that row, with the id
    of the caller and without [hashed_password]; a caller whose row is
    gone gets 500. *)
Theorem getProfile_outcomes (user : Claims) (w : World) :
  exists r w',
    getProfile user w = (Val r, w')
    /\ users w' = users w /\ images w' = images w
    /\ (status r = 500
        \/ status r = 200
           /\ exists u,
                with_id (userId user) (users w) = [u]
                /\ body r = profile_json u
                /\ get "id" (body r) = Some (JStr (userId user))
                /\ get "hashed_password" (body r) = None).
Proof.
  unfold getProfile, try_catch, bind, await, ret, throw.
  destruct (script w) as [| [| e | e] rest] eqn:Es;
    rewrite ?lookup_by_id;
    cbn -[single_row with_id lit];
    try (eexists; eexists; split; [reflexivity |];
         split; [reflexivity |]; split; [reflexivity |]; left; reflexivity);
    destruct (single_row_resolved_cases (with_id (userId user) (users w)))
      as [[u Hu] | Hu];
    rewrite Hu;
    cbn -[single_row with_id lit];
    (eexists; eexists; split; [reflexivity |]);
    (split; [reflexivity |]); (split; [reflexivity |]);
    first [ left; reflexivity
          | right; split; [reflexivity |];
            apply single_row_resolved_one in Hu;
            exists u; split; [exact Hu |]; split; [reflexivity |];
            split; [| reflexivity] ].
  all: assert (Hin : In u (with_id (userId user) (users w)))
         by (rewrite Hu; now left);
    apply filter_In in Hin; destruct Hin as [_ Hid];
    apply jsstring_eqb_eq in Hid;
    change (Some (JStr (u_id u)) = Some (JStr (userId user))); now rewrite Hid.
Qed.

(** ** The change of password *)

(** X17. The outcomes of [changePassword], whatever the outcomes of its
    calls.  It answers 200, 400 or 500 (the 404 is never sent).  It answers
    200 only when both passwords are given, the new one passes the policy,
    exactly one user has the id of the caller and [bcrypt.compare] accepts
    the current password against the stored hash; then the row of the
    caller carries the hash of the new password and every other row is as
    it was.  With any other answer [users] is unchanged.  [images] is never
    touched. *)
Theorem changePassword_outcomes (svc : Services) (user : Claims)
  (currentPassword newPassword : option jsstring) (w : World) :
  exists r w',
    changePassword svc user currentPassword newPassword w = (Val r, w')
    /\ images w' = images w
    /\ (status r = 200
        /\ truthy currentPassword = true /\ truthy newPassword = true
        /\ isValid (validatePassword (str newPassword)) = true
        /\ (exists u,
              with_id (userId user) (users w) = [u]
              /\ bcrypt_compare svc (str currentPassword) (u_hashed_password u) = true)
        /\ users w'
           = password_changed (userId user)
               (bcrypt_hash svc (str newPassword) 12) (clock w) (users w)
        \/ (status r = 400 \/ status r = 500) /\ users w' = users w).
Proof.
  unfold changePassword, falsy.
  destruct (truthy currentPassword) eqn:Ec; cbn [negb orb];
    [| eexists; eexists; split; [reflexivity |]; split; [reflexivity |];
       right; split; [left |]; reflexivity].
  destruct (truthy newPassword) eqn:En; cbn [negb orb];
    [| eexists; eexists; split; [reflexivity |]; split; [reflexivity |];
       right; split; [left |]; reflexivity].
  destruct (isValid (validatePassword (str newPassword))) eqn:Ev; cbn [negb];
    [| eexists; eexists; split; [reflexivity |]; split; [reflexivity |];
       right; split; [left |]; reflexivity].
  unfold try_catch, bind, await, ret, throw, now.
  destruct (script w) as [| [| e | e] [| [| e' | e'] rest]] eqn:Es;
    rewrite ?lookup_by_id;
    cbn -[single_row with_id lit];
    try (eexists; eexists; split; [reflexivity |]; split; [reflexivity |];
         right; split; [right |]; reflexivity);
    destruct (single_row_resolved_cases (with_id (userId user) (users w)))
      as [[u Hu] | Hu];
    rewrite Hu;
    cbn -[single_row with_id lit];
    try (eexists; eexists; split; [reflexivity |]; split; [reflexivity |];
         right; split; [right |]; reflexivity);
    apply single_row_resolved_one in Hu;
    destruct (bcrypt_compare svc (str currentPassword) (u_hashed_password u)) eqn:Eb;
    cbn -[single_row with_id lit];
    rewrite ?Es;
    cbn -[single_row with_id lit];
    (eexists; eexists; split; [reflexivity |]); (split; [reflexivity |]);
    first [ right; split; [first [left; reflexivity | right; reflexivity] | reflexivity]
          | left; split; [reflexivity |]; split; [reflexivity |];
            split; [reflexivity |]; split; [reflexivity |];
            split; [exists u; split; [exact Hu | exact Eb] | reflexivity] ].
Qed.

(** The run of a change of password that passes every check, with the two
    calls carried out. *)
Lemma changePassword_run (svc : Services) (user : Claims)
  (currentPassword newPassword : jsstring) (u : User) (w : World) :
  script w = [] ->
  currentPassword <> [] -> newPassword <> [] ->
  isValid (validatePassword newPassword) = true ->
  with_id (userId user) (users w) = [u] ->
  bcrypt_compare svc currentPassword (u_hashed_password u) = true ->
  changePassword svc user (Some currentPassword) (Some newPassword) w
  = (Val (respond 200
            [("success", JBool true);
             ("message", JStr (lit "Mật khẩu đã được thay đổi thành công!"))]),
     set_users w
       (password_changed (userId user) (bcrypt_hash svc newPassword 12) (clock w)
          (users w))).
Proof.
  intros Hs Hc Hn Hv Hu Hb. unfold changePassword.
  rewrite (falsy_Some _ Hc), (falsy_Some _ Hn). cbn [orb str].
  rewrite Hv. cbn [negb].
  unfold try_catch, bind, await, ret, throw, now.
  rewrite Hs, lookup_by_id, Hu.
  cbn -[with_id lit]. rewrite Hb. cbn -[with_id lit].
  rewrite Hs. reflexivity.
Qed.

Lemma with_email_password_changed (mail userId hashed_password : jsstring) (t : Z)
  (rows : list User) :
  with_email mail (password_changed userId hashed_password t rows)
  = password_changed userId hashed_password t (with_email mail rows).
Proof.
  unfold with_email, password_changed.
  induction rows as [| u rows IH]; [reflexivity |].
  cbn [map filter].
  replace (u_email (if jsstring_eqb (u_id u) userId
                    then with_password hashed_password t u else u))
    with (u_email u) by (destruct (jsstring_eqb (u_id u) userId); reflexivity).
  destruct (jsstring_eqb (u_email u) mail); cbn [map]; now rewrite IH.
Qed.

(** X18. A change of password and a login compose.  After a change that
    goes through (every call carried out, the checks passed, one user with
    the id of the caller, who is also the one user with that email), a
    login with the email and the new password is answered 200, provided
    [bcrypt.compare] accepts the new password against the hash that
    [bcrypt.hash] made of it; and a login with the former password is
    answered 401 when [bcrypt.compare] does not accept it against that
    hash. *)
Theorem changePassword_then_login (svc : Services) (user : Claims)
  (currentPassword newPassword : jsstring) (u : User) (w : World) :
  script w = [] ->
  currentPassword <> [] -> newPassword <> [] ->
  isValid (validatePassword newPassword) = true ->
  with_id (userId user) (users w) = [u] ->
  with_email (u_email u) (users w) = [u] ->
  u_email u <> [] ->
  bcrypt_compare svc currentPassword (u_hashed_password u) = true ->
  bcrypt_compare svc newPassword (bcrypt_hash svc newPassword 12) = true ->
  let changed :=
    changePassword svc user (Some currentPassword) (Some newPassword) w in
  status (answer_of changed) = 200
  /\ status (answer_of (login svc (Some (u_email u)) (Some newPassword) (snd changed)))
     = 200
  /\ (bcrypt_compare svc currentPassword (bcrypt_hash svc newPassword 12) = false ->
      status (answer_of (login svc (Some (u_email u)) (Some currentPassword)
                           (snd changed)))
      = 401).
Proof.
  intros Hs Hc Hn Hv Hu Hmail Hm Hb Hnew. cbv zeta.
  rewrite (changePassword_run svc user currentPassword newPassword u w
             Hs Hc Hn Hv Hu Hb).
  split; [reflexivity |]. cbn [snd].
  assert (Hid : jsstring_eqb (u_id u) (userId user) = true).
  { assert (Hin : In u (with_id (userId user) (users w))) by (rewrite Hu; now left).
    apply filter_In in Hin. exact (proj2 Hin). }
  set (h := bcrypt_hash svc newPassword 12) in *.
  assert (Hrow : with_email (u_email u)
                   (users (set_users w
                      (password_changed (userId user) h (clock w) (users w))))
                 = [with_password h (clock w) u]).
  { cbn [users set_users]. rewrite with_email_password_changed, Hmail.
    unfold password_changed. cbn [map]. now rewrite Hid. }
  split.
  - unfold answer_of.
    rewrite (login_run svc (u_email u) newPassword _ (with_password h (clock w) u)
               Hm Hn Hrow).
    + reflexivity.
    + exact Hnew.
    + unfold carried_out_next. cbn [script set_users]. now rewrite Hs.
  - intros Hold. unfold answer_of.
    rewrite (login_answer svc (u_email u) currentPassword _ Hm Hc).
    + unfold rejects_next. cbn [script set_users]. rewrite Hs. reflexivity.
    + intros x. rewrite Hrow. cbn [single_row resolved data error].
      intros [= <-]. exact Hold.
Qed.

(** ** The deletion of a user *)

Lemma select_own_images (userId : jsstring) (w : World) :
  reading (eq_ img_user_id userId from_images) w
  = (resolved (images_of userId (images w)), w).
Proof. reflexivity. Qed.

Lemma filter_none_negb {A} (f : A -> bool) (l : list A) :
  filter f l = [] -> filter (fun x => negb (f x)) l = l.
Proof.
  induction l as [| a l IH]; [reflexivity |]. cbn [filter].
  destruct (f a); [discriminate |]. intros H. cbn [negb]. f_equal. now apply IH.
Qed.

Lemma not_among_paths (path : jsstring) (paths : list jsstring) :
  ~ In path paths -> existsb (jsstring_eqb path) paths = false.
Proof.
  intros H. destruct (existsb (jsstring_eqb path) paths) eqn:E; [| reflexivity].
  apply existsb_exists in E. destruct E as [p [Hin Heq]].
  apply jsstring_eqb_eq in Heq. now subst.
Qed.

(** X19. The reach of [deleteAdminUser], whatever the outcomes of its
    calls.  It answers 200 with the rows of the given id gone from [users],
    or 500 with [users] unchanged; [images] is either unchanged or without
    the images of that user, and the bucket either unchanged or without the
    files of those images.  So no row is added anywhere, every other user
    is kept, every image of another user is kept, and every object of the
    bucket that is not the file of an image of that user is kept. *)
Theorem deleteAdminUser_reach (userId : jsstring) (w : World) :
  let paths := map img_file_path (images_of userId (images w)) in
  exists r w',
    deleteAdminUser userId w = (Val r, w')
    /\ (status r = 200
        /\ users w' = filter (fun u => negb (jsstring_eqb (u_id u) userId)) (users w)
        \/ status r = 500 /\ users w' = users w)
    /\ (images w' = images w
        \/ images w'
           = filter (fun img => negb (jsstring_eqb (img_user_id img) userId)) (images w))
    /\ (bucket_images w' = bucket_images w
        \/ bucket_images w'
           = filter (fun o => negb (existsb (jsstring_eqb (fst o)) paths))
                    (bucket_images w))
    /\ (forall u, In u (users w) -> u_id u <> userId -> In u (users w'))
    /\ (forall img, In img (images w) -> img_user_id img <> userId ->
          In img (images w'))
    /\ (forall o, In o (bucket_images w) -> ~ In (fst o) paths ->
          In o (bucket_images w')).
Proof.
  cbv zeta.
  assert (Core : exists r w',
    deleteAdminUser userId w = (Val r, w')
    /\ (status r = 200
        /\ users w' = filter (fun u => negb (jsstring_eqb (u_id u) userId)) (users w)
        \/ status r = 500 /\ users w' = users w)
    /\ (images w' = images w
        \/ images w'
           = filter (fun img => negb (jsstring_eqb (img_user_id img) userId)) (images w))
    /\ (bucket_images w' = bucket_images w
        \/ bucket_images w'
           = filter (fun o => negb (existsb (jsstring_eqb (fst o))
                                      (map img_file_path (images_of userId (images w)))))
                    (bucket_images w))).
  { unfold deleteAdminUser, try_catch, bind, await, ret, throw.
    destruct (script w) as [| [| e | e] rest] eqn:Es; rewrite ?select_own_images;
      cbn -[lit images_of jsstring_eqb filter map existsb];
      try destruct (images_of userId (images w)) as [| image more] eqn:Ei;
      cbn -[lit images_of jsstring_eqb filter map existsb];
      unfold storage_remove_paths, delete_images_eq_user_id, delete_users_eq_id;
      walk_script;
      (eexists; eexists; split; [reflexivity |]);
      cbn -[lit images_of jsstring_eqb filter map existsb];
      (split; [first [left; split; reflexivity | right; split; reflexivity] |]);
      (split; [first [left; reflexivity | right; reflexivity] |]);
      first [left; reflexivity | right; reflexivity]. }
  destruct Core as (r & w' & Hrun & Hu & Hi & Hb).
  exists r, w'. split; [exact Hrun |]. split; [exact Hu |]. split; [exact Hi |].
  split; [exact Hb |]. split; [| split].
  - intros u Hin Hne. destruct Hu as [[_ ->] | [_ ->]]; [| exact Hin].
    apply filter_In. split; [exact Hin |].
    now rewrite (proj2 (jsstring_eqb_neq _ _) Hne).
  - intros img Hin Hne. destruct Hi as [-> | ->]; [exact Hin |].
    apply filter_In. split; [exact Hin |].
    now rewrite (proj2 (jsstring_eqb_neq _ _) Hne).
  - intros o Hin Hne. destruct Hb as [-> | ->]; [exact Hin |].
    apply filter_In. split; [exact Hin |].
    now rewrite (not_among_paths _ _ Hne).
Qed.

(** X20. The effect of [deleteAdminUser] when every call is carried out:
    it answers 200, whether or not a user has the given id; the rows of
    that id are gone from [users], the images of that user are gone from
    [images] and their files from the bucket; the other rows and objects
    are kept in their order. *)
Theorem deleteAdminUser_effect (userId : jsstring) (w : World) :
  script w = [] ->
  let paths := map img_file_path (images_of userId (images w)) in
  exists r w',
    deleteAdminUser userId w = (Val r, w')
    /\ status r = 200
    /\ users w' = filter (fun u => negb (jsstring_eqb (u_id u) userId)) (users w)
    /\ images w'
       = filter (fun img => negb (jsstring_eqb (img_user_id img) userId)) (images w)
    /\ bucket_images w'
       = filter (fun o => negb (existsb (jsstring_eqb (fst o)) paths))
                (bucket_images w).
Proof.
  intros Hs. cbv zeta.
  unfold deleteAdminUser, try_catch, bind, await, ret, throw.
  rewrite Hs, select_own_images.
  cbn -[lit images_of jsstring_eqb filter map existsb].
  destruct (images_of userId (images w)) as [| image more] eqn:Ei;
    cbn -[lit images_of jsstring_eqb filter map existsb];
    unfold storage_remove_paths, delete_images_eq_user_id, delete_users_eq_id;
    repeat (rewrite Hs; cbn -[lit images_of jsstring_eqb filter map existsb]);
    (eexists; eexists; split; [reflexivity |]);
    cbn -[lit images_of jsstring_eqb filter map existsb];
    (split; [reflexivity |]); (split; [reflexivity |]).
  - split.
    + symmetry. apply (filter_none_negb _ _ Ei).
    + symmetry. apply filter_keeps_all. intros o _. reflexivity.
  - split; reflexivity.
Qed.

(** ** The statistics *)

Lemma count_all {A} (rows : World -> list A) (w : World) :
  count_exact_head (fun v => resolved (rows v)) w
  = ({| data := None; error := None;
        count := Some (Z.of_nat (List.length (rows w))) |}, w).
Proof. reflexivity. Qed.

Lemma count_since {A} (created_at : A -> Z) (cutoff : Z) (rows : World -> list A)
  (w : World) :
  count_exact_head (gte created_at cutoff (fun v => resolved (rows v))) w
  = ({| data := None; error := None;
        count := Some (created_since created_at cutoff (rows w)) |}, w).
Proof. reflexivity. Qed.

Lemma created_since_bounds {A} (created_at : A -> Z) (cutoff : Z) (rows : list A) :
  0 <= created_since created_at cutoff rows <= Z.of_nat (List.length rows).
Proof.
  unfold created_since. split; [lia |].
  apply inj_le. induction rows as [| r rows IH]; cbn [filter List.length]; [lia |].
  destruct (cutoff <=? created_at r); cbn [List.length]; lia.
Qed.

(** X21. The statistics when every call is carried out: [getAdminStats]
    answers 200; [totalUsers] and [totalImages] are the numbers of rows of
    the two tables; [newUsers] and [recentImages] are the numbers of rows
    created at the cut-off date or later, so neither exceeds its total; and
    nothing is written. *)
Theorem getAdminStats_counts (thirtyDaysAgo : Z -> Z) (w : World) :
  script w = [] ->
  let cutoff := thirtyDaysAgo (clock w) in
  let newUsers := created_since u_created_at cutoff (users w) in
  let recentImages := created_since img_created_at cutoff (images w) in
  exists r,
    getAdminStats thirtyDaysAgo w = (Val r, w)
    /\ status r = 200
    /\ stats_field "totalUsers" r = Some (JNum (Z.of_nat (List.length (users w))))
    /\ stats_field "totalImages" r = Some (JNum (Z.of_nat (List.length (images w))))
    /\ stats_field "newUsers" r = Some (JNum newUsers)
    /\ stats_field "recentImages" r = Some (JNum recentImages)
    /\ 0 <= newUsers <= Z.of_nat (List.length (users w))
    /\ 0 <= recentImages <= Z.of_nat (List.length (images w)).
Proof.
  intros Hs. cbv zeta.
  unfold getAdminStats, try_catch, bind, await, ret, throw, now,
    from_users, from_images.
  rewrite Hs, (count_all users). cbn [count]. rewrite Hs, (count_all images).
  cbn [count]. rewrite Hs, (count_since u_created_at _ users). cbn [count].
  rewrite Hs, (count_since img_created_at _ images). cbn [count].
  eexists. split; [reflexivity |]. split; [reflexivity |].
  split; [reflexivity |]. split; [reflexivity |]. split; [reflexivity |].
  split; [reflexivity |]. split; apply created_since_bounds.
Qed.

(** X22. The statistics do not look at the error of a count.  When each
    of the four counts resolves with an error, [getAdminStats] still
    answers 200, and every figure is 0, whatever the tables hold. *)
Theorem getAdminStats_errors_read_as_zero (thirtyDaysAgo : Z -> Z) (w : World)
  (e1 e2 e3 e4 : JsError) (rest : list Outcome) :
  script w = Fails e1 :: Fails e2 :: Fails e3 :: Fails e4 :: rest ->
  exists r w',
    getAdminStats thirtyDaysAgo w = (Val r, w')
    /\ status r = 200
    /\ stats_field "totalUsers" r = Some (JNum 0)
    /\ stats_field "totalImages" r = Some (JNum 0)
    /\ stats_field "newUsers" r = Some (JNum 0)
    /\ stats_field "recentImages" r = Some (JNum 0).
Proof.
  intros Hs.
  unfold getAdminStats, try_catch, bind, await, ret, throw, now.
  rewrite Hs. cbn -[lit].
  eexists; eexists. split; [reflexivity |]. repeat split.
Qed.

(** ** The routes that only read *)

Lemma same_tables_refl (w : World) : same_tables w w.
Proof. repeat split. Qed.

Lemma same_tables_trans (w1 w2 w3 : World) :
  same_tables w1 w2 -> same_tables w2 w3 -> same_tables w1 w3.
Proof.
  unfold same_tables. intros (Hu & Hi & Ha & Hb) (Hu' & Hi' & Ha' & Hb').
  repeat split; congruence.
Qed.

Lemma writes_nothing_ret {A} (a : A) : writes_nothing (ret a).
Proof. intros w. apply same_tables_refl. Qed.

Lemma writes_nothing_throw {A} (e : JsError) : writes_nothing (@throw A e).
Proof. intros w. apply same_tables_refl. Qed.

Lemma writes_nothing_now : writes_nothing now.
Proof. intros w. apply same_tables_refl. Qed.

Lemma writes_nothing_bind {A B} (m : M A) (k : A -> M B) :
  writes_nothing m -> (forall a, writes_nothing (k a)) -> writes_nothing (bind m k).
Proof.
  intros Hm Hk w. unfold bind. specialize (Hm w).
  destruct (m w) as [[a | e] w1]; cbn [snd] in *; [| exact Hm].
  exact (same_tables_trans _ _ _ Hm (Hk a w1)).
Qed.

Lemma writes_nothing_try_catch {A} (m : M A) (handler : JsError -> M A) :
  writes_nothing m -> (forall e, writes_nothing (handler e)) ->
  writes_nothing (try_catch m handler).
Proof.
  intros Hm Hh w. unfold try_catch. specialize (Hm w).
  destruct (m w) as [[a | e] w1]; cbn [snd] in *; [exact Hm |].
  exact (same_tables_trans _ _ _ Hm (Hh e w1)).
Qed.

Lemma writes_nothing_await {A} (call : Call A) :
  (forall w, snd (call w) = w) -> writes_nothing (await call).
Proof.
  intros Hc w. unfold await.
  destruct (script w) as [| [| e | e] rest].
  - specialize (Hc w). destruct (call w) as [r w1]. cbn [snd] in *. subst w1.
    apply same_tables_refl.
  - specialize (Hc (set_script w rest)).
    destruct (call (set_script w rest)) as [r w1]. cbn [snd] in *. subst w1.
    repeat split.
  - repeat split.
  - repeat split.
Qed.

Lemma reading_reads {A} (q : World -> Reply A) (w : World) : snd (reading q w) = w.
Proof. reflexivity. Qed.

Lemma single_reads {A} (q : Select A) (w : World) : snd (single q w) = w.
Proof. reflexivity. Qed.

Lemma count_exact_head_reads {A} (q : Select A) (w : World) :
  snd (count_exact_head q w) = w.
Proof. reflexivity. Qed.

#[local] Hint Resolve writes_nothing_ret writes_nothing_throw writes_nothing_now
  writes_nothing_bind writes_nothing_try_catch : reads.
#[local] Hint Extern 1 (writes_nothing (await (reading _))) =>
  apply writes_nothing_await; intros; apply reading_reads : reads.
#[local] Hint Extern 1 (writes_nothing (await (single _))) =>
  apply writes_nothing_await; intros; apply single_reads : reads.
#[local] Hint Extern 1 (writes_nothing (await (count_exact_head _))) =>
  apply writes_nothing_await; intros; apply count_exact_head_reads : reads.
#[local] Hint Extern 2 (writes_nothing (match ?x with _ => _ end)) =>
  destruct x : reads.

(** X23. The routes that read do not write.  From every world and
    whatever the outcomes of their calls, [login], the listing of users,
    the statistics, the details of a user, the listing of the caller's
    images, the profile and the listing of activities leave [users],
    [images], [activities] and the bucket exactly as they were. *)
Theorem read_routes_write_nothing (svc : Services) (user : Claims)
  (mail password search action : option jsstring) (page limit : option Z)
  (thirtyDaysAgo : Z -> Z) (userId : jsstring) :
  writes_nothing (login svc mail password)
  /\ writes_nothing (getAdminUsers svc page limit search)
  /\ writes_nothing (getAdminStats thirtyDaysAgo)
  /\ writes_nothing (getAdminUser userId)
  /\ writes_nothing (getMyCreations user)
  /\ writes_nothing (getProfile user)
  /\ writes_nothing (getActivities user page limit action).
Proof.
  unfold login, getAdminUsers, getAdminStats, getAdminUser, getMyCreations,
    getProfile, getActivities.
  cbv zeta.
  split; [auto 30 with reads |]. split; [auto 30 with reads |].
  split; [auto 30 with reads |]. split; [auto 30 with reads |].
  split; [auto 30 with reads |]. split; [auto 30 with reads |].
  auto 30 with reads.
Qed.

(** ** The listing and the logging of activities *)

(** X24. The first query of [getActivities] decides alone.  When it is
    not rejected and resolves with an error, because the [activities] table
    was never created or for any other reason, the route answers 500 with
    the error [Activities table not found], before it has looked for a
    single row, and writes nothing. *)
Theorem getActivities_first_query_fails (user : Claims) (page limit : option Z)
  (action : option jsstring) (w : World) :
  rejects_next w = false ->
  activities_table w = false \/ carried_out_next w = false ->
  exists r w',
    getActivities user page limit action w = (Val r, w')
    /\ status r = 500
    /\ get "error" (body r) = Some (JStr (lit "Activities table not found"))
    /\ same_tables w w'
    /\ script w' = tl (script w).
Proof.
  intros Hrej Hwhy. unfold getActivities. cbv zeta.
  unfold try_catch, bind, await, ret, throw, rejects_next, carried_out_next in *.
  destruct (script w) as [| [| e | e] rest] eqn:Es; try discriminate Hrej.
  - destruct Hwhy as [Ht | Hc]; [| discriminate Hc].
    unfold reading, limit_, on_rows, from_activities. rewrite Ht.
    cbn -[lit]. eexists; eexists. split; [reflexivity |].
    split; [reflexivity |]. split; [reflexivity |].
    split; [apply same_tables_refl | now rewrite Es].
  - destruct Hwhy as [Ht | Hc]; [| discriminate Hc].
    unfold reading, limit_, on_rows, from_activities.
    cbn [activities_table set_script]. rewrite Ht.
    cbn -[lit]. eexists; eexists. split; [reflexivity |].
    split; [reflexivity |]. split; [reflexivity |].
    split; [repeat split | reflexivity].
  - cbn -[lit]. eexists; eexists. split; [reflexivity |].
    split; [reflexivity |]. split; [reflexivity |].
    split; [repeat split | reflexivity].
Qed.

(** X25. What the logging endpoint writes.  In every run
    [postActivitiesLog] leaves [users], [images] and the bucket as they
    were, and [activities] either as it was or with exactly one more row;
    that row is filed under the id of the token of the caller, with the
    action and the image of the request and its data ([{}] when the request
    has none).  A request without an action writes nothing. *)
Theorem postActivitiesLog_files_under_caller (svc : Services) (user : Claims)
  (action imageId : option jsstring) (additionalData : option Json) (w : World) :
  exists r w',
    postActivitiesLog svc user action imageId additionalData w = (Val r, w')
    /\ users w' = users w /\ images w' = images w
    /\ bucket_images w' = bucket_images w
    /\ (activities w' = activities w
        \/ truthy action = true
           /\ exists row,
                activities w' = activities w ++ [row]
                /\ act_user_id row = userId user
                /\ act_action row = str action
                /\ act_image_id row = imageId
                /\ act_additional_data row = or_default (JObj []) additionalData)
    /\ (truthy action = false -> w' = w).
Proof.
  unfold postActivitiesLog, falsy. cbv zeta.
  destruct (truthy action) eqn:Ea; cbn [negb].
  - unfold try_catch, bind, ret.
    destruct (logActivity_run svc (userId user) (str action) imageId
                (or_default (JObj []) additionalData) w)
      as (w1 & E & Ha & Hu & Hi & Hb & _).
    rewrite E. eexists; exists w1. split; [reflexivity |].
    split; [exact Hu |]. split; [exact Hi |]. split; [exact Hb |].
    split; [| discriminate].
    destruct (activities_table w && carried_out_next w); [right | left; exact Ha].
    split; [reflexivity |].
    exists (logged_row svc (userId user) (str action) imageId
              (or_default (JObj []) additionalData) w).
    split; [exact Ha |]. repeat split.
  - eexists; eexists. split; [reflexivity |]. repeat split. now left.
Qed.

(** ** The further properties on the sample world *)

Lemma register_creates_user_witness :
  exists r w' row,
    dan_registers = (Val r, w')
    /\ status r = 201
    /\ users w' = users sample_world ++ [row]
    /\ u_hashed_password row = lit "$2b$12$Abcdefg!".
Proof.
  destruct (register_creates_user sample_services (lit "Dan")
              (lit "dan@example.com") (lit "Abcdefg!") sample_world)
    as (r & w' & row & Hrun & Hst & _ & Hu & _ & _ & Hh & _).
  - vm_compute. discriminate.
  - vm_compute. discriminate.
  - vm_compute. reflexivity.
  - vm_compute. reflexivity.
  - reflexivity.
  - exists r, w', row. split; [exact Hrun |]. split; [exact Hst |].
    split; [exact Hu |]. rewrite Hh. vm_compute. reflexivity.
Defined.

Lemma register_then_login_witness :
  status (answer_of dan_registers) = 201
  /\ status (answer_of (login sample_services (Some (lit "dan@example.com"))
                          (Some (lit "Abcdefg!")) (snd dan_registers)))
     = 200.
Proof.
  destruct (register_then_login sample_services (lit "Dan")
              (lit "dan@example.com") (lit "Abcdefg!") sample_world)
    as [H1 H2].
  - vm_compute. discriminate.
  - vm_compute. discriminate.
  - vm_compute. reflexivity.
  - vm_compute. reflexivity.
  - reflexivity.
  - vm_compute. reflexivity.
  - split; [exact H1 |]. unfold answer_of.
    etransitivity; [exact (f_equal (fun x => status match x with
                                                    | Val r => r
                                                    | Exn _ => respond 0 []
                                                    end) H2) |].
    reflexivity.
Defined.

Lemma login_issues_token_witness :
  get "token" (body (answer_of (login sample_services
                                  (Some (lit "alice@example.com"))
                                  (Some (lit "Secret!Pass")) sample_world)))
  = Some (JStr (lit "tok-u1"))
  /\ users (snd (login sample_services (Some (lit "alice@example.com"))
                   (Some (lit "Secret!Pass")) sample_world))
     = users sample_world.
Proof.
  destruct (login_issues_token sample_services (lit "alice@example.com")
              (lit "Secret!Pass") sample_world
              (sample_user "u1" "Alice" "alice@example.com" "Secret!Pass" 100))
    as [H1 [H2 _]].
  - vm_compute. discriminate.
  - vm_compute. discriminate.
  - vm_compute. reflexivity.
  - vm_compute. reflexivity.
  - reflexivity.
  - split; [| exact H2]. unfold answer_of. rewrite H1. vm_compute. reflexivity.
Defined.

Lemma deleteImage_effect_witness :
  exists r w',
    deleteImage sample_services (sample_claims "u1") (lit "i1") sample_world
    = (Val r, w')
    /\ status r = 200
    /\ images w' = [sample_image "i2" "u2" "generated/u2_2_generated.png" 210]
    /\ bucket_images w'
       = [(lit "generated/u2_2_generated.png", [137; 80; 78; 71])].
Proof.
  destruct (deleteImage_effect sample_services (sample_claims "u1") (lit "i1")
              (sample_image "i1" "u1" "generated/u1_1_generated.png" 110)
              sample_world)
    as (r & w' & Hrun & Hst & Hi & Hb & _).
  - reflexivity.
  - vm_compute. reflexivity.
  - exists r, w'. split; [exact Hrun |]. split; [exact Hst |].
    split; [rewrite Hi | rewrite Hb]; vm_compute; reflexivity.
Defined.

Lemma deleteImage_storage_error_orphans_file_witness :
  exists r w',
    deleteImage sample_services (sample_claims "u1") (lit "i1") world_storage_down
    = (Val r, w')
    /\ status r = 200
    /\ images w' = [sample_image "i2" "u2" "generated/u2_2_generated.png" 210]
    /\ bucket_images w' = bucket_images sample_world.
Proof.
  destruct (deleteImage_storage_error_orphans_file sample_services
              (sample_claims "u1") (lit "i1")
              (sample_image "i1" "u1" "generated/u1_1_generated.png" 110)
              (Error (lit "storage unavailable")) world_storage_down)
    as (r & w' & Hrun & Hst & Hi & Hb).
  - reflexivity.
  - vm_compute. reflexivity.
  - vm_compute. reflexivity.
  - exists r, w'. split; [exact Hrun |]. split; [exact Hst |].
    split; [rewrite Hi; vm_compute; reflexivity | exact Hb].
Defined.

Lemma generateImage_path_taken_witness :
  exists r w',
    generateImage sample_services (sample_claims "u1") (Some (lit "a red fox"))
      world_path_taken = (Val r, w')
    /\ status r = 500
    /\ images w' = images sample_world.
Proof.
  destruct (generateImage_path_taken sample_services (sample_claims "u1")
              (Some (lit "a red fox")) world_path_taken)
    as (r & w' & Hrun & Hst & Hi & _).
  - reflexivity.
  - vm_compute. reflexivity.
  - exists r, w'. split; [exact Hrun |]. split; [exact Hst | exact Hi].
Defined.

Lemma generateImage_logs_prompt_head_witness :
  exists r w' row,
    generateImage sample_services (sample_claims "u1") (Some (lit "a red fox"))
      sample_world = (Val r, w')
    /\ status r = 200
    /\ activities w' = activities sample_world ++ [row]
    /\ act_action row = lit "generate"
    /\ act_additional_data row = JObj [("prompt", JStr (lit "a red fox"))].
Proof.
  destruct (generateImage_logs_prompt_head sample_services (sample_claims "u1")
              (Some (lit "a red fox")) sample_world)
    as (r & w' & shown & rest & Hrun & Hst & Ha & Hsplit & Hlen & Hfull).
  - reflexivity.
  - reflexivity.
  - vm_compute. reflexivity.
  - reflexivity.
  - assert (Hrest : rest = []).
    { destruct rest as [| c rest]; [reflexivity |].
      assert (Hl : List.length shown = 100%nat) by (apply Hfull; discriminate).
      apply (f_equal (@List.length Z)) in Hsplit.
      rewrite length_app, Hl in Hsplit. vm_compute in Hsplit. discriminate Hsplit. }
    rewrite Hrest, app_nil_r in Hsplit.
    eexists r, w', _. split; [exact Hrun |]. split; [exact Hst |].
    split; [exact Ha |]. split; [reflexivity |].
    cbn [act_additional_data]. rewrite <- Hsplit. reflexivity.
Defined.

Lemma generate_then_delete_witness :
  exists r1 w1 imageId r2 w2,
    generateImage sample_services (sample_claims "u1") (Some (lit "a red fox"))
      sample_world = (Val r1, w1)
    /\ status r1 = 200
    /\ deleteImage sample_services (sample_claims "u1") imageId w1 = (Val r2, w2)
    /\ status r2 = 200
    /\ images w2 = images sample_world
    /\ bucket_images w2 = bucket_images sample_world.
Proof.
  destruct (generate_then_delete sample_services (sample_claims "u1")
              (Some (lit "a red fox")) sample_world)
    as (r1 & w1 & imageId & r2 & w2 & H1 & S1 & _ & H2 & S2 & Hi & Hb & _).
  - reflexivity.
  - reflexivity.
  - vm_compute. reflexivity.
  - intros img Hin. simpl in Hin. destruct Hin as [<- | [<- | []]];
      intro H; vm_compute in H; discriminate H.
  - exists r1, w1, imageId, r2, w2. repeat (split; [assumption |]). assumption.
Defined.

Lemma changePassword_then_login_witness :
  status (answer_of alice_changes_password) = 200
  /\ status (answer_of (login sample_services (Some (lit "alice@example.com"))
                          (Some (lit "NewPass!23")) (snd alice_changes_password)))
     = 200
  /\ status (answer_of (login sample_services (Some (lit "alice@example.com"))
                          (Some (lit "Secret!Pass")) (snd alice_changes_password)))
     = 401.
Proof.
  destruct (changePassword_then_login sample_services (sample_claims "u1")
              (lit "Secret!Pass") (lit "NewPass!23")
              (sample_user "u1" "Alice" "alice@example.com" "Secret!Pass" 100)
              sample_world)
    as [H1 [H2 H3]].
  - reflexivity.
  - vm_compute. discriminate.
  - vm_compute. discriminate.
  - vm_compute. reflexivity.
  - vm_compute. reflexivity.
  - vm_compute. reflexivity.
  - vm_compute. discriminate.
  - vm_compute. reflexivity.
  - vm_compute. reflexivity.
  - split; [exact H1 |]. split; [exact H2 |]. apply H3. vm_compute. reflexivity.
Defined.

Lemma deleteAdminUser_effect_witness :
  exists r w',
    deleteAdminUser (lit "u2") sample_world = (Val r, w')
    /\ status r = 200
    /\ map u_id (users w') = [lit "u1"; lit "u3"]
    /\ images w' = [sample_image "i1" "u1" "generated/u1_1_generated.png" 110]
    /\ bucket_images w'
       = [(lit "generated/u1_1_generated.png", [137; 80; 78; 71])].
Proof.
  destruct (deleteAdminUser_effect (lit "u2") sample_world)
    as (r & w' & Hrun & Hst & Hu & Hi & Hb).
  - reflexivity.
  - exists r, w'. split; [exact Hrun |]. split; [exact Hst |].
    split; [rewrite Hu | split; [rewrite Hi | rewrite Hb]]; vm_compute; reflexivity.
Defined.

Lemma getAdminStats_counts_witness :
  exists r,
    getAdminStats thirty_days_before sample_world = (Val r, sample_world)
    /\ status r = 200
    /\ stats_field "totalUsers" r = Some (JNum 3)
    /\ stats_field "totalImages" r = Some (JNum 2)
    /\ stats_field "newUsers" r = Some (JNum 0).
Proof.
  destruct (getAdminStats_counts thirty_days_before sample_world)
    as (r & Hrun & Hst & Hu & Hi & Hn & _).
  - reflexivity.
  - exists r. split; [exact Hrun |]. split; [exact Hst |].
    split; [exact Hu |]. split; [exact Hi | exact Hn].
Defined.

Lemma getAdminStats_errors_read_as_zero_witness :
  exists r w',
    getAdminStats thirty_days_before world_counts_down = (Val r, w')
    /\ status r = 200
    /\ stats_field "totalUsers" r = Some (JNum 0)
    /\ List.length (users world_counts_down) = 3%nat.
Proof.
  destruct (getAdminStats_errors_read_as_zero thirty_days_before world_counts_down
              (Error (lit "timeout")) (Error (lit "timeout"))
              (Error (lit "timeout")) (Error (lit "timeout")) [])
    as (r & w' & Hrun & Hst & Hu & _).
  - reflexivity.
  - exists r, w'. split; [exact Hrun |]. split; [exact Hst |].
    split; [exact Hu | reflexivity].
Defined.

Lemma getActivities_first_query_fails_witness :
  exists r w',
    getActivities (sample_claims "u1") None None None world_logging_down
    = (Val r, w')
    /\ status r = 500
    /\ get "error" (body r) = Some (JStr (lit "Activities table not found")).
Proof.
  destruct (getActivities_first_query_fails (sample_claims "u1") None None None
              world_logging_down)
    as (r & w' & Hrun & Hst & He & _).
  - reflexivity.
  - left. reflexivity.
  - exists r, w'. split; [exact Hrun |]. split; [exact Hst | exact He].
Defined.
